(** * Tracking engine of the real-estate tracker: a shallow embedding

    The development follows the Python sources:
    - [app/core/database.py]                      -> [Module Database]
    - [app/services/listing_service.py]           -> [Module ListingService],
      [Module ListingRemoval] ([delete_listing]),
      [Module ListQueries] ([list_listings])
    - [app/api/v1/listings.py] ([add_price])      -> [Module ListingsApi],
      ([get_price_history])                       -> [Module ListingsRoutes]
    - [app/services/historical_sale_service.py]   -> [Module HistoricalSaleService],
      [Module ListQueries] ([list_sales])
    - [app/services/photo_service.py]             -> [Module PhotoService],
      [Module PhotoFiles]

    Conventions of the embedding.
    - Python [int] is [Z]; counters that only count are [nat].
    - [Decimal] prices are exact rationals ([Q]); Python compares decimals
      numerically, which is [Qeq_bool] and [Qcompare] here.  The wrapper
      converts a [Decimal] parameter to [float] before binding it; on
      decimals of at most 15 significant digits ([short_decimal]) that
      conversion loses nothing, and the model stores the exact value.
    - A [str] is a byte string.  [strip] and [isalnum] are those of Python
      on text written in ASCII; what depends on them is stated for such
      text.
    - A [date] is its ordinal day number; ISO date strings order the same way.
    - A value that may be [None] is an [option]; a dict key that may be
      missing is an [option] field of a record.
    - Every [Database] method opens a connection, executes one statement and
      commits it; a statement may raise.  The world therefore carries the
      committed tables, a schedule saying which of the coming statements
      raise, and the journal of the statements committed so far. *)

From Stdlib Require Import String Ascii List ZArith QArith Bool Lia Arith.
From Stdlib Require DecimalString Sorted Permutation.
Import ListNotations.

Local Open Scope string_scope.
Local Open Scope Z_scope.

Set Implicit Arguments.

(** ** Python values *)

(** Truth value of an optional string: [None] and the empty string are falsy. *)
Definition truthy (s : option string) : bool :=
  match s with
  | Some v => negb (v =? "")%string
  | None => false
  end.

(** Truth value of an optional [Decimal]: [None] and zero are falsy. *)
Definition truthy_decimal (p : option Q) : bool :=
  match p with
  | Some q => negb (Qeq_bool q 0)
  | None => false
  end.

(** [a or b] on an optional string and a string. *)
Definition or_else (a : option string) (b : string) : string :=
  match a with
  | Some v => if (v =? "")%string then b else v
  | None => b
  end.

Definition Qltb (a b : Q) : bool :=
  match Qcompare a b with
  | Lt => true
  | _ => false
  end.

(** [str(n)] for an integer. *)
Definition str_of_Z (z : Z) : string :=
  DecimalString.NilZero.string_of_int (Z.to_int z).

Definition str_of_nat (n : nat) : string := str_of_Z (Z.of_nat n).

(** [str(x)] of an optional string, as an f-string prints it. *)
Definition fmt_opt (s : option string) : string :=
  match s with
  | Some v => v
  | None => "None"
  end.

(** A Python [float]: a finite value, an infinity or not-a-number. *)
Inductive pyfloat : Type :=
| Finite (q : Q)
| Infinite (negative : bool)
| NaN.

(** Exceptions, each with the text [str(e)] returns. *)
Inductive exn : Type :=
| ValueError (msg : string)
| KeyError (msg : string)
| DatabaseError (msg : string)
| AttributeError (msg : string)
| TypeError (msg : string)
| OverflowError (msg : string)
| CsvError (msg : string)
| HTTPException (status_code : Z) (detail : string).

Definition str_of_exn (e : exn) : string :=
  match e with
  | ValueError m | KeyError m | DatabaseError m | AttributeError m
  | TypeError m | OverflowError m | CsvError m => m
  | HTTPException _ d => d
  end.

(** ** Tables *)

Record building_row : Type := mk_building {
  b_id : Z;
  b_name : string;
  b_address : string;
  b_neighborhood_id : option Z;
  b_city : string
}.

Record neighborhood_row : Type := mk_neighborhood {
  n_id : Z;
  n_name : string
}.

(** The columns a sighting overwrites, in the order of the SQL text. *)
Record listing_fields : Type := mk_listing_fields {
  l_building_id : option Z;
  l_unit_number : option string;
  l_status : string;
  l_bedrooms : option Z;
  l_bathrooms : option Q;
  l_square_feet : option Z;
  l_property_type : option string;
  l_listing_date : option Z;
  l_days_on_market : option Z;
  l_description : option string;
  l_listing_agent : option string;
  l_listing_brokerage : option string;
  l_source_url : option string;
  l_source_platform : string
}.

Record listing_row : Type := mk_listing {
  l_id : Z;
  l_mls_number : option string;
  l_fields : listing_fields;
  l_is_active : bool;
  l_first_seen_at : Z;
  l_last_seen_at : Z;
  l_created_at : Z;
  l_updated_at : Z
}.

Record price_row : Type := mk_price {
  ph_id : Z;
  ph_listing_id : Z;
  ph_price : Q;
  ph_recorded_date : Z;
  ph_event_type : string
}.

Record event_row : Type := mk_event {
  te_id : Z;
  te_listing_id : Z;
  te_event_type : string;
  te_details : string
}.

Record sale_fields : Type := mk_sale_fields {
  hs_building_id : Z;
  hs_unit_number : option string;
  hs_sale_price : Q;
  hs_sale_date : string;
  hs_bedrooms : option Z;
  hs_bathrooms : option pyfloat;
  hs_square_feet : option Z;
  hs_property_type : option string;
  hs_days_on_market : option Z;
  hs_notes : option string;
  hs_data_source : string
}.

Record sale_row : Type := mk_sale {
  hs_id : Z;
  hs_fields : sale_fields
}.

(** Modelled from the spec: the table declarations ([schema.sql] is not among
    the sources).  The columns are those the SQL text of the services names;
    following the spec's data model every table has a surrogate integer id
    and no other constraint is assumed: a write that a constraint would
    reject is one of the statements the schedule lets raise. *)
Record Store : Type := mk_store {
  buildings : list building_row;
  neighborhoods : list neighborhood_row;
  listings : list listing_row;
  price_history : list price_row;
  tracking_events : list event_row;
  historical_sales : list sale_row
}.

Definition empty_store : Store := mk_store [] [] [] [] [] [].

(** The rowid SQLite gives a new row: one more than the largest in the table. *)
Definition next_rowid (ids : list Z) : Z := 1 + fold_right Z.max 0 ids.

(** ** Statements that write *)

Inductive statement : Type :=
| INSERT_building (name address : string) (neighborhood_id : option Z) (city : string)
| INSERT_listing (mls_number : string) (f : listing_fields) (now : Z)
| UPDATE_listing (f : listing_fields) (now : Z) (id : Z)
| UPDATE_listing_status (status : string) (is_active : bool) (now : Z) (id : Z)
| INSERT_price_history (listing_id : Z) (price : Q) (recorded_date : Z) (event_type : string)
| INSERT_tracking_event (listing_id : Z) (event_type details : string)
| INSERT_historical_sale (f : sale_fields).

Definition set_buildings (s : Store) (v : list building_row) : Store :=
  mk_store v (neighborhoods s) (listings s) (price_history s)
    (tracking_events s) (historical_sales s).

Definition set_listings (s : Store) (v : list listing_row) : Store :=
  mk_store (buildings s) (neighborhoods s) v (price_history s)
    (tracking_events s) (historical_sales s).

Definition set_price_history (s : Store) (v : list price_row) : Store :=
  mk_store (buildings s) (neighborhoods s) (listings s) v
    (tracking_events s) (historical_sales s).

Definition set_tracking_events (s : Store) (v : list event_row) : Store :=
  mk_store (buildings s) (neighborhoods s) (listings s) (price_history s)
    v (historical_sales s).

Definition set_historical_sales (s : Store) (v : list sale_row) : Store :=
  mk_store (buildings s) (neighborhoods s) (listings s) (price_history s)
    (tracking_events s) v.

Definition update_where (id : Z) (f : listing_row -> listing_row)
    (rows : list listing_row) : list listing_row :=
  map (fun r => if l_id r =? id then f r else r) rows.

Definition count_where (id : Z) (rows : list listing_row) : Z :=
  Z.of_nat (length (filter (fun r => l_id r =? id) rows)).

(** Effect of a committed statement: the new tables together with
    [lastrowid] (for an INSERT) or [rowcount] (for an UPDATE). *)
Definition run_statement (st : statement) (s : Store) : Store * Z :=
  match st with
  | INSERT_building name address nid city =>
      let id := next_rowid (map b_id (buildings s)) in
      (set_buildings s (buildings s ++ [mk_building id name address nid city]), id)
  | INSERT_listing mls f now =>
      let id := next_rowid (map l_id (listings s)) in
      (set_listings s
         (listings s ++ [mk_listing id (Some mls) f true now now now now]), id)
  | UPDATE_listing f now id =>
      (set_listings s
         (update_where id
            (fun r => mk_listing (l_id r) (l_mls_number r) f true
                        (l_first_seen_at r) now (l_created_at r) now)
            (listings s)),
       count_where id (listings s))
  | UPDATE_listing_status status active now id =>
      (set_listings s
         (update_where id
            (fun r =>
               let g := l_fields r in
               mk_listing (l_id r) (l_mls_number r)
                 (mk_listing_fields (l_building_id g) (l_unit_number g) status
                    (l_bedrooms g) (l_bathrooms g) (l_square_feet g)
                    (l_property_type g) (l_listing_date g) (l_days_on_market g)
                    (l_description g) (l_listing_agent g) (l_listing_brokerage g)
                    (l_source_url g) (l_source_platform g))
                 active (l_first_seen_at r) now (l_created_at r) now)
            (listings s)),
       count_where id (listings s))
  | INSERT_price_history lid price d kind =>
      let id := next_rowid (map ph_id (price_history s)) in
      (set_price_history s (price_history s ++ [mk_price id lid price d kind]), id)
  | INSERT_tracking_event lid kind details =>
      let id := next_rowid (map te_id (tracking_events s)) in
      (set_tracking_events s (tracking_events s ++ [mk_event id lid kind details]), id)
  | INSERT_historical_sale f =>
      let id := next_rowid (map hs_id (historical_sales s)) in
      (set_historical_sales s (historical_sales s ++ [mk_sale id f]), id)
  end.

(** Replaying a journal of committed statements on the tables. *)
Definition replay (js : list statement) (s : Store) : Store :=
  fold_left (fun acc st => fst (run_statement st acc)) js s.

(** ** The world and the monad of the services *)

Record World : Type := mk_world {
  store : Store;
  faults : list bool;
  journal : list statement
}.

Inductive result (A : Type) : Type :=
| Ok (a : A)
| Raise (e : exn).

Arguments Ok {A} a.
Arguments Raise {A} e.

Definition M (A : Type) : Type := World -> result A * World.

Definition ret {A : Type} (a : A) : M A := fun w => (Ok a, w).

Definition bind {A B : Type} (m : M A) (k : A -> M B) : M B :=
  fun w =>
    match m w with
    | (Ok a, w') => k a w'
    | (Raise e, w') => (Raise e, w')
    end.

Definition raise {A : Type} (e : exn) : M A := fun w => (Raise e, w).

(** [try: m except Exception as e: h e].  The tables keep what [m] committed
    before it raised. *)
Definition catch {A : Type} (m : M A) (h : exn -> M A) : M A :=
  fun w =>
    match m w with
    | (Ok a, w') => (Ok a, w')
    | (Raise e, w') => h e w'
    end.

Declare Scope py_scope.
Delimit Scope py_scope with py.
Notation "x <- m ;; k" := (bind m (fun x => k))
  (at level 100, m at next level, right associativity) : py_scope.
Notation "m ;;; k" := (bind m (fun _ => k))
  (at level 100, right associativity) : py_scope.
Local Open Scope py_scope.

(** A run on committed tables [s] with no statement raising. *)
Definition run {A : Type} (m : M A) (s : Store) : result A * Store :=
  let (r, w) := m (mk_world s [] []) in (r, store w).

(** A run under a schedule of failures. *)
Definition run_with {A : Type} (fs : list bool) (m : M A) (s : Store)
    : result A * Store :=
  let (r, w) := m (mk_world s fs []) in (r, store w).

(** ** app/core/database.py *)

Module Database.

(** [conn.execute(query, params)]: raises when the schedule says so. *)
Definition conn_execute : M unit :=
  fun w =>
    match faults w with
    | true :: fs =>
        (Raise (DatabaseError "database error"),
         mk_world (store w) fs (journal w))
    | false :: fs => (Ok tt, mk_world (store w) fs (journal w))
    | [] => (Ok tt, w)
    end.

Definition commit (st : statement) : M Z :=
  fun w =>
    (Ok (snd (run_statement st (store w))),
     mk_world (fst (run_statement st (store w))) (faults w) (journal w ++ [st])).

(** [execute]: a SELECT, given as the function computing its rows. *)
Definition execute {A : Type} (q : Store -> A) : M A :=
  conn_execute ;;; fun w => (Ok (q (store w)), w).

(** [execute_insert]: execute, commit, return [lastrowid].  The parameters
    pass through [_convert_params], which turns a [Decimal] into a [float];
    the statements of the model carry the decimal itself, which is what is
    read back for a decimal of at most 15 significant digits. *)
Definition execute_insert (st : statement) : M Z :=
  conn_execute ;;; commit st.

(** [execute_update]: execute, commit, return [rowcount]. *)
Definition execute_update (st : statement) : M Z :=
  conn_execute ;;; commit st.

End Database.

(** ** Queries *)

(** [SELECT id FROM building WHERE name = ?], first row. *)
Definition building_by_name (name : string) (s : Store) : option Z :=
  option_map b_id (find (fun b => (b_name b =? name)%string) (buildings s)).

(** [SELECT id FROM building WHERE address = ?], first row. *)
Definition building_by_address (address : string) (s : Store) : option Z :=
  option_map b_id (find (fun b => (b_address b =? address)%string) (buildings s)).

(** [SELECT id FROM neighborhood WHERE name = ?], first row. *)
Definition neighborhood_by_name (name : string) (s : Store) : option Z :=
  option_map n_id (find (fun n => (n_name n =? name)%string) (neighborhoods s)).

Definition has_mls (mls : string) (l : listing_row) : bool :=
  match l_mls_number l with
  | Some m => (m =? mls)%string
  | None => false
  end.

(** [SELECT ... FROM listing WHERE mls_number = ?], first row. *)
Definition listing_by_mls (mls : string) (s : Store) : option listing_row :=
  find (has_mls mls) (listings s).

(** The test of the [WHERE] clause below.  SQLite compares the stored float
    with [float(price)]; on decimals of at most 15 significant digits that
    is the equality of the decimals, which is what the model compares. *)
Definition same_point (lid : Z) (d : Z) (price : Q) (r : price_row) : bool :=
  (ph_listing_id r =? lid) && (ph_recorded_date r =? d) && Qeq_bool (ph_price r) price.

(** [SELECT id FROM price_history WHERE listing_id = ? AND recorded_date = ?
    AND price = ?], first row. *)
Definition price_point (lid : Z) (d : Z) (price : Q) (s : Store) : option Z :=
  option_map ph_id (find (same_point lid d price) (price_history s)).

Definition history_of (lid : Z) (s : Store) : list price_row :=
  filter (fun r => ph_listing_id r =? lid) (price_history s).

(** The row [ORDER BY recorded_date DESC LIMIT 1] keeps: one of greatest
    date.  SQL leaves the choice among rows of the same date open (SQLite
    returns the oldest of them when it sorts and the newest when it walks an
    index on the date); the model keeps the one inserted first.  Nothing
    proved below rests on that choice: where it matters the dates are
    required to differ. *)
Fixpoint most_recent (rows : list price_row) : option price_row :=
  match rows with
  | [] => None
  | r :: rest =>
      match most_recent rest with
      | Some r' =>
          if ph_recorded_date r <? ph_recorded_date r' then Some r' else Some r
      | None => Some r
      end
  end.

(** [SELECT price FROM price_history WHERE listing_id = ?
    ORDER BY recorded_date DESC LIMIT 1]. *)
Definition latest_price (lid : Z) (s : Store) : option Q :=
  option_map ph_price (most_recent (history_of lid s)).

(** The clock: [date.today()] and [datetime.now()]. *)
Record Clock : Type := mk_clock {
  today : Z;
  now : Z
}.

(** ** app/services/listing_service.py *)

(** The dict [data] handed to [create_or_update_listing]; a missing key and
    the value [None] are both [None]. *)
Record listing_data : Type := mk_listing_data {
  d_mls_number : option string;
  d_building_name : option string;
  d_address : option string;
  d_neighborhood : option string;
  d_unit_number : option string;
  d_status : option string;
  d_bedrooms : option Z;
  d_bathrooms : option Q;
  d_square_feet : option Z;
  d_property_type : option string;
  d_listing_date : option Z;
  d_days_on_market : option Z;
  d_description : option string;
  d_listing_agent : option string;
  d_listing_brokerage : option string;
  d_source_url : option string;
  d_source_platform : option string;
  d_price : option Q
}.

(** The dict [create_or_update_listing] returns. *)
Record upsert_result : Type := mk_upsert_result {
  r_success : bool;
  r_listing_id : Z;
  r_mls_number : string;
  r_is_new : bool;
  r_price_recorded : bool;
  r_message : string
}.

Definition get_default (o : option string) (d : string) : string :=
  match o with
  | Some v => v
  | None => d
  end.

Module ListingService.

Import Database.

Definition _get_or_create_building
    (name address neighborhood : option string) : M (option Z) :=
  if negb (truthy name) && negb (truthy address) then ret None
  else
    by_name <-
      (match name with
       | Some n => if truthy name then execute (building_by_name n) else ret None
       | None => ret None
       end) ;;
    match by_name with
    | Some id => ret (Some id)
    | None =>
        by_address <-
          (match address with
           | Some a =>
               if truthy address then execute (building_by_address a) else ret None
           | None => ret None
           end) ;;
        match by_address with
        | Some id => ret (Some id)
        | None =>
            neighborhood_id <-
              (match neighborhood with
               | Some n =>
                   if truthy neighborhood
                   then execute (neighborhood_by_name n)
                   else ret None
               | None => ret None
               end) ;;
            let building_address := or_else address (or_else name "Unknown") in
            let building_name := or_else name building_address in
            building_id <-
              execute_insert
                (INSERT_building building_name building_address
                   neighborhood_id "Victoria") ;;
            ret (Some building_id)
        end
    end.

Definition _record_price (clock : Clock) (listing_id : Z) (price : Q)
    (price_date : option Z) (event_type : string) : M Z :=
  let price_date :=
    match price_date with
    | Some d => d
    | None => today clock
    end in
  existing <- execute (price_point listing_id price_date price) ;;
  match existing with
  | Some id => ret id
  | None =>
      event_type <-
        (if (event_type =? "Price Change")%string then
           prev <- execute (latest_price listing_id) ;;
           match prev with
           | Some prev_price =>
               if Qltb price prev_price then ret "Price Drop"
               else if Qltb prev_price price then ret "Price Increase"
               else ret event_type
           | None => ret event_type
           end
         else ret event_type) ;;
      execute_insert
        (INSERT_price_history listing_id price price_date event_type)
  end.

Definition fields_of (data : listing_data) (building_id : option Z)
    : listing_fields :=
  mk_listing_fields building_id (d_unit_number data)
    (get_default (d_status data) "Active")
    (d_bedrooms data) (d_bathrooms data) (d_square_feet data)
    (d_property_type data) (d_listing_date data) (d_days_on_market data)
    (d_description data) (d_listing_agent data) (d_listing_brokerage data)
    (d_source_url data) (get_default (d_source_platform data) "Manual").

Definition create_or_update_listing (clock : Clock) (data : listing_data)
    : M upsert_result :=
  match d_mls_number data with
  | None => raise (ValueError "mls_number is required")
  | Some mls_number =>
      if negb (truthy (d_mls_number data))
      then raise (ValueError "mls_number is required")
      else
        existing <- execute (listing_by_mls mls_number) ;;
        building_id <-
          _get_or_create_building (d_building_name data) (d_address data)
            (d_neighborhood data) ;;
        let now := now clock in
        let price := d_price data in
        match existing with
        | Some row =>
            let listing_id := l_id row in
            execute_update
              (UPDATE_listing (fields_of data building_id) now listing_id) ;;;
            price_recorded <-
              (match price with
               | Some p =>
                   if truthy_decimal price then
                     current_price <- execute (latest_price listing_id) ;;
                     if match current_price with
                        | None => true
                        | Some c => negb (Qeq_bool c p)
                        end
                     then
                       _record_price clock listing_id p None "Price Change" ;;;
                       ret true
                     else ret false
                   else ret false
               | None => ret false
               end) ;;
            execute_insert
              (INSERT_tracking_event listing_id "Updated"
                 ("Updated from " ++ fmt_opt (d_source_platform data))) ;;;
            ret (mk_upsert_result true listing_id mls_number false
                   price_recorded "Listing updated")
        | None =>
            listing_id <-
              execute_insert
                (INSERT_listing mls_number (fields_of data building_id) now) ;;
            price_recorded <-
              (match price with
               | Some p =>
                   if truthy_decimal price then
                     _record_price clock listing_id p (d_listing_date data)
                       "Initial" ;;;
                     ret true
                   else ret false
               | None => ret false
               end) ;;
            execute_insert
              (INSERT_tracking_event listing_id "Discovered"
                 ("Found on " ++ fmt_opt (d_source_platform data))) ;;;
            ret (mk_upsert_result true listing_id mls_number true
                   price_recorded "New listing created")
        end
  end.

Definition by_date_desc (r : price_row) : list price_row -> list price_row :=
  fix ins (rows : list price_row) : list price_row :=
    match rows with
    | [] => [r]
    | x :: rest =>
        if ph_recorded_date x <? ph_recorded_date r
        then r :: x :: rest
        else x :: ins rest
    end.

(** [SELECT * FROM price_history WHERE listing_id = ?
    ORDER BY recorded_date DESC], rows of one date in insertion order. *)
Definition history_desc (lid : Z) (s : Store) : list price_row :=
  fold_left (fun acc r => by_date_desc r acc) (history_of lid s) [].

(** [get_listing]: the listing row with its price history, newest first.
    The joined building and neighbourhood names and the photo rows, which
    no caller modelled here reads, are left out. *)
Definition get_listing (mls_number : string)
    : M (option (listing_row * list price_row)) :=
  listing <- execute (listing_by_mls mls_number) ;;
  match listing with
  | None => ret None
  | Some row =>
      hist <- execute (history_desc (l_id row)) ;;
      _photos <- execute (fun _ => tt) ;;
      ret (Some (row, hist))
  end.

Definition is_terminal (status : string) : bool :=
  (status =? "Sold")%string || (status =? "Expired")%string
  || (status =? "Cancelled")%string.

Definition update_status (clock : Clock) (mls_number : string)
    (status : string) (sale_price : option Q) (sale_date : option Z) : M bool :=
  listing <- execute (listing_by_mls mls_number) ;;
  match listing with
  | None => ret false
  | Some row =>
      let listing_id := l_id row in
      let now := now clock in
      execute_update
        (UPDATE_listing_status status (negb (is_terminal status)) now
           listing_id) ;;;
      (match sale_price with
       | Some p =>
           if truthy_decimal sale_price && (status =? "Sold")%string then
             _record_price clock listing_id p
               (Some (match sale_date with
                      | Some d => d
                      | None => today clock
                      end))
               "Sold" ;;;
             ret tt
           else ret tt
       | None => ret tt
       end) ;;;
      execute_insert
        (INSERT_tracking_event listing_id "StatusChange"
           ("Status changed to " ++ status)) ;;;
      ret true
  end.

End ListingService.

(** ** app/api/v1/listings.py: the price endpoint *)

(** The request body [PriceCreate] and the response [PriceCreateResponse].
    [percent_change] is a [float] in the source; the model keeps the exact
    quotient, of which the float is the nearest binary64 value. *)
Record PriceCreate : Type := mk_price_create {
  pc_price : Q;
  pc_date : option Z;
  pc_event_type : string;
  pc_notes : option string
}.

Record PriceCreateResponse : Type := mk_price_response {
  pr_success : bool;
  pr_price_history_id : Z;
  pr_previous_price : option Q;
  pr_price_change : option Q;
  pr_percent_change : option Q
}.

Module ListingsApi.

Import Database.

Definition add_price (clock : Clock) (mls_number : string)
    (price : PriceCreate) : M PriceCreateResponse :=
  listing <- ListingService.get_listing mls_number ;;
  match listing with
  | None =>
      raise (HTTPException 404
               ("Listing with MLS number " ++ mls_number ++ " not found"))
  | Some (row, _) =>
      prev <- execute (latest_price (l_id row)) ;;
      let previous_price := prev in
      let changes : option Q * option Q :=
        match previous_price with
        | Some pp =>
            if truthy_decimal previous_price then
              let price_change := (pc_price price - pp)%Q in
              if negb (Qeq_bool pp 0)
              then (Some price_change, Some (price_change / pp * 100)%Q)
              else (Some price_change, None)
            else (None, None)
        | None => (None, None)
        end in
      price_id <-
        ListingService._record_price clock (l_id row) (pc_price price)
          (pc_date price) (pc_event_type price) ;;
      ret (mk_price_response true price_id previous_price (fst changes)
             (snd changes))
  end.

End ListingsApi.

(** ** app/services/historical_sale_service.py *)

(** The library functions the importer calls.  [None] stands for the
    exception the caller handles: [InvalidOperation] for [Decimal],
    [ValueError] for [float] and [strptime].  [Decimal] is restricted to
    finite values; a date is parsed to its ordinal and printed back in
    ISO form by [strftime_iso]. *)
Class PyLib : Type := mk_pylib {
  Decimal_of_string : string -> option Q;
  float_of_string : string -> option pyfloat;
  strptime : string -> string -> option Z;
  strftime_iso : Z -> string
}.

(** What [csv.reader] makes of the text: the rows it yields, and the message
    of the [csv.Error] it raises after them, if it does. *)
Record csv_reader : Type := mk_csv_reader {
  csv_rows : list (list string);
  csv_error : option string
}.

(** A row of [csv.DictReader]: field names zipped with the values, a short
    row padded with [None].  Values beyond the last field name go under the
    key [None], which the importer never reads; they are dropped. *)
Definition dict_row : Type := list (string * option string).

Definition make_row (fieldnames values : list string) : dict_row :=
  combine fieldnames
    (map Some values ++ repeat None (length fieldnames - length values)).

(** [row.get(key)]: the value of the last pair with that key. *)
Definition row_get (key : string) (row : dict_row) : option (option string) :=
  fold_left
    (fun acc kv => if (fst kv =? key)%string then Some (snd kv) else acc)
    row None.

(** [row.get(key)] where a missing key gives [None]. *)
Definition flat_get (key : string) (row : dict_row) : option string :=
  match row_get key row with
  | Some v => v
  | None => None
  end.

(** The dict [create_sale] receives. *)
Record sale_data : Type := mk_sale_data {
  sd_building_name : string;
  sd_address : option string;
  sd_neighborhood : option string;
  sd_unit_number : option string;
  sd_sale_price : Q;
  sd_sale_date : string;
  sd_bedrooms : option Z;
  sd_bathrooms : option pyfloat;
  sd_square_feet : option Z;
  sd_property_type : option string;
  sd_days_on_market : option Z;
  sd_notes : option string;
  sd_data_source : option string;
  sd_photos : list string
}.

Record sale_result : Type := mk_sale_result {
  sr_success : bool;
  sr_sale_id : Z;
  sr_message : string
}.

(** The dict [import_csv] returns. *)
Record import_results : Type := mk_import_results {
  ir_success : bool;
  ir_total_rows : nat;
  ir_imported : nat;
  ir_skipped : nat;
  ir_errors : list string
}.

(** [s.replace(c, "")] for a one-character [c]. *)
Fixpoint remove_char (c : ascii) (s : string) : string :=
  match s with
  | EmptyString => EmptyString
  | String a rest =>
      if Ascii.eqb a c then remove_char c rest
      else String a (remove_char c rest)
  end.

(** The ASCII characters [str.strip] removes.  Python also removes the
    white space outside ASCII (U+00A0 and the like); [strip] below is
    [str.strip] on the strings written in ASCII ([ascii_only]). *)
Definition is_space (c : ascii) : bool :=
  let n := nat_of_ascii c in
  ((9 <=? n) && (n <=? 13) || (28 <=? n) && (n <=? 32))%nat.

Fixpoint lstrip (s : string) : string :=
  match s with
  | EmptyString => EmptyString
  | String a rest => if is_space a then lstrip rest else s
  end.

Fixpoint rstrip (s : string) : string :=
  match s with
  | EmptyString => EmptyString
  | String a rest =>
      match rstrip rest with
      | EmptyString => if is_space a then EmptyString else String a EmptyString
      | r => String a r
      end
  end.

Definition strip (s : string) : string := rstrip (lstrip s).

(** [", ".join(xs)]. *)
Fixpoint join (sep : string) (xs : list string) : string :=
  match xs with
  | [] => ""
  | [x] => x
  | x :: rest => x ++ sep ++ join sep rest
  end.

Definition mem (x : string) (xs : list string) : bool :=
  existsb (fun y => (y =? x)%string) xs.

(** [int(x)] on a float: truncation, [OverflowError] on an infinity and
    [ValueError] on not-a-number. *)
Definition int_of_float (x : pyfloat) : result Z :=
  match x with
  | Finite q => Ok (Z.quot (Qnum q) (Zpos (Qden q)))
  | Infinite _ => Raise (OverflowError "cannot convert float infinity to integer")
  | NaN => Raise (ValueError "cannot convert float NaN to integer")
  end.

Definition lift {A : Type} (r : result A) : M A := fun w => (r, w).

Definition result_bind {A B : Type} (r : result A) (k : A -> result B)
    : result B :=
  match r with
  | Ok a => k a
  | Raise e => Raise e
  end.

Notation "x <-- r ;; k" := (result_bind r (fun x => k))
  (at level 100, r at next level, right associativity) : py_scope.

Module HistoricalSaleService.

Import Database.

Section WithLibrary.

Context {lib : PyLib}.

Definition _get_or_create_building (name : string)
    (address neighborhood : option string) : M Z :=
  by_name <- execute (building_by_name name) ;;
  match by_name with
  | Some id => ret id
  | None =>
      by_address <-
        (match address with
         | Some a =>
             if truthy address then execute (building_by_address a) else ret None
         | None => ret None
         end) ;;
      match by_address with
      | Some id => ret id
      | None =>
          neighborhood_id <-
            (match neighborhood with
             | Some n =>
                 if truthy neighborhood
                 then execute (neighborhood_by_name n)
                 else ret None
             | None => ret None
             end) ;;
          let building_address :=
            or_else address (or_else (Some name) "Unknown") in
          execute_insert
            (INSERT_building name building_address neighborhood_id "Victoria")
      end
  end.

(** [create_sale].  When [photos] is given the source then asks the photo
    service to fetch them; the transfer touches no table and its count is
    dropped, so the model stops at the returned dict. *)
Definition create_sale (data : sale_data) : M sale_result :=
  building_id <-
    _get_or_create_building (sd_building_name data) (sd_address data)
      (sd_neighborhood data) ;;
  sale_id <-
    execute_insert
      (INSERT_historical_sale
         (mk_sale_fields building_id (sd_unit_number data)
            (sd_sale_price data) (sd_sale_date data) (sd_bedrooms data)
            (sd_bathrooms data) (sd_square_feet data) (sd_property_type data)
            (sd_days_on_market data) (sd_notes data)
            (get_default (sd_data_source data) "Manual Entry"))) ;;
  ret (mk_sale_result true sale_id "Historical sale recorded").

Definition is_blank (value : option string) : bool :=
  match value with
  | None => true
  | Some v => (v =? "")%string || (strip v =? "")%string
  end.

Definition _parse_int (value : option string) : result (option Z) :=
  match value with
  | None => Ok None
  | Some v =>
      if is_blank value then Ok None
      else
        match float_of_string v with
        | None => Ok None
        | Some x =>
            match int_of_float x with
            | Ok n => Ok (Some n)
            | Raise (ValueError _) => Ok None
            | Raise (TypeError _) => Ok None
            | Raise e => Raise e
            end
        end
  end.

Definition _parse_float (value : option string) : result (option pyfloat) :=
  match value with
  | None => Ok None
  | Some v =>
      if is_blank value then Ok None
      else
        match float_of_string v with
        | None => Ok None
        | Some x => Ok (Some x)
        end
  end.

(** [row[key]]. *)
Definition getitem (key : string) (row : dict_row) : result (option string) :=
  match row_get key row with
  | Some v => Ok v
  | None => Raise (KeyError key)
  end.

(** [row[key].strip()]. *)
Definition getitem_strip (key : string) (row : dict_row) : result string :=
  match getitem key row with
  | Ok (Some v) => Ok (strip v)
  | Ok None => Raise (AttributeError "'NoneType' object has no attribute 'strip'")
  | Raise e => Raise e
  end.

(** [row.get(key, "").strip() or None]. *)
Definition get_strip_or_none (key : string) (row : dict_row)
    : result (option string) :=
  match row_get key row with
  | None => Ok None
  | Some None =>
      Raise (AttributeError "'NoneType' object has no attribute 'strip'")
  | Some (Some v) =>
      if (strip v =? "")%string then Ok None else Ok (Some (strip v))
  end.

Definition date_formats : list string :=
  ["%Y-%m-%d"; "%m/%d/%Y"; "%d/%m/%Y"; "%m-%d-%Y"].

(** The [for fmt in ...: try ... break] loop: the first format that parses. *)
Fixpoint parse_date (sale_date : string) (fmts : list string) : option string :=
  match fmts with
  | [] => None
  | fmt :: rest =>
      match strptime sale_date fmt with
      | Some parsed => Some (strftime_iso parsed)
      | None => parse_date sale_date rest
      end
  end.

Definition row_error (row_num : nat) (msg : string) (results : import_results)
    : import_results :=
  mk_import_results (ir_success results) (ir_total_rows results)
    (ir_imported results) (S (ir_skipped results))
    (ir_errors results ++ ["Row " ++ str_of_nat row_num ++ ": " ++ msg]).

Definition count_row (results : import_results) : import_results :=
  mk_import_results (ir_success results) (S (ir_total_rows results))
    (ir_imported results) (ir_skipped results) (ir_errors results).

Definition count_imported (results : import_results) : import_results :=
  mk_import_results (ir_success results) (ir_total_rows results)
    (S (ir_imported results)) (ir_skipped results) (ir_errors results).

Definition batch_error (msg : string) (results : import_results)
    : import_results :=
  mk_import_results false (ir_total_rows results) (ir_imported results)
    (ir_skipped results) (ir_errors results ++ [msg]).

(** What the parsing part of the loop body comes to: the dict for
    [create_sale], or the message of a row it gives up with [continue]. *)
Inductive parsed_row : Type :=
| Sale (data : sale_data)
| Skip (msg : string).

(** The loop body up to the call of [create_sale]; an exception that
    neither inner handler takes is raised to the handler of the row. *)
Definition parse_row (row : dict_row) : result parsed_row :=
  raw_price <-- getitem "sale_price" row ;;
  match raw_price with
  | None => Raise (AttributeError "'NoneType' object has no attribute 'replace'")
  | Some raw =>
      match Decimal_of_string (remove_char "$" (remove_char "," raw)) with
      | None => Ok (Skip ("Invalid sale_price '" ++ raw ++ "'"))
      | Some sale_price =>
          raw_date <-- getitem "sale_date" row ;;
          match raw_date with
          | None =>
              Raise (TypeError "strptime() argument 1 must be str, not None")
          | Some sale_date =>
              match parse_date sale_date date_formats with
              | None => Ok (Skip ("Invalid date format '" ++ sale_date ++ "'"))
              | Some sale_date =>
                  bedrooms <-- _parse_int (flat_get "bedrooms" row) ;;
                  bathrooms <-- _parse_float (flat_get "bathrooms" row) ;;
                  square_feet <-- _parse_int (flat_get "square_feet" row) ;;
                  days_on_market <--
                    _parse_int (flat_get "days_on_market" row) ;;
                  building_name <-- getitem_strip "building_name" row ;;
                  address <-- get_strip_or_none "address" row ;;
                  neighborhood <-- get_strip_or_none "neighborhood" row ;;
                  unit_number <-- get_strip_or_none "unit_number" row ;;
                  property_type <-- get_strip_or_none "property_type" row ;;
                  notes <-- get_strip_or_none "notes" row ;;
                  Ok (Sale
                        (mk_sale_data building_name address neighborhood
                           unit_number sale_price sale_date bedrooms bathrooms
                           square_feet property_type days_on_market notes
                           (Some "CSV Import") []))
              end
          end
      end
  end.

(** The body of the [for row_num, row in enumerate(reader, start=2)] loop. *)
Definition import_row (row_num : nat) (row : dict_row)
    (results : import_results) : M import_results :=
  let results := count_row results in
  catch
    (parsed <- lift (parse_row row) ;;
     match parsed with
     | Skip msg => ret (row_error row_num msg results)
     | Sale data =>
         create_sale data ;;;
         ret (count_imported results)
     end)
    (fun e => ret (row_error row_num (str_of_exn e) results)).

Fixpoint import_rows (row_num : nat) (rows : list dict_row)
    (results : import_results) : M import_results :=
  match rows with
  | [] => ret results
  | row :: rest =>
      results <- import_row row_num row results ;;
      import_rows (S row_num) rest results
  end.

Definition required : list string := ["building_name"; "sale_price"; "sale_date"].

Definition is_empty_row (values : list string) : bool :=
  match values with
  | [] => true
  | _ => false
  end.

(** [import_csv], on what the reader makes of [csv_content].  The order in
    which the missing columns are listed is that of a Python set, which the
    language leaves open; the model lists them in the order of [required]. *)
Definition import_csv (reader : csv_reader) : M import_results :=
  let results := mk_import_results true 0 0 0 [] in
  match csv_rows reader with
  | [] =>
      match csv_error reader with
      | Some msg => ret (batch_error ("CSV parsing error: " ++ msg) results)
      | None => ret (batch_error "CSV has no headers" results)
      end
  | fieldnames :: records =>
      if is_empty_row fieldnames
      then ret (batch_error "CSV has no headers" results)
      else
        let missing := filter (fun c => negb (mem c fieldnames)) required in
        if negb (is_empty_row missing)
        then
          ret (batch_error
                 ("Missing required columns: " ++ join ", " missing) results)
        else
          results <-
            import_rows 2
              (map (make_row fieldnames)
                 (filter (fun r => negb (is_empty_row r)) records))
              results ;;
          match csv_error reader with
          | Some msg => ret (batch_error ("CSV parsing error: " ++ msg) results)
          | None => ret results
          end
  end.

End WithLibrary.

End HistoricalSaleService.

(** A small instance of the library, for running the importer on examples:
    plain digit strings as numbers, and ISO dates only. *)
Module PlainLibrary.

Definition digit_value (c : ascii) : option Z :=
  let n := nat_of_ascii c in
  if ((48 <=? n) && (n <=? 57))%nat then Some (Z.of_nat (n - 48)) else None.

Fixpoint digits_from (acc : Z) (s : string) : option Z :=
  match s with
  | EmptyString => Some acc
  | String c rest =>
      match digit_value c with
      | Some d => digits_from (10 * acc + d) rest
      | None => None
      end
  end.

Definition number (s : string) : option Z :=
  match s with
  | EmptyString => None
  | _ => digits_from 0 s
  end.

Definition decimal (s : string) : option Q :=
  option_map (fun z => z # 1) (number s).

Definition iso_date (s fmt : string) : option Z :=
  if (fmt =? "%Y-%m-%d")%string && (String.length s =? 10)%nat then
    match number (substring 0 4 s), number (substring 5 2 s),
          number (substring 8 2 s) with
    | Some y, Some m, Some d =>
        if (substring 4 1 s =? "-")%string && (substring 7 1 s =? "-")%string
        then Some (y * 372 + (m - 1) * 31 + (d - 1))
        else None
    | _, _, _ => None
    end
  else None.

Definition pad (width : nat) (z : Z) : string :=
  let t := str_of_Z z in
  (String.concat "" (repeat "0" (width - String.length t)) ++ t)%string.

Definition print_iso (z : Z) : string :=
  pad 4 (z / 372) ++ "-" ++ pad 2 ((z mod 372) / 31 + 1) ++ "-"
  ++ pad 2 (z mod 31 + 1).

#[export] Instance plain : PyLib :=
  mk_pylib decimal (fun s => option_map Finite (decimal s)) iso_date print_iso.

End PlainLibrary.

(** ** app/services/photo_service.py: the orphan sweep *)

(** What [iterdir] lists: files, and directories with their content. *)
#[local] Unset Elimination Schemes.
Inductive entry : Type :=
| File (name : string)
| Dir (name : string) (content : list entry).
#[local] Set Elimination Schemes.

(** The two roots of the photo store; [None] when the path does not exist. *)
Record photo_storage : Type := mk_photo_storage {
  listings_path : option (list entry);
  historical_path : option (list entry)
}.

(** The dict [purge_orphaned_photos] returns. *)
Record purge_stats : Type := mk_purge_stats {
  ps_listings_deleted : nat;
  ps_historical_deleted : nat;
  ps_errors : list string
}.

Definition is_dir (e : entry) : bool :=
  match e with
  | Dir _ _ => true
  | File _ => false
  end.

(** [SELECT mls_number FROM listing WHERE mls_number IS NOT NULL]. *)
Definition live_mls_numbers (s : Store) : list string :=
  flat_map
    (fun l => match l_mls_number l with
              | Some m => [m]
              | None => []
              end)
    (listings s).

(** [SELECT id FROM historical_sale], each id through [str]. *)
Definition live_sale_ids (s : Store) : list string :=
  map (fun r => str_of_Z (hs_id r)) (historical_sales s).

Module PhotoService.

Import Database.

(** The loop over one root: a directory whose name is not live is counted
    ([len(list(d.iterdir()))]) and removed with all it holds
    ([shutil.rmtree]).  Gives the count and what is left under the root. *)
Fixpoint sweep (live : list string) (entries : list entry) : nat * list entry :=
  match entries with
  | [] => (0%nat, [])
  | e :: rest =>
      let (n, kept) := sweep live rest in
      match e with
      | Dir name content =>
          if negb (mem name live)
          then ((length content + n)%nat, kept)
          else (n, e :: kept)
      | File _ => (n, e :: kept)
      end
  end.

Definition sweep_root (live : list string) (root : option (list entry))
    : nat * option (list entry) :=
  match root with
  | Some entries => let (n, kept) := sweep live entries in (n, Some kept)
  | None => (0%nat, None)
  end.

Definition purge_orphaned_photos (disk : photo_storage)
    : M (purge_stats * photo_storage) :=
  let stats := mk_purge_stats 0 0 [] in
  fetched <-
    catch
      (result <- execute live_mls_numbers ;;
       ret (result, stats))
      (fun e =>
         ret ([],
              mk_purge_stats (ps_listings_deleted stats)
                (ps_historical_deleted stats)
                (ps_errors stats ++
                 ["Could not fetch active listings: " ++ str_of_exn e]))) ;;
  let (active_mls, stats) := fetched : list string * purge_stats in
  let (deleted, listings_left) := sweep_root active_mls (listings_path disk) in
  let stats :=
    mk_purge_stats (ps_listings_deleted stats + deleted)
      (ps_historical_deleted stats) (ps_errors stats) in
  fetched <-
    catch
      (result <- execute live_sale_ids ;;
       ret (result, stats))
      (fun e =>
         ret ([],
              mk_purge_stats (ps_listings_deleted stats)
                (ps_historical_deleted stats)
                (ps_errors stats ++
                 ["Could not fetch historical sales: " ++ str_of_exn e]))) ;;
  let (active_sale_ids, stats) := fetched : list string * purge_stats in
  let (deleted, historical_left) :=
    sweep_root active_sale_ids (historical_path disk) in
  ret (mk_purge_stats (ps_listings_deleted stats)
         (ps_historical_deleted stats + deleted) (ps_errors stats),
       mk_photo_storage listings_left historical_left).

End PhotoService.

(** ** app/services/photo_service.py: the directory of one listing *)

(** [c.isalnum()] on an ASCII character: a letter or a digit.  Strings are
    byte strings here, as for [is_space].  Python's [str.isalnum] also
    accepts the letters and digits outside ASCII (it keeps the e-acute of
    a name, which is two bytes here and both are dropped), so this is the
    predicate of the code on ASCII strings only: what is proved of the
    directory of a listing is stated for MLS numbers written in ASCII
    ([ascii_only] below). *)
Definition isalnum (c : ascii) : bool :=
  let n := nat_of_ascii c in
  ((48 <=? n) && (n <=? 57) || (65 <=? n) && (n <=? 90)
   || (97 <=? n) && (n <=? 122))%nat.

(** [c.isalnum() or c in "-_"]. *)
Definition safe_char (c : ascii) : bool :=
  isalnum c || Ascii.eqb c "-" || Ascii.eqb c "_".

(** The characters of [s] that pass [f], joined: [c for c in s if f(c)]. *)
Fixpoint keep_chars (f : ascii -> bool) (s : string) : string :=
  match s with
  | EmptyString => EmptyString
  | String c rest =>
      if f c then String c (keep_chars f rest) else keep_chars f rest
  end.

(** What goes wrong on the disk: [iterdir] on something that is not a
    directory, and [rmdir] on a directory that still holds entries
    ([OSError], errno 39). *)
Inductive os_error : Type :=
| NotADirectoryError (name : string)
| OSError (errno : Z) (name : string).

Inductive os_result (A : Type) : Type :=
| Done (a : A)
| Failed (e : os_error).

Arguments Done {A} a.
Arguments Failed {A} e.

Definition entry_name (e : entry) : string :=
  match e with
  | File name => name
  | Dir name _ => name
  end.

(** The entry a name denotes in a directory. *)
Definition lookup_entry (name : string) (entries : list entry) : option entry :=
  find (fun e => (entry_name e =? name)%string) entries.

(** The directory with the entry of that name replaced, or removed. *)
Fixpoint replace_entry (name : string) (new : option entry)
    (entries : list entry) : list entry :=
  match entries with
  | [] => []
  | e :: rest =>
      if (entry_name e =? name)%string then
        match new with
        | Some e' => e' :: rest
        | None => rest
        end
      else e :: replace_entry name new rest
  end.

Module PhotoFiles.

(** [_get_listing_dir]: the name under [listings_path].  For the empty name
    [listings_path / name] is [listings_path] itself.  Built on [safe_char],
    it is the name the code computes for an MLS number written in ASCII. *)
Definition _get_listing_dir (mls_number : string) : string :=
  rstrip (keep_chars safe_char mls_number).

(** The body of [purge_listing_photos], on the root and the name of the
    directory: nothing to do when the path does not exist; otherwise the
    plain files in it are unlinked and counted, and [rmdir] removes the
    directory, which fails when sub-directories are left in it.  The files
    are gone by then. *)
Definition purge_directory (name : string) (root : option (list entry))
    : os_result nat * option (list entry) :=
  match root with
  | None => (Done 0%nat, None)
  | Some entries =>
      if (name =? "")%string then
        let deleted := length (filter (fun e => negb (is_dir e)) entries) in
        match filter is_dir entries with
        | [] => (Done deleted, None)
        | remaining => (Failed (OSError 39 name), Some remaining)
        end
      else
        match lookup_entry name entries with
        | None => (Done 0%nat, root)
        | Some (File _) => (Failed (NotADirectoryError name), root)
        | Some (Dir _ content) =>
            let deleted := length (filter (fun e => negb (is_dir e)) content) in
            match filter is_dir content with
            | [] => (Done deleted, Some (replace_entry name None entries))
            | remaining =>
                (Failed (OSError 39 name),
                 Some (replace_entry name (Some (Dir name remaining)) entries))
            end
        end
  end.

Definition purge_listing_photos (mls_number : string) (disk : photo_storage)
    : os_result nat * photo_storage :=
  let (r, root) :=
    purge_directory (_get_listing_dir mls_number) (listings_path disk) in
  (r, mk_photo_storage root (historical_path disk)).

(** [s.lower()] on ASCII. *)
Definition lower_char (c : ascii) : ascii :=
  let n := nat_of_ascii c in
  if ((65 <=? n) && (n <=? 90))%nat then ascii_of_nat (n + 32) else c.

Fixpoint lower (s : string) : string :=
  match s with
  | EmptyString => EmptyString
  | String c rest => String (lower_char c) (lower rest)
  end.

(** [type_map.get(key)]. *)
Definition type_map (key : string) : option string :=
  if (key =? "image/jpeg")%string then Some ".jpg"
  else if (key =? "image/jpg")%string then Some ".jpg"
  else if (key =? "image/png")%string then Some ".png"
  else if (key =? "image/webp")%string then Some ".webp"
  else if (key =? "image/gif")%string then Some ".gif"
  else None.

(** [_get_extension].  [url_suffix url] stands for
    [Path(urlparse(url).path).suffix], a library value. *)
Definition _get_extension (url_suffix : string -> string)
    (content_type url : string) : string :=
  match type_map (lower content_type) with
  | Some ext => ext
  | None =>
      let path_ext := url_suffix url in
      if negb (path_ext =? "")%string then path_ext else ".jpg"
  end.

End PhotoFiles.

(** ** app/services/listing_service.py: deleting a listing *)

(** [DELETE FROM listing WHERE id = ?], with its [rowcount].  Modelled from
    the spec, which has the price-history entries and the tracking events of
    a listing deleted with it (the comment in [delete_listing] says as much:
    "cascade will handle price_history, photos"); [schema.sql] is not among
    the sources. *)
Definition DELETE_listing (id : Z) (s : Store) : Store * Z :=
  (mk_store (buildings s) (neighborhoods s)
     (filter (fun r => negb (l_id r =? id)) (listings s))
     (filter (fun r => negb (ph_listing_id r =? id)) (price_history s))
     (filter (fun r => negb (te_listing_id r =? id)) (tracking_events s))
     (historical_sales s),
   count_where id (listings s)).

(** How a call that works on the tables and on the photo store ends. *)
Inductive outcome (A : Type) : Type :=
| Returned (a : A)
| Raised (e : exn)
| OSFailed (e : os_error).

Arguments Returned {A} a.
Arguments Raised {A} e.
Arguments OSFailed {A} e.

Module ListingRemoval.

Import Database.

(** [execute_update] on the DELETE.  The journal lists the inserts and
    updates of a sighting; a DELETE is committed without an entry. *)
Definition execute_delete (id : Z) : M Z :=
  conn_execute ;;;
  fun w =>
    (Ok (snd (DELETE_listing id (store w))),
     mk_world (fst (DELETE_listing id (store w))) (faults w) (journal w)).

(** [delete_listing], the world and the photo store passed through it. *)
Definition delete_listing (mls_number : string) (purge_photos : bool)
    (w : World) (disk : photo_storage)
    : outcome bool * World * photo_storage :=
  match execute (listing_by_mls mls_number) w with
  | (Raise e, w1) => (Raised e, w1, disk)
  | (Ok None, w1) => (Returned false, w1, disk)
  | (Ok (Some row), w1) =>
      match
        (if purge_photos
         then PhotoFiles.purge_listing_photos mls_number disk
         else (Done 0%nat, disk))
      with
      | (Failed e, disk1) => (OSFailed e, w1, disk1)
      | (Done _, disk1) =>
          match execute_delete (l_id row) w1 with
          | (Raise e, w2) => (Raised e, w2, disk1)
          | (Ok _, w2) => (Returned true, w2, disk1)
          end
      end
  end.

End ListingRemoval.

(** ** app/api/v1/listings.py: the price history of a listing *)

Module ListingsRoutes.

Import Database.

(** [get_price_history]: 404 for an unknown MLS number, else the rows of
    the listing, newest first. *)
Definition get_price_history (mls_number : string)
    : M (string * list price_row) :=
  listing <- execute (listing_by_mls mls_number) ;;
  match listing with
  | None =>
      raise (HTTPException 404
               ("Listing with MLS number " ++ mls_number ++ " not found"))
  | Some row =>
      prices <- execute (ListingService.history_desc (l_id row)) ;;
      ret (mls_number, prices)
  end.

End ListingsRoutes.

(** ** The list queries of the two services *)

(** Truth value of an optional [int]: [None] and zero are falsy. *)
Definition truthy_int (n : option Z) : bool :=
  match n with
  | Some v => negb (v =? 0)
  | None => false
  end.

(** [LIMIT ? OFFSET ?] as SQLite reads them: a negative limit is no limit,
    a negative offset is no offset. *)
Definition limit_offset (T : Type) (limit offset : Z) (rows : list T)
    : list T :=
  let rest := skipn (Z.to_nat offset) rows in
  if limit <? 0 then rest else firstn (Z.to_nat limit) rest.

(** [ORDER BY]: [before r x] says that [r] sorts strictly before [x].  SQL
    leaves the order of rows that compare equal open; as for
    [history_desc] the model keeps them in the order of insertion, and
    nothing proved below rests on that. *)
Definition insert_sorted (T : Type) (before : T -> T -> bool) (r : T)
    : list T -> list T :=
  fix ins (rows : list T) : list T :=
    match rows with
    | [] => [r]
    | x :: rest => if before r x then r :: x :: rest else x :: ins rest
    end.

Definition order_by (T : Type) (before : T -> T -> bool) (rows : list T)
    : list T :=
  fold_left (fun acc r => insert_sorted before r acc) rows [].

(** Comparison of two column values where NULL sorts before every value,
    as in SQLite. *)
Definition null_first (T : Type) (lt : T -> T -> bool) (a b : option T)
    : bool :=
  match a, b with
  | None, Some _ => true
  | Some x, Some y => lt x y
  | _, None => false
  end.

(** The name of the building a row is joined with
    ([LEFT JOIN building b ON ... = b.id]). *)
Definition building_name_of (id : option Z) (s : Store) : option string :=
  match id with
  | Some b => option_map b_name (find (fun r => b_id r =? b) (buildings s))
  | None => None
  end.

Definition building_neighborhood_of (id : option Z) (s : Store) : option Z :=
  match id with
  | Some b =>
      match find (fun r => b_id r =? b) (buildings s) with
      | Some r => b_neighborhood_id r
      | None => None
      end
  | None => None
  end.

(** [column = ?] on a column that may be NULL. *)
Definition eq_column (T : Type) (eqb : T -> T -> bool) (column : option T)
    (v : T) : bool :=
  match column with
  | Some c => eqb c v
  | None => false
  end.

(** A row of [list_sales].  [price_per_sqft], a float SQLite computes with
    [ROUND], is left out. *)
Record sale_item : Type := mk_sale_item {
  si_id : Z;
  si_building_name : option string;
  si_unit_number : option string;
  si_sale_price : Q;
  si_sale_date : string;
  si_bedrooms : option Z;
  si_bathrooms : option pyfloat;
  si_square_feet : option Z;
  si_days_on_market : option Z
}.

Record sales_page : Type := mk_sales_page {
  sp_total : Z;
  sp_offset : Z;
  sp_limit : Z;
  sp_sales : list sale_item
}.

(** The WHERE clause [list_sales] builds.  Dates are compared as text. *)
Definition sale_matches (building_id : option Z)
    (start_date end_date : option string) (r : sale_row) : bool :=
  (match building_id with
   | Some b =>
       if truthy_int building_id then hs_building_id (hs_fields r) =? b
       else true
   | None => true
   end)
  && (match start_date with
      | Some d =>
          if truthy start_date
          then String.leb d (hs_sale_date (hs_fields r))
          else true
      | None => true
      end)
  && (match end_date with
      | Some d =>
          if truthy end_date
          then String.leb (hs_sale_date (hs_fields r)) d
          else true
      | None => true
      end).

Definition sale_item_of (s : Store) (r : sale_row) : sale_item :=
  let f := hs_fields r in
  mk_sale_item (hs_id r) (building_name_of (Some (hs_building_id f)) s)
    (hs_unit_number f) (hs_sale_price f) (hs_sale_date f) (hs_bedrooms f)
    (hs_bathrooms f) (hs_square_feet f) (hs_days_on_market f).

(** [SELECT ... WHERE ... ORDER BY hs.sale_date DESC LIMIT ? OFFSET ?]. *)
Definition sales_rows (building_id : option Z)
    (start_date end_date : option string) (limit offset : Z) (s : Store)
    : list sale_item :=
  limit_offset limit offset
    (map (sale_item_of s)
       (order_by
          (fun r x =>
             String.ltb (hs_sale_date (hs_fields x))
               (hs_sale_date (hs_fields r)))
          (filter (sale_matches building_id start_date end_date)
             (historical_sales s)))).

(** A row of [list_listings].  [photo_thumbnail] is read from the table of
    photo rows, which is not among the tables modelled, and is left out. *)
Record listing_item : Type := mk_listing_item {
  li_mls_number : option string;
  li_building_name : option string;
  li_unit_number : option string;
  li_bedrooms : option Z;
  li_bathrooms : option Q;
  li_square_feet : option Z;
  li_status : string;
  li_days_on_market : option Z;
  li_source_url : option string;
  li_current_price : option Q;
  li_price_per_sqft : option Q
}.

Record listings_page : Type := mk_listings_page {
  lp_total : Z;
  lp_offset : Z;
  lp_limit : Z;
  lp_listings : list listing_item
}.

(** The WHERE clause [list_listings] builds.  [min_price] and [max_price]
    are parameters of the function; no clause is built from them. *)
Definition listing_matches (status : option string)
    (building_id neighborhood_id bedrooms : option Z)
    (property_type : option string) (s : Store) (l : listing_row) : bool :=
  let f := l_fields l in
  (match status with
   | Some v => if truthy status then (l_status f =? v)%string else l_is_active l
   | None => l_is_active l
   end)
  && (match building_id with
      | Some b =>
          if truthy_int building_id then eq_column Z.eqb (l_building_id f) b
          else true
      | None => true
      end)
  && (match neighborhood_id with
      | Some n =>
          if truthy_int neighborhood_id
          then eq_column Z.eqb (building_neighborhood_of (l_building_id f) s) n
          else true
      | None => true
      end)
  && (match bedrooms with
      | Some n => eq_column Z.eqb (l_bedrooms f) n
      | None => true
      end)
  && (match property_type with
      | Some t =>
          if truthy property_type
          then eq_column String.eqb (l_property_type f) t
          else true
      | None => true
      end).

(** [sort_options.get(sort, "l.listing_date DESC")], as the comparison the
    ORDER BY makes. *)
Definition sort_before (sort : string) (s : Store) (r x : listing_row) : bool :=
  if (sort =? "price_asc")%string then
    null_first Qltb (latest_price (l_id r) s) (latest_price (l_id x) s)
  else if (sort =? "price_desc")%string then
    null_first Qltb (latest_price (l_id x) s) (latest_price (l_id r) s)
  else if (sort =? "days_on_market")%string then
    null_first Z.ltb (l_days_on_market (l_fields r))
      (l_days_on_market (l_fields x))
  else
    null_first Z.ltb (l_listing_date (l_fields x))
      (l_listing_date (l_fields r)).

(** The columns the query selects for a listing; the current price is the
    subquery on the ledger. *)
Definition listing_item_of (s : Store) (l : listing_row) : listing_item :=
  let f := l_fields l in
  mk_listing_item (l_mls_number l) (building_name_of (l_building_id f) s)
    (l_unit_number f) (l_bedrooms f) (l_bathrooms f) (l_square_feet f)
    (l_status f) (l_days_on_market f) (l_source_url f)
    (latest_price (l_id l) s) None.

(** The loop after the query: [price_per_sqft] for a row with a price and
    an area that are both truthy, [None] otherwise.  [round2] stands for
    [round(x, 2)] on a [Decimal]. *)
Definition with_price_per_sqft (round2 : Q -> Q) (item : listing_item)
    : listing_item :=
  mk_listing_item (li_mls_number item) (li_building_name item)
    (li_unit_number item) (li_bedrooms item) (li_bathrooms item)
    (li_square_feet item) (li_status item) (li_days_on_market item)
    (li_source_url item) (li_current_price item)
    (match li_current_price item, li_square_feet item with
     | Some cp, Some sqft =>
         if truthy_decimal (li_current_price item)
            && truthy_int (li_square_feet item)
         then Some (round2 (cp / inject_Z sqft)%Q)
         else None
     | _, _ => None
     end).

(** [SELECT ... WHERE ... ORDER BY ... LIMIT ? OFFSET ?] of [list_listings]. *)
Definition listing_rows (status : option string)
    (building_id neighborhood_id bedrooms : option Z)
    (property_type : option string) (sort : string) (limit offset : Z)
    (s : Store) : list listing_item :=
  limit_offset limit offset
    (map (listing_item_of s)
       (order_by (sort_before sort s)
          (filter
             (listing_matches status building_id neighborhood_id bedrooms
                property_type s)
             (listings s)))).

Module ListQueries.

Import Database.

(** [HistoricalSaleService.list_sales]: the count, then the page. *)
Definition list_sales (building_id : option Z)
    (start_date end_date : option string) (limit offset : Z) : M sales_page :=
  total <-
    execute
      (fun s =>
         Z.of_nat
           (length (filter (sale_matches building_id start_date end_date)
                      (historical_sales s)))) ;;
  sales <-
    execute (sales_rows building_id start_date end_date limit offset) ;;
  ret (mk_sales_page total offset limit sales).

(** [ListingService.list_listings]: the count, the page, and the loop
    that adds [price_per_sqft]. *)
Definition list_listings (round2 : Q -> Q) (status : option string)
    (building_id neighborhood_id : option Z) (min_price max_price : option Q)
    (bedrooms : option Z) (property_type : option string) (sort : string)
    (limit offset : Z) : M listings_page :=
  total <-
    execute
      (fun s =>
         Z.of_nat
           (length
              (filter
                 (listing_matches status building_id neighborhood_id bedrooms
                    property_type s)
                 (listings s)))) ;;
  listings <-
    execute
      (listing_rows status building_id neighborhood_id bedrooms property_type
         sort limit offset) ;;
  ret (mk_listings_page total offset limit
         (map (with_price_per_sqft round2) listings)).

End ListQueries.

(** ** Notions used in the statements *)

(** [x is None]. *)
Definition is_none (A : Type) (o : option A) : bool :=
  match o with
  | Some _ => false
  | None => true
  end.

(** A decimal of at most 15 significant digits: [m / 10^k] with
    [|m| < 10^15].  The wrapper binds a [Decimal] parameter as [float(p)]
    ([_convert_params]), SQLite compares and stores that float, and the
    services read a price back as [Decimal(str(x))].  A binary64 float
    keeps 15 significant decimal digits: such a price is read back as it
    was given, and its float equals a stored float exactly when the
    decimals read back are equal.  On these prices the exact rationals of
    the model are the prices of the code; a price of more digits can be
    read back changed, and what is proved of the prices a call brings is
    stated for short decimals. *)
Definition short_decimal (p : Q) : Prop :=
  exists m k : Z,
    Z.abs m < 10 ^ 15 /\ 0 <= k <= 22
    /\ (p == inject_Z m / inject_Z (10 ^ k))%Q.

(** The date a price point is recorded under: the one given, else today. *)
Definition date_or_today (clock : Clock) (price_date : option Z) : Z :=
  match price_date with
  | Some d => d
  | None => today clock
  end.

(** The event type [_record_price] stores, as its branch on the hint and on
    the most recent price computes it. *)
Definition event_kind (hint : string) (price : Q) (prev : option Q) : string :=
  if (hint =? "Price Change")%string then
    match prev with
    | Some prev_price =>
        if Qltb price prev_price then "Price Drop"
        else if Qltb prev_price price then "Price Increase"
        else hint
    | None => hint
    end
  else hint.

(** The lookup by name that the resolver makes only for a truthy name. *)
Definition lookup_name (name : option string) (s : Store) : option Z :=
  match name with
  | Some n => if truthy name then building_by_name n s else None
  | None => None
  end.

(** The lookup by address, made only for a truthy address. *)
Definition lookup_address (address : option string) (s : Store) : option Z :=
  match address with
  | Some a => if truthy address then building_by_address a s else None
  | None => None
  end.

(** The lookup of the neighbourhood, made only for a truthy name. *)
Definition lookup_neighborhood (neighborhood : option string) (s : Store)
    : option Z :=
  match neighborhood with
  | Some n => if truthy neighborhood then neighborhood_by_name n s else None
  | None => None
  end.

(** The INSERT the resolver issues when both lookups miss. *)
Definition new_building (name address neighborhood : option string) (s : Store)
    : statement :=
  INSERT_building
    (or_else name (or_else address (or_else name "Unknown")))
    (or_else address (or_else name "Unknown"))
    (lookup_neighborhood neighborhood s) "Victoria".

(** The test the update path makes before recording a price: a truthy
    price that is not the most recent one, or any truthy price when the
    listing has no entry. *)
Definition price_changed (price current : option Q) : bool :=
  match price with
  | Some p =>
      truthy_decimal price
      && match current with
         | None => true
         | Some c => negb (Qeq_bool c p)
         end
  | None => false
  end.

(** The tables after the price step of the update path. *)
Definition after_price (clock : Clock) (lid : Z) (price : option Q)
    (s : Store) : Store :=
  match price with
  | Some p =>
      if price_changed price (latest_price lid s) then
        match price_point lid (today clock) p s with
        | Some _ => s
        | None =>
            fst (run_statement
                   (INSERT_price_history lid p (today clock)
                      (event_kind "Price Change" p (latest_price lid s))) s)
        end
      else s
  | None => s
  end.


(** The columns [create_sale] inserts for a dict and a resolved building. *)
Definition sale_columns (data : sale_data) (building_id : Z) : sale_fields :=
  mk_sale_fields building_id (sd_unit_number data) (sd_sale_price data)
    (sd_sale_date data) (sd_bedrooms data) (sd_bathrooms data)
    (sd_square_feet data) (sd_property_type data) (sd_days_on_market data)
    (sd_notes data) (get_default (sd_data_source data) "Manual Entry").

(** The header test of [import_csv]: a first row, not empty, naming every
    required column. *)
Definition header_ok (reader : csv_reader) : bool :=
  match csv_rows reader with
  | [] => false
  | fieldnames :: _ =>
      negb (HistoricalSaleService.is_empty_row fieldnames)
      && forallb (fun c => mem c fieldnames) HistoricalSaleService.required
  end.

(** The rows [csv.DictReader] hands to the loop: the records after the
    header, empty ones skipped, zipped with the field names. *)
Definition data_rows (reader : csv_reader) : list dict_row :=
  match csv_rows reader with
  | [] => []
  | fieldnames :: records =>
      map (make_row fieldnames)
        (filter (fun r => negb (HistoricalSaleService.is_empty_row r)) records)
  end.

(** The error messages of rows numbered from [n]; [None] is an imported row. *)
Fixpoint row_messages (n : nat) (outcomes : list (option string))
    : list string :=
  match outcomes with
  | [] => []
  | None :: rest => row_messages (S n) rest
  | Some msg :: rest =>
      ("Row " ++ str_of_nat n ++ ": " ++ msg) :: row_messages (S n) rest
  end.

(** The rows imported and the rows skipped among some outcomes. *)
Definition imported_count (outcomes : list (option string)) : nat :=
  length (filter (fun o => is_none o) outcomes).

Definition skipped_count (outcomes : list (option string)) : nat :=
  length (filter (fun o => negb (is_none o)) outcomes).

(** The characters of a string. *)
Fixpoint chars (s : string) : list ascii :=
  match s with
  | EmptyString => []
  | String c rest => c :: chars rest
  end.

(** A string written in ASCII: every byte is below 128.  On such a string
    [strip] and [isalnum], and with them [parse_row], [safe_char] and
    [_get_listing_dir], are what Python computes; beyond ASCII Python also
    strips the white space and keeps the letters and digits of Unicode. *)
Definition is_ascii (c : ascii) : bool := (nat_of_ascii c <? 128)%nat.

Definition ascii_only (s : string) : Prop :=
  Forall (fun c => is_ascii c = true) (chars s).

(** A batch every cell of which is written in ASCII. *)
Definition ascii_batch (reader : csv_reader) : Prop :=
  Forall (Forall ascii_only) (csv_rows reader).

(** What becomes of one row, as the specification words it, with the world
    it leaves: a row the parser gives up, or on which parsing raises, is an
    error with that message and stores nothing; a row that parses is handed
    to [create_sale], and is imported ([None]) when that returns and an
    error with the message of the exception when it raises. *)
Definition row_fate {lib : PyLib} (row : dict_row) (w : World)
    : option string * World :=
  match HistoricalSaleService.parse_row row with
  | Ok (HistoricalSaleService.Skip msg) => (Some msg, w)
  | Raise e => (Some (str_of_exn e), w)
  | Ok (HistoricalSaleService.Sale data) =>
      match HistoricalSaleService.create_sale data w with
      | (Ok _, w1) => (None, w1)
      | (Raise e, w1) => (Some (str_of_exn e), w1)
      end
  end.

(** The rows of a batch one after the other, each in the world the rows
    before it left. *)
Fixpoint batch_fate {lib : PyLib} (rows : list dict_row) (w : World)
    : list (option string) * World :=
  match rows with
  | [] => ([], w)
  | row :: rest =>
      let (o, w1) := row_fate row w in
      let (outcomes, w') := batch_fate rest w1 in
      (o :: outcomes, w')
  end.

(** What becomes of a row none of whose statements fails: imported when it
    parses, the error of the parser otherwise. *)
Definition parse_outcome {lib : PyLib} (row : dict_row) : option string :=
  match HistoricalSaleService.parse_row row with
  | Ok (HistoricalSaleService.Skip msg) => Some msg
  | Raise e => Some (str_of_exn e)
  | Ok (HistoricalSaleService.Sale _) => None
  end.

(** The rows the parsing part of the loop turns into a sale. *)
Definition parses {lib : PyLib} (row : dict_row) : bool :=
  match HistoricalSaleService.parse_row row with
  | Ok (HistoricalSaleService.Sale _) => true
  | _ => false
  end.

(** The number of rows a batch imports when no statement raises. *)
Definition importable {lib : PyLib} (reader : csv_reader) : nat :=
  if header_ok reader then length (filter parses (data_rows reader)) else 0%nat.

(** The message [import_csv] ends with when the reader raised. *)
Definition reader_message (reader : csv_reader) : list string :=
  match csv_error reader with
  | Some msg => ["CSV parsing error: " ++ msg]
  | None => []
  end.

(** The number of entries directly inside the directories of a root. *)
Fixpoint dir_entries (entries : list entry) : nat :=
  match entries with
  | [] => 0%nat
  | Dir _ content :: rest => (length content + dir_entries rest)%nat
  | File _ :: rest => dir_entries rest
  end.

(** The entries of a root that are not directories. *)
Definition files_only (entries : list entry) : list entry :=
  filter (fun e => negb (is_dir e)) entries.

(** A world in which no coming statement raises. *)
Definition calm (s : Store) (j : list statement) : World := mk_world s [] j.

(** The same world with no failure scheduled. *)
Definition clear (w : World) : World := mk_world (store w) [] (journal w).

(** A statement a call executes: a query, or a write. *)
Inductive step : Type :=
| Query
| Write (st : statement).

(** The writes among some statements, in order. *)
Definition writes (steps : list step) : list statement :=
  flat_map (fun x => match x with
                     | Query => []
                     | Write st => [st]
                     end) steps.

(** The world [w] under another schedule. *)
Definition scheduled (fs : list bool) (w : World) : World :=
  mk_world (store w) fs (journal w).

(** A schedule that makes none of the next [n] statements fail. *)
Definition spares (n : nat) (fs : list bool) : Prop :=
  Forall (fun b => b = false) (firstn n fs).

(** The schedule that lets [k] statements pass and makes the next one
    fail. *)
Definition fails_at (k : nat) (rest : list bool) : list bool :=
  (repeat false k ++ true :: rest)%list.

(** [m], started in [w], executes the statements [steps] in this order and
    commits statement by statement.  Under a schedule that spares them it
    returns what it returns without failures, having committed all their
    writes.  Under a schedule that lets [k] of them pass and makes the next
    fail, it raises the database error at that statement: the writes among
    the first [k] statements are committed, those only, and nothing is
    executed after the failure. *)
Definition executes {A : Type} (m : M A) (w : World) (steps : list step)
    : Prop :=
  (forall fs, spares (length steps) fs ->
     m (scheduled fs w)
     = (fst (m (clear w)),
        mk_world (replay (writes steps) (store w))
          (skipn (length steps) fs) (journal w ++ writes steps)%list))
  /\ (forall k rest, (k < length steps)%nat ->
        m (scheduled (fails_at k rest) w)
        = (Raise (DatabaseError "database error"),
           mk_world (replay (writes (firstn k steps)) (store w)) rest
             (journal w ++ writes (firstn k steps))%list)).

(** A computation that commits statement by statement wherever it starts. *)
Definition stepwise {A : Type} (m : M A) : Prop :=
  forall w, exists steps, executes m w steps.

(** A computation that leaves the table of historical sales alone. *)
Definition keeps_sales {A : Type} (m : M A) : Prop :=
  forall w, historical_sales (store (snd (m w))) = historical_sales (store w).

(** A record with an MLS number, a building name and a price, nothing else. *)
Definition sighting (mls building : string) (listing_date : option Z)
    (price : Q) : listing_data :=
  mk_listing_data (Some mls) (Some building) None None None None None None
    None None listing_date None None None None None None (Some price).

(** The clock of the worked instances: day 10. *)
Definition example_clock : Clock := mk_clock 10 1000.

(** The tables after R1 was first seen on day 10 at 500000 in "Tower". *)
Definition example_store : Store :=
  snd (run (ListingService.create_or_update_listing example_clock
              (sighting "R1" "Tower" None (500000 # 1)))
         empty_store).

(** The listing row of R1 in [example_store]. *)
Definition example_row : listing_row :=
  mk_listing 1 (Some "R1")
    (mk_listing_fields (Some 1) None "Active" None None None None None None
       None None None None "Manual")
    true 1000 1000 1000 1000.

(** A batch of three rows, the second with a price that does not parse. *)
Definition example_reader : csv_reader :=
  mk_csv_reader
    [["building_name"; "sale_price"; "sale_date"];
     ["The Janion"; "450,000"; "2024-06-15"];
     ["The Mondrian"; "abc"; "2024-08-20"];
     ["Third"; "$520000"; "2024-08-20"]]
    None.

(** ** Notions used in the further properties *)

(** [new] holds the rows of [old], in place, and possibly more after them. *)
Definition extends (T : Type) (old new : list T) : Prop :=
  exists more, new = (old ++ more)%list.

(** What identifies a listing and is fixed when it is first seen. *)
Definition listing_identity (r : listing_row) : Z * option string * Z * Z :=
  (l_id r, l_mls_number r, l_first_seen_at r, l_created_at r).

(** Tables in which nothing was removed or rewritten: buildings, price
    points, events and sales are the old rows followed by new ones, the
    neighbourhoods are the same, and the listings are the old ones, each
    with its identity, followed by new ones. *)
Definition only_grows (s s' : Store) : Prop :=
  extends (buildings s) (buildings s')
  /\ neighborhoods s' = neighborhoods s
  /\ extends (map listing_identity (listings s))
       (map listing_identity (listings s'))
  /\ extends (price_history s) (price_history s')
  /\ extends (tracking_events s) (tracking_events s')
  /\ extends (historical_sales s) (historical_sales s').

(** [R] relates the tables before and after every run of [m], whichever
    statements fail. *)
Definition within (A : Type) (R : Store -> Store -> Prop) (m : M A) : Prop :=
  forall w, R (store w) (store (snd (m w))).

(** From tables satisfying [P] every run of [m], whichever statements fail,
    ends with a result and tables satisfying [Q]. *)
Definition triple (A : Type) (P : Store -> Prop) (m : M A)
    (Q : result A -> Store -> Prop) : Prop :=
  forall w, P (store w) -> Q (fst (m w)) (store (snd (m w))).

(** [m] keeps the invariant [I], however it ends. *)
Definition keeps (A : Type) (I : Store -> Prop) (m : M A) : Prop :=
  triple I m (fun _ s => I s).

(** No two rows of the ledger agree on listing, date and price. *)
Definition distinct_points (rows : list price_row) : Prop :=
  ForallOrdPairs
    (fun a b =>
       same_point (ph_listing_id a) (ph_recorded_date a) (ph_price a) b = false)
    rows.

(** No two listings share an MLS number. *)
Definition unique_mls (s : Store) : Prop := NoDup (live_mls_numbers s).

(** The listings other than the one with the given id. *)
Definition other_listings (id : Z) (s : Store) : list listing_row :=
  filter (fun r => negb (l_id r =? id)) (listings s).

(** Tables in which, of the listings, only the one with the given id may
    differ in its columns: no listing added or removed, the buildings,
    neighbourhoods and sales as they were, the ledger and the event log
    with their old rows first. *)
Definition touches_only (id : Z) (s s' : Store) : Prop :=
  other_listings id s' = other_listings id s
  /\ map listing_identity (listings s') = map listing_identity (listings s)
  /\ buildings s' = buildings s
  /\ neighborhoods s' = neighborhoods s
  /\ historical_sales s' = historical_sales s
  /\ extends (price_history s) (price_history s')
  /\ extends (tracking_events s) (tracking_events s').

(** The tables after the price step of the creation path. *)
Definition after_initial (clock : Clock) (lid : Z) (price : option Q)
    (listing_date : option Z) (s : Store) : Store :=
  match price with
  | Some p =>
      if truthy_decimal price then
        match price_point lid (date_or_today clock listing_date) p s with
        | Some _ => s
        | None =>
            fst (run_statement
                   (INSERT_price_history lid p
                      (date_or_today clock listing_date) "Initial") s)
        end
      else s
  | None => s
  end.

(** The outcome of a call that returns an id, read as one that returns an
    optional id. *)
Definition as_optional (p : result Z * World) : result (option Z) * World :=
  (match fst p with
   | Ok id => Ok (Some id)
   | Raise e => Raise e
   end,
   snd p).

(** Newest first: no row is dated before one that comes after it. *)
Definition newest_first (rows : list price_row) : Prop :=
  Sorted.StronglySorted
    (fun a b => ph_recorded_date b <= ph_recorded_date a) rows.


(** What the orphan sweep keeps under a root: plain files, and the
    directories whose name is live. *)
Definition survives (live : list string) (e : entry) : bool :=
  negb (is_dir e) || mem (entry_name e) live.

(** The tables with one more listing, under the given MLS number. *)
Definition with_listing (mls : string) (s : Store) : Store :=
  fst (run_statement
         (INSERT_listing mls
            (mk_listing_fields None None "Active" None None None None None
               None None None None None "Manual") 0) s).

(** The plain library extended with the special floats Python reads:
    "inf", "-inf" and "nan". *)
Definition special_floats : PyLib :=
  mk_pylib PlainLibrary.decimal
    (fun s =>
       if (s =? "inf")%string then Some (Infinite false)
       else if (s =? "-inf")%string then Some (Infinite true)
       else if (s =? "nan")%string then Some NaN
       else option_map Finite (PlainLibrary.decimal s))
    PlainLibrary.iso_date PlainLibrary.print_iso.

(** [x] truncated toward zero is [n]. *)
Definition truncates_to (q : Q) (n : Z) : Prop :=
  (0 <= q -> inject_Z n <= q < inject_Z (n + 1))%Q
  /\ (q <= 0 -> inject_Z (n - 1) < q <= inject_Z n)%Q.

(** Tables in which only buildings and sales were added: the listings, the
    ledger, the event log and the neighbourhoods are as they were. *)
Definition adds_sales_only (s s' : Store) : Prop :=
  listings s' = listings s
  /\ price_history s' = price_history s
  /\ tracking_events s' = tracking_events s
  /\ neighborhoods s' = neighborhoods s
  /\ extends (buildings s) (buildings s')
  /\ extends (historical_sales s) (historical_sales s').

(** A building reference that points to a row, or is null. *)
Definition building_known (s : Store) (b : option Z) : Prop :=
  match b with
  | Some id => In id (map b_id (buildings s))
  | None => True
  end.

Definition listing_known (s : Store) (id : Z) : Prop :=
  In id (map l_id (listings s)).

(** Referential integrity: every listing and every sale refers to a
    building there is, every price point and every event to a listing
    there is. *)
Definition references_hold (s : Store) : Prop :=
  Forall (fun l => building_known s (l_building_id (l_fields l))) (listings s)
  /\ Forall (fun r => building_known s (Some (hs_building_id (hs_fields r))))
       (historical_sales s)
  /\ Forall (fun p => listing_known s (ph_listing_id p)) (price_history s)
  /\ Forall (fun e => listing_known s (te_listing_id e)) (tracking_events s).

(** The rows a statement refers to are there. *)
Definition statement_refers (st : statement) (s : Store) : Prop :=
  match st with
  | INSERT_building _ _ _ _ => True
  | INSERT_listing _ f _ => building_known s (l_building_id f)
  | UPDATE_listing f _ _ => building_known s (l_building_id f)
  | UPDATE_listing_status _ _ _ _ => True
  | INSERT_price_history lid _ _ _ => listing_known s lid
  | INSERT_tracking_event lid _ _ => listing_known s lid
  | INSERT_historical_sale f => building_known s (Some (hs_building_id f))
  end.

(** The invariant carried through the statements that follow a lookup:
    the references hold, and so do the two the call is about to use. *)
Definition references_with (lid : option Z) (bid : option Z) (s : Store)
    : Prop :=
  references_hold s
  /\ match lid with
     | Some id => listing_known s id
     | None => True
     end
  /\ building_known s bid.

(** * Proofs *)

Unset Implicit Arguments.

(** ** Runs in which no statement raises *)

Section Calm.

Import Database.

Variables (A B : Type).

Lemma bind_ret (a : A) (k : A -> M B) (w : World) :
  bind (ret a) k w = k a w.
Proof. reflexivity. Qed.

Lemma bind_execute (q : Store -> A) (k : A -> M B) (s : Store)
    (j : list statement) :
  bind (execute q) k (calm s j) = k (q s) (calm s j).
Proof. reflexivity. Qed.

Lemma bind_insert (st : statement) (k : Z -> M B) (s : Store)
    (j : list statement) :
  bind (execute_insert st) k (calm s j)
  = k (snd (run_statement st s)) (calm (fst (run_statement st s)) (j ++ [st])).
Proof. reflexivity. Qed.

Lemma bind_update (st : statement) (k : Z -> M B) (s : Store)
    (j : list statement) :
  bind (execute_update st) k (calm s j)
  = k (snd (run_statement st s)) (calm (fst (run_statement st s)) (j ++ [st])).
Proof. apply bind_insert. Qed.

End Calm.

Lemma insert_calm (st : statement) (s : Store) (j : list statement) :
  Database.execute_insert st (calm s j)
  = (Ok (snd (run_statement st s)), calm (fst (run_statement st s)) (j ++ [st])).
Proof. reflexivity. Qed.

Lemma record_price_calm (clock : Clock) (lid : Z) (price : Q)
    (price_date : option Z) (hint : string) (s : Store) (j : list statement) :
  ListingService._record_price clock lid price price_date hint (calm s j)
  = match price_point lid (date_or_today clock price_date) price s with
    | Some id => (Ok id, calm s j)
    | None =>
        let st :=
          INSERT_price_history lid price (date_or_today clock price_date)
            (event_kind hint price (latest_price lid s)) in
        (Ok (snd (run_statement st s)),
         calm (fst (run_statement st s)) (j ++ [st]))
    end.
Proof.
  unfold ListingService._record_price.
  fold (date_or_today clock price_date).
  rewrite bind_execute.
  destruct (price_point lid (date_or_today clock price_date) price s) as [id|].
  - reflexivity.
  - unfold event_kind.
    destruct (hint =? "Price Change")%string.
    + rewrite <- insert_calm.
      unfold bind at 1. rewrite bind_execute.
      destruct (latest_price lid s) as [pp|]; [|reflexivity].
      destruct (Qltb price pp); [reflexivity|].
      destruct (Qltb pp price); reflexivity.
    + rewrite bind_ret. apply insert_calm.
Qed.

(** ** The price ledger *)

Lemma find_none_filter (T : Type) (f : T -> bool) (l : list T) :
  find f l = None -> filter f l = [].
Proof.
  induction l as [|x l IH]; simpl; [reflexivity|].
  destruct (f x); [discriminate | exact IH].
Qed.

Lemma find_some_filter (T : Type) (f : T -> bool) (l : list T) (x : T) :
  find f l = Some x -> (1 <= length (filter f l))%nat.
Proof.
  induction l as [|y l IH]; simpl; [discriminate|].
  destruct (f y); simpl; intros H; [lia | auto].
Qed.

Lemma find_app_new (T : Type) (f : T -> bool) (l : list T) (x : T) :
  find f l = None -> f x = true -> find f (l ++ [x]) = Some x.
Proof.
  induction l as [|y l IH]; simpl; intros Hn Hx.
  - rewrite Hx; reflexivity.
  - destruct (f y); [discriminate | auto].
Qed.

Lemma Qeq_bool_refl (q : Q) : Qeq_bool q q = true.
Proof. apply Qeq_bool_iff. reflexivity. Qed.

Lemma same_point_new (id lid d : Z) (price : Q) (kind : string) :
  same_point lid d price (mk_price id lid price d kind) = true.
Proof.
  unfold same_point; simpl. rewrite !Z.eqb_refl, Qeq_bool_refl. reflexivity.
Qed.

Lemma price_point_some (lid d : Z) (price : Q) (s : Store) (id : Z) :
  price_point lid d price s = Some id ->
  exists r, find (same_point lid d price) (price_history s) = Some r
            /\ ph_id r = id.
Proof.
  unfold price_point.
  destruct (find (same_point lid d price) (price_history s)) as [r|];
    simpl; [|discriminate].
  intros H; injection H as <-. exists r; auto.
Qed.

Lemma price_point_none (lid d : Z) (price : Q) (s : Store) :
  price_point lid d price s = None ->
  find (same_point lid d price) (price_history s) = None.
Proof.
  unfold price_point.
  destruct (find (same_point lid d price) (price_history s)); simpl;
    [discriminate | reflexivity].
Qed.

(** A call whose point is already in the ledger returns the id of the
    first such row and leaves the tables as they are. *)
Lemma record_price_existing (clock : Clock) (lid : Z) (price : Q)
    (price_date : option Z) (hint : string) (s : Store) (id : Z) :
  price_point lid (date_or_today clock price_date) price s = Some id ->
  run (ListingService._record_price clock lid price price_date hint) s
  = (Ok id, s).
Proof.
  intros H. unfold run. fold (calm s []).
  rewrite record_price_calm, H. reflexivity.
Qed.

(** A call whose point is not in the ledger appends one row. *)
Lemma record_price_fresh (clock : Clock) (lid : Z) (price : Q)
    (price_date : option Z) (hint : string) (s : Store) :
  price_point lid (date_or_today clock price_date) price s = None ->
  run (ListingService._record_price clock lid price price_date hint) s
  = (Ok (next_rowid (map ph_id (price_history s))),
     set_price_history s
       (price_history s ++
        [mk_price (next_rowid (map ph_id (price_history s))) lid price
           (date_or_today clock price_date)
           (event_kind hint price (latest_price lid s))])).
Proof.
  intros H. unfold run. fold (calm s []).
  rewrite record_price_calm, H. reflexivity.
Qed.

(** C2. Recording a price is idempotent on (listing, date, price): whatever
    the tables, a call followed by a second call with the same listing, date
    and price (and any hint) gives the same row id both times, the second
    call changes nothing, the id is that of a stored row with that listing,
    date and price, and the number of such rows is one if there was none
    before the first call and what it was otherwise.  A call made when such
    a row exists returns the id of the first one and inserts nothing. *)
Theorem record_price_idempotent (clock : Clock) (lid : Z) (price : Q)
    (price_date : option Z) (hint hint' : string) (s : Store) :
  let d := date_or_today clock price_date in
  let first := run (ListingService._record_price clock lid price price_date hint) s in
  let second :=
    run (ListingService._record_price clock lid price price_date hint')
      (snd first) in
  (exists id,
     fst first = Ok id /\ second = (Ok id, snd first)
     /\ (exists r, In r (price_history (snd first)) /\ ph_id r = id
                   /\ same_point lid d price r = true))
  /\ length (filter (same_point lid d price) (price_history (snd second)))
     = Nat.max 1 (length (filter (same_point lid d price) (price_history s)))
  /\ (forall id, price_point lid d price s = Some id -> first = (Ok id, s)).
Proof.
  intros d first second.
  destruct (price_point lid d price s) as [id|] eqn:Hp.
  - assert (Hf : first = (Ok id, s))
      by (apply record_price_existing; exact Hp).
    assert (Hs : second = (Ok id, s)).
    { unfold second. rewrite Hf. simpl. apply record_price_existing; exact Hp. }
    destruct (price_point_some _ _ _ _ _ Hp) as [r [Hr Hid]].
    split; [|split].
    + exists id. rewrite Hs, Hf. simpl. repeat split.
      exists r. split; [|split; [exact Hid|]].
      * apply (find_some _ _ Hr).
      * apply (find_some _ _ Hr).
    + rewrite Hs. unfold snd. pose proof (find_some_filter _ _ _ _ Hr). lia.
    + intros id' H; injection H as <-. exact Hf.
  - pose proof (record_price_fresh clock lid price price_date hint s Hp) as Hf.
    fold d in Hf. fold first in Hf.
    set (id := next_rowid (map ph_id (price_history s))) in *.
    set (row := mk_price id lid price d
                  (event_kind hint price (latest_price lid s))) in *.
    assert (Hfind : find (same_point lid d price)
                      (price_history (snd first)) = Some row).
    { rewrite Hf. simpl. apply find_app_new.
      - apply price_point_none; exact Hp.
      - apply same_point_new. }
    assert (Hp' : price_point lid d price (snd first) = Some id).
    { unfold price_point. rewrite Hfind. reflexivity. }
    assert (Hs : second = (Ok id, snd first))
      by (apply record_price_existing; exact Hp').
    split; [|split].
    + exists id. rewrite Hs. rewrite Hf at 1. simpl. repeat split.
      exists row. split; [|split; [reflexivity | apply same_point_new]].
      apply (find_some _ _ Hfind).
    + rewrite Hs, Hf. unfold snd, set_price_history, price_history at 1.
      rewrite filter_app.
      rewrite (find_none_filter _ _ _ (price_point_none _ _ _ _ Hp)).
      simpl. unfold row. rewrite same_point_new. reflexivity.
    + intros id' H; discriminate.
Qed.

Lemma Qltb_lt (a b : Q) : Qltb a b = true <-> (a < b)%Q.
Proof.
  unfold Qltb. rewrite Qlt_alt.
  destruct (a ?= b)%Q; split; intros H; try reflexivity; discriminate.
Qed.

Lemma event_kind_drop (price prev : Q) :
  (price < prev)%Q -> event_kind "Price Change" price (Some prev) = "Price Drop".
Proof.
  intros H. unfold event_kind. simpl.
  apply Qltb_lt in H. rewrite H. reflexivity.
Qed.

Lemma event_kind_increase (price prev : Q) :
  (prev < price)%Q ->
  event_kind "Price Change" price (Some prev) = "Price Increase".
Proof.
  intros H. unfold event_kind. simpl.
  assert (Hn : Qltb price prev = false).
  { destruct (Qltb price prev) eqn:E; [|reflexivity].
    apply Qltb_lt in E. exfalso. apply (Qlt_irrefl price).
    apply (Qlt_trans _ prev); assumption. }
  apply Qltb_lt in H. rewrite Hn, H. reflexivity.
Qed.

Lemma event_kind_same (price prev : Q) :
  (price == prev)%Q ->
  event_kind "Price Change" price (Some prev) = "Price Change".
Proof.
  intros H. unfold event_kind. simpl.
  assert (H1 : Qltb price prev = false).
  { destruct (Qltb price prev) eqn:E; [|reflexivity].
    apply Qltb_lt in E. rewrite H in E. exfalso. apply (Qlt_irrefl _ E). }
  assert (H2 : Qltb prev price = false).
  { destruct (Qltb prev price) eqn:E; [|reflexivity].
    apply Qltb_lt in E. rewrite H in E. exfalso. apply (Qlt_irrefl _ E). }
  rewrite H1, H2. reflexivity.
Qed.

Lemma event_kind_other (hint : string) (price : Q) (prev : option Q) :
  hint <> "Price Change" -> event_kind hint price prev = hint.
Proof.
  intros H. unfold event_kind.
  destruct (String.eqb_spec hint "Price Change"); [contradiction | reflexivity].
Qed.

Lemma event_kind_first (hint : string) (price : Q) :
  event_kind hint price None = hint.
Proof.
  unfold event_kind. destruct (hint =? "Price Change")%string; reflexivity.
Qed.

Lemma most_recent_greatest (rows : list price_row) (r : price_row) :
  most_recent rows = Some r ->
  In r rows
  /\ forall x, In x rows -> ph_recorded_date x <= ph_recorded_date r.
Proof.
  revert r. induction rows as [|y rows IH]; simpl; intros r H; [discriminate|].
  destruct (most_recent rows) as [r'|] eqn:E.
  - destruct (IH r' eq_refl) as [Hin Hmax].
    destruct (ph_recorded_date y <? ph_recorded_date r') eqn:Hlt;
      injection H as <-.
    + apply Z.ltb_lt in Hlt. split; [right; exact Hin|].
      intros x [<- | Hx]; [lia | apply Hmax, Hx].
    + apply Z.ltb_ge in Hlt. split; [left; reflexivity|].
      intros x [<- | Hx]; [lia | specialize (Hmax x Hx); lia].
  - injection H as <-. split; [left; reflexivity|].
    intros x [<- | Hx]; [lia|].
    destruct rows as [|z rows']; [contradiction|].
    simpl in E. destruct (most_recent rows'); [|discriminate].
    destruct (ph_recorded_date z <? _); discriminate.
Qed.

Lemma price_row_eq_dec (a b : price_row) : {a = b} + {a <> b}.
Proof.
  decide equality;
    first [apply string_dec | apply Z.eq_dec
          | decide equality; first [apply Z.eq_dec | apply Pos.eq_dec]].
Qed.

Lemma most_recent_none (rows : list price_row) :
  most_recent rows = None -> rows = [].
Proof.
  destruct rows as [|z rows]; [reflexivity|]. simpl.
  destruct (most_recent rows); [|discriminate].
  destruct (ph_recorded_date z <? _); discriminate.
Qed.

(** C3, as the code has it, for a price of at most 15 significant digits
    (which the conversion to float of the wrapper keeps).  A call whose
    listing, date and price are those of a row already stored stores
    nothing, whatever the hint: it returns
    the id of that row, and the row keeps the kind it has.  Every other call
    appends exactly one row, and its kind is resolved as follows.  Every
    hint other than "Price Change", "Initial" and "Sold" among them, is
    stored unchanged, and so is any hint when the listing has no entry.
    With the hint "Price Change" and a listing that has entries, the new
    price is compared with the price of an entry of the listing that no
    entry of the listing is dated after: "Price Drop" when the new price is
    strictly below it, "Price Increase" when strictly above, "Price Change"
    when equal.  When one entry is dated after all the others of the
    listing, it is the one compared with. *)
Theorem record_price_event_kind (clock : Clock) (lid : Z) (price : Q)
    (price_date : option Z) (hint : string) (s : Store) :
  short_decimal price ->
  let d := date_or_today clock price_date in
  let call :=
    run (ListingService._record_price clock lid price price_date hint) s in
  (forall r,
     find (same_point lid d price) (price_history s) = Some r ->
     call = (Ok (ph_id r), s) /\ In r (price_history s))
  /\ (find (same_point lid d price) (price_history s) = None ->
      exists kind,
        call
        = (Ok (next_rowid (map ph_id (price_history s))),
           set_price_history s
             (price_history s ++
              [mk_price (next_rowid (map ph_id (price_history s))) lid price
                 d kind]))
        /\ (hint = "Initial" \/ hint = "Sold" -> kind = hint)
        /\ (hint <> "Price Change" -> kind = hint)
        /\ (history_of lid s = [] -> kind = hint)
        /\ (hint = "Price Change" -> history_of lid s <> [] ->
            exists latest,
              In latest (price_history s) /\ ph_listing_id latest = lid
              /\ (forall x, In x (price_history s) -> ph_listing_id x = lid ->
                    ph_recorded_date x <= ph_recorded_date latest)
              /\ ((price < ph_price latest)%Q -> kind = "Price Drop")
              /\ ((ph_price latest < price)%Q -> kind = "Price Increase")
              /\ ((price == ph_price latest)%Q -> kind = "Price Change")
              /\ (forall r0,
                    In r0 (price_history s) -> ph_listing_id r0 = lid ->
                    (forall x, In x (price_history s) ->
                       ph_listing_id x = lid -> x <> r0 ->
                       ph_recorded_date x < ph_recorded_date r0) ->
                    latest = r0))).
Proof.
  intros _ d call. split.
  - intros r Hr. split; [|apply (find_some _ _ Hr)].
    apply record_price_existing. unfold price_point. fold d. rewrite Hr.
    reflexivity.
  - intros Hp.
    exists (event_kind hint price (latest_price lid s)).
    split; [apply record_price_fresh; unfold price_point; fold d;
            rewrite Hp; reflexivity|].
    split; [|split; [|split]].
    + intros [-> | ->]; apply event_kind_other; discriminate.
    + apply event_kind_other.
    + intros Hnone. unfold latest_price. rewrite Hnone. simpl.
      apply event_kind_first.
    + intros -> Hsome. unfold latest_price.
      destruct (most_recent (history_of lid s)) as [latest|] eqn:E.
      2:{ apply most_recent_none in E. contradiction. }
      destruct (most_recent_greatest _ _ E) as [Hin Hmax].
      unfold history_of in Hin, Hmax.
      apply filter_In in Hin. destruct Hin as [Hin Hl].
      apply Z.eqb_eq in Hl.
      assert (Hmax' : forall x, In x (price_history s) ->
                        ph_listing_id x = lid ->
                        ph_recorded_date x <= ph_recorded_date latest).
      { intros x Hx Hxl. apply Hmax. apply filter_In. split; [exact Hx|].
        apply Z.eqb_eq, Hxl. }
      exists latest. simpl.
      split; [exact Hin|]. split; [exact Hl|]. split; [exact Hmax'|].
      split; [apply event_kind_drop|]. split; [apply event_kind_increase|].
      split; [apply event_kind_same|].
      intros r0 Hr0 Hl0 Hbefore.
      destruct (price_row_eq_dec latest r0) as [Heq | Hne]; [exact Heq|].
      specialize (Hbefore latest Hin Hl Hne).
      specialize (Hmax' r0 Hr0 Hl0). lia.
Qed.

(** C3, the claim as written fails.  R1 has one entry: 500000 on day 10,
    of kind "Initial".  A call with the hint "Price Change" at that price
    for that day has a prior entry and an equal price, so the claim has the
    kind "Price Change" stored; the call stores nothing, and the only entry
    is still "Initial".  With a later entry at 480000, a call at 500000 for
    day 10 is above the most recent price, so the claim has "Price
    Increase" stored; again nothing is stored. *)
Lemma record_price_stores_no_kind :
  let call :=
    run (ListingService._record_price example_clock 1 (500000 # 1) (Some 10)
           "Price Change") example_store in
  let later :=
    snd (run (ListingService._record_price example_clock 1 (480000 # 1)
                (Some 12) "Price Change") example_store) in
  let call' :=
    run (ListingService._record_price example_clock 1 (500000 # 1) (Some 10)
           "Price Change") later in
  latest_price 1 example_store = Some (500000 # 1)
  /\ call = (Ok 1, example_store)
  /\ map ph_event_type (price_history (snd call)) = ["Initial"]
  /\ latest_price 1 later = Some (480000 # 1)
  /\ call' = (Ok 1, later)
  /\ map ph_event_type (price_history (snd call')) = ["Initial"; "Price Drop"].
Proof.
  vm_compute. repeat split.
Qed.

(** ** The entity resolver *)

Lemma resolve_calm (name address neighborhood : option string) (s : Store)
    (j : list statement) :
  ListingService._get_or_create_building name address neighborhood (calm s j)
  = if negb (truthy name) && negb (truthy address) then (Ok None, calm s j)
    else
      match lookup_name name s with
      | Some id => (Ok (Some id), calm s j)
      | None =>
          match lookup_address address s with
          | Some id => (Ok (Some id), calm s j)
          | None =>
              let st := new_building name address neighborhood s in
              (Ok (Some (snd (run_statement st s))),
               calm (fst (run_statement st s)) (j ++ [st]))
          end
      end.
Proof.
  unfold ListingService._get_or_create_building.
  destruct (negb (truthy name) && negb (truthy address)); [reflexivity|].
  assert (Hn : forall (B : Type) (k : option Z -> M B),
             bind (match name with
                   | Some n =>
                       if truthy name
                       then Database.execute (building_by_name n)
                       else ret None
                   | None => ret None
                   end) k (calm s j)
             = k (lookup_name name s) (calm s j)).
  { intros B k. unfold lookup_name.
    destruct name as [n|]; [|reflexivity].
    destruct (truthy (Some n)); reflexivity. }
  rewrite Hn. destruct (lookup_name name s) as [id|]; [reflexivity|].
  assert (Ha : forall (B : Type) (k : option Z -> M B),
             bind (match address with
                   | Some a =>
                       if truthy address
                       then Database.execute (building_by_address a)
                       else ret None
                   | None => ret None
                   end) k (calm s j)
             = k (lookup_address address s) (calm s j)).
  { intros B k. unfold lookup_address.
    destruct address as [a|]; [|reflexivity].
    destruct (truthy (Some a)); reflexivity. }
  rewrite Ha. destruct (lookup_address address s) as [id|]; [reflexivity|].
  assert (Hb : forall (B : Type) (k : option Z -> M B),
             bind (match neighborhood with
                   | Some n =>
                       if truthy neighborhood
                       then Database.execute (neighborhood_by_name n)
                       else ret None
                   | None => ret None
                   end) k (calm s j)
             = k (lookup_neighborhood neighborhood s) (calm s j)).
  { intros B k. unfold lookup_neighborhood.
    destruct neighborhood as [n|]; [|reflexivity].
    destruct (truthy (Some n)); reflexivity. }
  rewrite Hb. rewrite bind_insert. reflexivity.
Qed.

Lemma max_ids_bound (ids : list Z) (x : Z) :
  In x ids -> x <= fold_right Z.max 0 ids.
Proof.
  induction ids as [|y ids IH]; simpl; [contradiction|].
  intros [-> | H]; [lia | specialize (IH H); lia].
Qed.

Lemma next_rowid_fresh (ids : list Z) : ~ In (next_rowid ids) ids.
Proof.
  intros H. apply max_ids_bound in H. unfold next_rowid in H. lia.
Qed.

Lemma lookup_name_truthy (name : option string) (s : Store) (id : Z) :
  lookup_name name s = Some id -> truthy name = true.
Proof.
  unfold lookup_name. destruct name as [n|]; [|discriminate].
  destruct (truthy (Some n)); [reflexivity | discriminate].
Qed.

Lemma lookup_address_truthy (address : option string) (s : Store) (id : Z) :
  lookup_address address s = Some id -> truthy address = true.
Proof.
  unfold lookup_address. destruct address as [a|]; [|discriminate].
  destruct (truthy (Some a)); [reflexivity | discriminate].
Qed.

Lemma resolve_by_name (name address neighborhood : option string) (s : Store)
    (id : Z) :
  lookup_name name s = Some id ->
  run (ListingService._get_or_create_building name address neighborhood) s
  = (Ok (Some id), s).
Proof.
  intros H. unfold run. fold (calm s []). rewrite resolve_calm.
  rewrite (lookup_name_truthy _ _ _ H), H. reflexivity.
Qed.

Lemma resolve_by_address (name address neighborhood : option string)
    (s : Store) (id : Z) :
  lookup_name name s = None ->
  lookup_address address s = Some id ->
  run (ListingService._get_or_create_building name address neighborhood) s
  = (Ok (Some id), s).
Proof.
  intros Hn Ha. unfold run. fold (calm s []). rewrite resolve_calm.
  rewrite (lookup_address_truthy _ _ _ Ha), Hn, Ha.
  rewrite andb_false_r. reflexivity.
Qed.

Lemma resolve_create (name address neighborhood : option string) (s : Store) :
  truthy name || truthy address = true ->
  lookup_name name s = None ->
  lookup_address address s = None ->
  run (ListingService._get_or_create_building name address neighborhood) s
  = (Ok (Some (next_rowid (map b_id (buildings s)))),
     set_buildings s
       (buildings s ++
        [mk_building (next_rowid (map b_id (buildings s)))
           (or_else name (or_else address (or_else name "Unknown")))
           (or_else address (or_else name "Unknown"))
           (lookup_neighborhood neighborhood s) "Victoria"])).
Proof.
  intros Ht Hn Ha. unfold run. fold (calm s []). rewrite resolve_calm.
  rewrite Hn, Ha.
  destruct (truthy name), (truthy address); try discriminate; reflexivity.
Qed.

Lemma resolve_none (name address neighborhood : option string) (s : Store) :
  fst (run (ListingService._get_or_create_building name address neighborhood) s)
  = Ok None
  <-> truthy name = false /\ truthy address = false.
Proof.
  unfold run. fold (calm s []). rewrite resolve_calm.
  destruct (truthy name) eqn:Tn, (truthy address) eqn:Ta; simpl;
    try (split; [|intros [? ?]; discriminate]);
    try (destruct (lookup_name name s); [|destruct (lookup_address address s)];
         simpl; intros H; discriminate).
  split; auto.
Qed.

(** After the resolver created a building for a truthy name, that name
    finds the new building. *)
Lemma lookup_name_after_create (name address neighborhood : option string)
    (s : Store) :
  truthy name = true ->
  lookup_name name s = None ->
  lookup_name name
    (fst (run_statement (new_building name address neighborhood s) s))
  = Some (next_rowid (map b_id (buildings s))).
Proof.
  intros Ht Hn. unfold lookup_name in *.
  destruct name as [n|]; [|discriminate]. rewrite Ht in *.
  unfold building_by_name in *. simpl.
  destruct (find (fun b => (b_name b =? n)%string) (buildings s)) eqn:E;
    [discriminate|].
  rewrite (find_app_new _ _ _ _ E); [reflexivity|].
  simpl. simpl in Ht. destruct (n =? "")%string; [discriminate|].
  apply String.eqb_refl.
Qed.

(** C7, as the code has it.  The resolver returns null exactly when name and
    address are both absent (null or empty).  Otherwise a building whose name
    matches wins, whatever the address; failing that, a building whose
    address matches; and only when both lookups miss is one building
    inserted, under an id no building had.  Two calls with the same name
    give the same id regardless of the addresses provided the first call
    did not resolve through an address match (it matched by name or
    created the building).  A call with a name no building has and the
    address of an existing building gives that building's id. *)
Theorem resolve_building_order (name address neighborhood : option string)
    (s : Store) :
  let resolve := ListingService._get_or_create_building in
  (fst (run (resolve name address neighborhood) s) = Ok None
   <-> truthy name = false /\ truthy address = false)
  /\ (forall id, lookup_name name s = Some id ->
        run (resolve name address neighborhood) s = (Ok (Some id), s))
  /\ (forall id, lookup_name name s = None ->
        lookup_address address s = Some id ->
        run (resolve name address neighborhood) s = (Ok (Some id), s))
  /\ (truthy name || truthy address = true ->
      lookup_name name s = None -> lookup_address address s = None ->
      exists id,
        ~ In id (map b_id (buildings s))
        /\ run (resolve name address neighborhood) s
           = (Ok (Some id),
              set_buildings s
                (buildings s ++
                 [mk_building id
                    (or_else name (or_else address (or_else name "Unknown")))
                    (or_else address (or_else name "Unknown"))
                    (lookup_neighborhood neighborhood s) "Victoria"])))
  /\ (forall address' neighborhood',
        truthy name = true ->
        lookup_name name s <> None \/ lookup_address address s = None ->
        fst (run (resolve name address' neighborhood')
               (snd (run (resolve name address neighborhood) s)))
        = fst (run (resolve name address neighborhood) s)).
Proof.
  intros resolve. unfold resolve.
  split; [apply resolve_none|].
  split; [intros id; apply resolve_by_name|].
  split; [intros id; apply resolve_by_address|].
  split.
  - intros Ht Hn Ha. exists (next_rowid (map b_id (buildings s))).
    split; [apply next_rowid_fresh | apply resolve_create; assumption].
  - intros address' neighborhood' Ht Hcase.
    destruct (lookup_name name s) as [id|] eqn:Hn.
    + rewrite (resolve_by_name name address neighborhood s _ Hn). simpl.
      rewrite (resolve_by_name name address' neighborhood' s _ Hn).
      reflexivity.
    + destruct Hcase as [Hc | Ha]; [congruence|].
      rewrite (resolve_create name address neighborhood s); auto;
        [|rewrite Ht; reflexivity].
      simpl.
      pose proof (lookup_name_after_create name address neighborhood s Ht Hn)
        as Hnew.
      simpl in Hnew.
      rewrite (resolve_by_name name address' neighborhood' _ _ Hnew).
      reflexivity.
Qed.

(** C7, the claim as written fails: with a building "Alpha" at "1 Main St"
    in the tables, the name "Beta" with that address resolves to it by
    address (id 1), and the same name "Beta" with the address "2 Oak St"
    then misses both lookups and creates a second building (id 2). *)
Lemma resolve_same_name_two_ids :
  let s := set_buildings empty_store
             [mk_building 1 "Alpha" "1 Main St" None "Victoria"] in
  let resolve := ListingService._get_or_create_building in
  let first := run (resolve (Some "Beta") (Some "1 Main St") None) s in
  let second := run (resolve (Some "Beta") (Some "2 Oak St") None) (snd first) in
  fst first = Ok (Some 1) /\ fst second = Ok (Some 2)
  /\ ~ (forall (name address address' : option string) (s0 : Store),
          truthy name = true ->
          fst (run (resolve name address' None)
                 (snd (run (resolve name address None) s0)))
          = fst (run (resolve name address None) s0)).
Proof.
  split; [reflexivity|]. split; [reflexivity|].
  intros H.
  specialize (H (Some "Beta") (Some "1 Main St") (Some "2 Oak St")
                (set_buildings empty_store
                   [mk_building 1 "Alpha" "1 Main St" None "Victoria"])
                eq_refl).
  vm_compute in H. discriminate.
Qed.

(** ** The listing lifecycle *)

Lemma bind_assoc (A B C : Type) (m : M A) (f : A -> M B) (g : B -> M C)
    (w : World) :
  bind (bind m f) g w = bind m (fun x => bind (f x) g) w.
Proof. unfold bind. destruct (m w) as [[a|e] w']; reflexivity. Qed.

Lemma bind_known (A B : Type) (m : M A) (k : A -> M B) (w w' : World) (a : A) :
  m w = (Ok a, w') -> bind m k w = k a w'.
Proof. intros H. unfold bind. rewrite H. reflexivity. Qed.

Lemma bind_record_price (B : Type) (clock : Clock) (lid : Z) (price : Q)
    (price_date : option Z) (hint : string) (k : Z -> M B) (s : Store)
    (j : list statement) :
  bind (ListingService._record_price clock lid price price_date hint) k
    (calm s j)
  = match price_point lid (date_or_today clock price_date) price s with
    | Some id => k id (calm s j)
    | None =>
        let st :=
          INSERT_price_history lid price (date_or_today clock price_date)
            (event_kind hint price (latest_price lid s)) in
        k (snd (run_statement st s))
          (calm (fst (run_statement st s)) (j ++ [st]))
    end.
Proof.
  unfold bind at 1. rewrite record_price_calm.
  destruct (price_point lid (date_or_today clock price_date) price s);
    reflexivity.
Qed.

(** The resolver, in a calm world, returns and touches only [buildings]. *)
Lemma resolve_shape (name address neighborhood : option string) (s : Store)
    (j : list statement) :
  exists bid s1 j1,
    ListingService._get_or_create_building name address neighborhood (calm s j)
    = (Ok bid, calm s1 j1)
    /\ listings s1 = listings s
    /\ price_history s1 = price_history s
    /\ tracking_events s1 = tracking_events s
    /\ historical_sales s1 = historical_sales s.
Proof.
  rewrite resolve_calm.
  destruct (negb (truthy name) && negb (truthy address)).
  { exists None, s, j. repeat split. }
  destruct (lookup_name name s) as [id|].
  { exists (Some id), s, j. repeat split. }
  destruct (lookup_address address s) as [id|].
  { exists (Some id), s, j. repeat split. }
  eexists _, _, _. split; [reflexivity|]. repeat split.
Qed.

Lemma latest_price_ext (lid : Z) (s s' : Store) :
  price_history s' = price_history s -> latest_price lid s' = latest_price lid s.
Proof. intros H. unfold latest_price, history_of. rewrite H. reflexivity. Qed.

Lemma price_point_ext (lid d : Z) (p : Q) (s s' : Store) :
  price_history s' = price_history s ->
  price_point lid d p s' = price_point lid d p s.
Proof. intros H. unfold price_point. rewrite H. reflexivity. Qed.

Lemma after_price_history (clock : Clock) (lid : Z) (price : option Q)
    (s s' : Store) :
  price_history s' = price_history s ->
  price_history (after_price clock lid price s')
  = price_history (after_price clock lid price s).
Proof.
  intros H. unfold after_price.
  destruct price as [p|]; [|exact H].
  rewrite (latest_price_ext lid _ _ H), (price_point_ext lid (today clock) p _ _ H).
  destruct (price_changed (Some p) (latest_price lid s)); [|exact H].
  destruct (price_point lid (today clock) p s); [exact H|].
  simpl. rewrite H. reflexivity.
Qed.

Lemma after_price_listings (clock : Clock) (lid : Z) (price : option Q)
    (s : Store) :
  listings (after_price clock lid price s) = listings s.
Proof.
  unfold after_price. destruct price as [p|]; [|reflexivity].
  destruct (price_changed (Some p) (latest_price lid s)); [|reflexivity].
  destruct (price_point lid (today clock) p s); reflexivity.
Qed.

(** The update path in a calm world: the result and the tables it leaves. *)
Lemma upsert_existing_calm (clock : Clock) (data : listing_data)
    (mls : string) (row : listing_row) (s : Store) :
  d_mls_number data = Some mls ->
  truthy (Some mls) = true ->
  listing_by_mls mls s = Some row ->
  exists bid s1,
    listings s1 = listings s
    /\ price_history s1 = price_history s
    /\ run (ListingService.create_or_update_listing clock data) s
       = (Ok (mk_upsert_result true (l_id row) mls false
                (price_changed (d_price data) (latest_price (l_id row) s))
                "Listing updated"),
          fst (run_statement
                 (INSERT_tracking_event (l_id row) "Updated"
                    ("Updated from " ++ fmt_opt (d_source_platform data)))
                 (after_price clock (l_id row) (d_price data)
                    (fst (run_statement
                            (UPDATE_listing
                               (ListingService.fields_of data bid)
                               (now clock) (l_id row)) s1))))).
Proof.
  intros Hmls Ht Hrow.
  destruct (resolve_shape (d_building_name data) (d_address data)
              (d_neighborhood data) s [])
    as [bid [s1 [j1 [Hres [Hl [Hp [_ _]]]]]]].
  exists bid, s1. split; [exact Hl | split; [exact Hp|]].
  unfold run. fold (calm s []).
  unfold ListingService.create_or_update_listing.
  rewrite Hmls, Ht. change (negb true) with false. cbv iota.
  rewrite bind_execute, Hrow.
  rewrite (bind_known _ _ _ _ _ _ _ Hres).
  rewrite bind_update.
  set (s2 := fst (run_statement
                    (UPDATE_listing (ListingService.fields_of data bid)
                       (now clock) (l_id row)) s1)).
  assert (Hp2 : price_history s2 = price_history s) by (simpl; exact Hp).
  rewrite <- (latest_price_ext (l_id row) s s2 Hp2).
  unfold after_price, price_changed.
  destruct (d_price data) as [p|].
  - destruct (truthy_decimal (Some p)).
    + rewrite bind_assoc, bind_execute.
      destruct (latest_price (l_id row) s2) as [c|] eqn:Hc.
      * simpl andb.
        destruct (negb (Qeq_bool c p)).
        -- rewrite bind_assoc, bind_record_price. simpl date_or_today.
           destruct (price_point (l_id row) (today clock) p s2).
           ++ rewrite bind_ret, bind_insert. reflexivity.
           ++ cbv zeta. rewrite bind_ret, bind_insert, Hc. reflexivity.
        -- rewrite bind_ret, bind_insert. reflexivity.
      * simpl andb.
        rewrite bind_assoc, bind_record_price. simpl date_or_today.
        destruct (price_point (l_id row) (today clock) p s2).
        -- rewrite bind_ret, bind_insert. reflexivity.
        -- cbv zeta. rewrite bind_ret, bind_insert, Hc. reflexivity.
    + simpl andb. rewrite bind_ret, bind_insert. reflexivity.
  - rewrite bind_ret, bind_insert. reflexivity.
Qed.

Lemma find_update_where (mls : string) (id : Z)
    (f : listing_row -> listing_row) (rows : list listing_row)
    (row : listing_row) :
  (forall r, l_mls_number (f r) = l_mls_number r) ->
  (forall r, l_id (f r) = l_id r) ->
  find (has_mls mls) rows = Some row ->
  exists row',
    find (has_mls mls) (update_where id f rows) = Some row'
    /\ l_id row' = l_id row.
Proof.
  intros Hm Hi. induction rows as [|x rows IH]; simpl; [discriminate|].
  assert (Hx : has_mls mls (if l_id x =? id then f x else x) = has_mls mls x).
  { destruct (l_id x =? id); [|reflexivity].
    unfold has_mls. rewrite Hm. reflexivity. }
  rewrite Hx. destruct (has_mls mls x).
  - intros H; injection H as <-.
    eexists; split; [reflexivity|].
    destruct (l_id x =? id); [apply Hi | reflexivity].
  - exact IH.
Qed.

(** A row dated after all the others is the most recent one. *)
Lemma most_recent_snoc (rows : list price_row) (r : price_row) :
  (forall x, In x rows -> ph_recorded_date x < ph_recorded_date r) ->
  most_recent (rows ++ [r]) = Some r.
Proof.
  induction rows as [|x rows IH]; simpl; intros H; [reflexivity|].
  rewrite IH by (intros y Hy; apply H; right; exact Hy).
  assert (Hx : ph_recorded_date x < ph_recorded_date r)
    by (apply H; left; reflexivity).
  apply Z.ltb_lt in Hx. rewrite Hx. reflexivity.
Qed.

Lemma price_changed_true (p : Q) (current : option Q) :
  price_changed (Some p) current = true
  <-> ~ (p == 0)%Q /\ (forall c, current = Some c -> ~ (c == p)%Q).
Proof.
  unfold price_changed, truthy_decimal.
  rewrite andb_true_iff, negb_true_iff.
  split.
  - intros [H0 Hc]. split.
    + intros E. apply Qeq_bool_iff in E. congruence.
    + intros c ->. apply negb_true_iff in Hc.
      intros E. apply Qeq_bool_iff in E. congruence.
  - intros [H0 Hc]. split.
    + destruct (Qeq_bool p 0) eqn:E; [|reflexivity].
      apply Qeq_bool_iff in E. contradiction.
    + destruct current as [c|]; [|reflexivity].
      apply negb_true_iff.
      destruct (Qeq_bool c p) eqn:E; [|reflexivity].
      apply Qeq_bool_iff in E. exfalso. apply (Hc c); auto.
Qed.

(** No point of the listing is dated today when all its entries are older. *)
Lemma price_point_older (lid d : Z) (p : Q) (s : Store) :
  (forall r, In r (price_history s) -> ph_listing_id r = lid ->
             ph_recorded_date r < d) ->
  price_point lid d p s = None.
Proof.
  intros H. unfold price_point.
  destruct (find (same_point lid d p) (price_history s)) as [r|] eqn:E;
    [|reflexivity].
  apply find_some in E. destruct E as [Hin Hsp].
  unfold same_point in Hsp.
  apply andb_true_iff in Hsp. destruct Hsp as [Hsp _].
  apply andb_true_iff in Hsp. destruct Hsp as [Hl Hd].
  apply Z.eqb_eq in Hl. apply Z.eqb_eq in Hd.
  specialize (H r Hin Hl). lia.
Qed.

(** After the price step the most recent price is the one just seen,
    when the listing's earlier entries are all older than today. *)
Lemma after_price_latest (clock : Clock) (lid : Z) (p : Q) (s : Store) :
  truthy_decimal (Some p) = true ->
  (forall r, In r (price_history s) -> ph_listing_id r = lid ->
             ph_recorded_date r < today clock) ->
  exists c, latest_price lid (after_price clock lid (Some p) s) = Some c
            /\ (c == p)%Q.
Proof.
  intros Ht Hold. unfold after_price.
  destruct (price_changed (Some p) (latest_price lid s)) eqn:Hc.
  - rewrite (price_point_older lid (today clock) p s Hold).
    exists p. split; [|reflexivity].
    unfold latest_price, history_of. simpl.
    rewrite filter_app. simpl. rewrite Z.eqb_refl.
    rewrite most_recent_snoc; [reflexivity|].
    intros x Hx. apply filter_In in Hx. destruct Hx as [Hin Hl].
    apply Z.eqb_eq in Hl. simpl. apply Hold; assumption.
  - unfold price_changed in Hc. rewrite Ht in Hc. simpl in Hc.
    destruct (latest_price lid s) as [c|]; [|discriminate].
    apply negb_false_iff in Hc. apply Qeq_bool_iff in Hc.
    exists c. split; [reflexivity | exact Hc].
Qed.

Lemma price_changed_eq (p c : Q) :
  (c == p)%Q -> price_changed (Some p) (Some c) = false.
Proof.
  intros H. unfold price_changed.
  apply Qeq_bool_iff in H. rewrite H. apply andb_false_r.
Qed.

(** After the price step the point (listing, today, price) is in the ledger
    whenever the test for a changed price still succeeds. *)
Lemma after_price_point (clock : Clock) (lid : Z) (p : Q) (s : Store) :
  price_changed (Some p) (latest_price lid (after_price clock lid (Some p) s))
  = true ->
  price_point lid (today clock) p (after_price clock lid (Some p) s) <> None.
Proof.
  unfold after_price.
  destruct (price_changed (Some p) (latest_price lid s)) eqn:Hc.
  - destruct (price_point lid (today clock) p s) as [id|] eqn:Hp.
    + intros _. rewrite Hp. discriminate.
    + intros _. unfold price_point. simpl.
      rewrite (find_app_new _ _ _ _ (price_point_none _ _ _ _ Hp)
                 (same_point_new _ lid (today clock) p _)).
      discriminate.
  - intros H. congruence.
Qed.

Lemma after_price_twice (clock clock' : Clock) (lid : Z) (price : option Q)
    (s s1 : Store) :
  price_history s1 = price_history (after_price clock lid price s) ->
  today clock' = today clock ->
  price_history (after_price clock' lid price s1) = price_history s1.
Proof.
  intros H1 Hday. destruct price as [p|]; [|reflexivity].
  unfold after_price at 1.
  destruct (price_changed (Some p) (latest_price lid s1)) eqn:Hc;
    [|reflexivity].
  rewrite (latest_price_ext lid _ _ H1) in Hc.
  apply after_price_point in Hc.
  rewrite <- (price_point_ext lid (today clock) p _ _ H1) in Hc.
  rewrite Hday.
  destruct (price_point lid (today clock) p s1); [reflexivity | congruence].
Qed.

Lemma after_price_settled (clock : Clock) (lid : Z) (price : option Q)
    (s s1 : Store) :
  price_history s1 = price_history (after_price clock lid price s) ->
  (forall r, In r (price_history s) -> ph_listing_id r = lid ->
             ph_recorded_date r < today clock) ->
  price_changed price (latest_price lid s1) = false.
Proof.
  intros H1 Hold. destruct price as [p|]; [|reflexivity].
  destruct (truthy_decimal (Some p)) eqn:Ht.
  - destruct (after_price_latest clock lid p s Ht Hold) as [c [Hc Hcp]].
    rewrite (latest_price_ext lid _ _ H1), Hc.
    apply price_changed_eq. exact Hcp.
  - unfold price_changed. rewrite Ht. reflexivity.
Qed.

Lemma after_price_unchanged (clock : Clock) (lid : Z) (price : option Q)
    (s : Store) :
  price_changed price (latest_price lid s) = false ->
  after_price clock lid price s = s.
Proof.
  intros H. unfold after_price. destruct price; [|reflexivity].
  rewrite H. reflexivity.
Qed.

(** What a sighting of a known MLS number returns and leaves behind. *)
Lemma upsert_existing_summary (clock : Clock) (data : listing_data)
    (mls : string) (row : listing_row) (s : Store) :
  d_mls_number data = Some mls ->
  truthy (Some mls) = true ->
  listing_by_mls mls s = Some row ->
  exists res s',
    run (ListingService.create_or_update_listing clock data) s = (Ok res, s')
    /\ r_is_new res = false
    /\ r_price_recorded res
       = price_changed (d_price data) (latest_price (l_id row) s)
    /\ price_history s'
       = price_history (after_price clock (l_id row) (d_price data) s)
    /\ exists row', listing_by_mls mls s' = Some row' /\ l_id row' = l_id row.
Proof.
  intros Hmls Ht Hrow.
  destruct (upsert_existing_calm clock data mls row s Hmls Ht Hrow)
    as [bid [s1 [Hl [Hp Hrun]]]].
  eexists _, _. split; [exact Hrun|].
  split; [reflexivity|]. split; [reflexivity|]. split.
  - simpl. apply after_price_history. simpl. exact Hp.
  - unfold listing_by_mls. simpl. rewrite after_price_listings. simpl.
    rewrite Hl. apply find_update_where; auto.
Qed.

(** C4, as the code has it, for a price of at most 15 significant digits
    (which the conversion to float of the wrapper keeps, so that the price
    read back is the price given).  On a sighting of an already-known MLS
    number, priceRecorded is true exactly when the record's price is present and
    not zero and differs from the listing's most recent entry (no entry
    counting as different).  A price-history row is then appended unless a
    row with the same listing, today's date and that price already exists,
    in which case nothing is added although priceRecorded is true.  The
    same record seen a second time on the same day adds no row; and when
    all entries the listing had before the first sighting are dated before
    that day, the second sighting gives priceRecorded = false and leaves
    the price history as it is. *)
Theorem upsert_existing_price (clock clock' : Clock) (data : listing_data)
    (mls : string) (row : listing_row) (s : Store) :
  d_mls_number data = Some mls ->
  truthy (Some mls) = true ->
  listing_by_mls mls s = Some row ->
  (forall p, d_price data = Some p -> short_decimal p) ->
  exists res s1,
    run (ListingService.create_or_update_listing clock data) s = (Ok res, s1)
    /\ r_is_new res = false
    /\ (r_price_recorded res = true
        <-> exists p, d_price data = Some p /\ ~ (p == 0)%Q
                      /\ (forall c, latest_price (l_id row) s = Some c ->
                                    ~ (c == p)%Q))
    /\ price_history s1
       = match d_price data with
         | Some p =>
             if r_price_recorded res
                && is_none (price_point (l_id row) (today clock) p s)
             then (price_history s ++
                   [mk_price (next_rowid (map ph_id (price_history s)))
                      (l_id row) p (today clock)
                      (event_kind "Price Change" p
                         (latest_price (l_id row) s))])%list
             else price_history s
         | None => price_history s
         end
    /\ exists res' s2,
         run (ListingService.create_or_update_listing clock' data) s1
         = (Ok res', s2)
         /\ (today clock' = today clock -> price_history s2 = price_history s1)
         /\ ((forall r, In r (price_history s) ->
                ph_listing_id r = l_id row ->
                ph_recorded_date r < today clock) ->
             r_price_recorded res' = false
             /\ price_history s2 = price_history s1).
Proof.
  intros Hmls Ht Hrow _.
  destruct (upsert_existing_summary clock data mls row s Hmls Ht Hrow)
    as [res [s1 [Hrun [Hnew [Hrec [Hph [row' [Hrow' Hid]]]]]]]].
  exists res, s1. split; [exact Hrun|]. split; [exact Hnew|]. split; [|split].
  - rewrite Hrec. destruct (d_price data) as [p|].
    + rewrite price_changed_true. split.
      * intros [H0 Hc]. exists p. auto.
      * intros [q [Hq [H0 Hc]]]. injection Hq as <-. auto.
    + simpl. split; [discriminate | intros [p [Hp _]]; discriminate].
  - rewrite Hph, Hrec. unfold after_price.
    destruct (d_price data) as [p|]; [|reflexivity].
    destruct (price_changed (Some p) (latest_price (l_id row) s));
      [|reflexivity].
    destruct (price_point (l_id row) (today clock) p s); reflexivity.
  - destruct (upsert_existing_summary clock' data mls row' s1 Hmls Ht Hrow')
      as [res' [s2 [Hrun' [_ [Hrec' [Hph' _]]]]]].
    rewrite Hid in Hrec', Hph'.
    exists res', s2. split; [exact Hrun'|]. split.
    + intros Hday. rewrite Hph'.
      apply (after_price_twice clock clock' _ _ s s1 Hph Hday).
    + intros Hold.
      pose proof (after_price_settled clock (l_id row) (d_price data) s s1
                    Hph Hold) as Hset.
      split; [rewrite Hrec'; exact Hset|].
      rewrite Hph', (after_price_unchanged clock' _ _ _ Hset). reflexivity.
Qed.

(** C4, the claim as written fails.  On day 10 the listing R1 is found at
    500000; it is then marked sold at 470000 with sale date day 20.  A new
    sighting of R1 at 500000 on day 10 finds 470000 as the most recent
    entry, so the price differs and priceRecorded is true, yet the row
    (R1, day 10, 500000) exists and nothing is written; seeing the same
    record once more gives priceRecorded = true again. *)
Lemma upsert_unchanged_price_recorded :
  let clock := mk_clock 10 1000 in
  let data := sighting "R1" "Tower" None (500000 # 1) in
  let s0 := snd (run (ListingService.create_or_update_listing clock data)
                   empty_store) in
  let s := snd (run (ListingService.update_status clock "R1" "Sold"
                       (Some (470000 # 1)) (Some 20)) s0) in
  let first := run (ListingService.create_or_update_listing clock data) s in
  let second :=
    run (ListingService.create_or_update_listing clock data) (snd first) in
  (exists row, listing_by_mls "R1" s = Some row)
  /\ latest_price 1 s = Some (470000 # 1)
  /\ (exists res, fst first = Ok res /\ r_price_recorded res = true)
  /\ price_history (snd first) = price_history s
  /\ (exists res, fst second = Ok res /\ r_price_recorded res = true)
  /\ price_history (snd second) = price_history (snd first).
Proof.
  vm_compute. repeat split; eexists; repeat split.
Qed.

(** ** Status transitions *)

Lemma find_update_where_eq (mls : string) (id : Z)
    (f : listing_row -> listing_row) (rows : list listing_row) :
  (forall r, l_mls_number (f r) = l_mls_number r) ->
  find (has_mls mls) (update_where id f rows)
  = option_map (fun r => if l_id r =? id then f r else r)
      (find (has_mls mls) rows).
Proof.
  intros Hm. induction rows as [|x rows IH]; simpl; [reflexivity|].
  assert (Hx : has_mls mls (if l_id x =? id then f x else x) = has_mls mls x).
  { destruct (l_id x =? id); [|reflexivity].
    unfold has_mls. rewrite Hm. reflexivity. }
  rewrite Hx. destruct (has_mls mls x); [reflexivity | exact IH].
Qed.


Lemma listings_after_event (lid : Z) (kind details : string) (s : Store) :
  listings (fst (run_statement (INSERT_tracking_event lid kind details) s))
  = listings s.
Proof. reflexivity. Qed.





(** ** The price endpoint *)

Lemma get_listing_calm (mls : string) (s : Store) (j : list statement) :
  ListingService.get_listing mls (calm s j)
  = (Ok (option_map
           (fun row => (row, ListingService.history_desc (l_id row) s))
           (listing_by_mls mls s)),
     calm s j).
Proof.
  unfold ListingService.get_listing. rewrite bind_execute.
  destruct (listing_by_mls mls s); reflexivity.
Qed.

(** With a most recent price that is not zero the endpoint reports it, the
    difference to the new price and the quotient of the two times 100. *)
Lemma add_price_change (clock : Clock) (mls : string) (price : PriceCreate)
    (row : listing_row) (prev : Q) (s : Store) :
  listing_by_mls mls s = Some row ->
  latest_price (l_id row) s = Some prev ->
  ~ (prev == 0)%Q ->
  exists id,
    fst (run (ListingsApi.add_price clock mls price) s)
    = Ok (mk_price_response true id (Some prev)
            (Some (pc_price price - prev)%Q)
            (Some ((pc_price price - prev) / prev * 100)%Q)).
Proof.
  intros Hrow Hprev Hnz.
  assert (Hb : Qeq_bool prev 0 = false).
  { destruct (Qeq_bool prev 0) eqn:E; [|reflexivity].
    apply Qeq_bool_iff in E. contradiction. }
  destruct (price_point (l_id row) (date_or_today clock (pc_date price))
              (pc_price price) s) as [id|] eqn:Hpp;
    eexists; unfold run; fold (calm s []); unfold ListingsApi.add_price;
    rewrite (bind_known _ _ _ _ _ _ _ (get_listing_calm mls s []));
    rewrite Hrow; cbn [option_map]; cbv iota beta;
    rewrite bind_execute, Hprev; unfold truthy_decimal; rewrite Hb;
    cbn [negb]; cbv iota; rewrite bind_record_price, Hpp; reflexivity.
Qed.

(** The example of the spec: from 500000 to 475000 the change is -25000 and
    the percentage -5. *)
Lemma add_price_example :
  let clock := mk_clock 10 1000 in
  let s := snd (run (ListingService.create_or_update_listing clock
                       (sighting "R1" "Tower" None (500000 # 1)))
                  empty_store) in
  exists r,
    fst (run (ListingsApi.add_price clock "R1"
                (mk_price_create (475000 # 1) (Some 11) "Price Drop" None)) s)
    = Ok r
    /\ pr_previous_price r = Some (500000 # 1)
    /\ (exists c, pr_price_change r = Some c /\ (c == -25000 # 1)%Q)
    /\ (exists c, pr_percent_change r = Some c /\ (c == -5 # 1)%Q).
Proof.
  eexists. split; [vm_compute; reflexivity|].
  split; [reflexivity|].
  split; eexists; (split; [reflexivity | vm_compute; reflexivity]).
Qed.

(** C8, the case the code misses.  The listing R1 has 0 as its most recent
    price (recorded through this endpoint on day 8).  Recording 475000 on
    day 10 reports the previous price 0 but no absolute change: the test
    [if previous_price:] is false for a zero decimal, so the inner guard
    [previous_price != 0] is never reached with zero. *)
Theorem add_price_after_zero :
  let clock := mk_clock 10 1000 in
  let s0 := snd (run (ListingService.create_or_update_listing
                        (mk_clock 5 500)
                        (sighting "R1" "Tower" None (500000 # 1)))
                   empty_store) in
  let s := snd (run (ListingsApi.add_price (mk_clock 8 800) "R1"
                       (mk_price_create 0 None "Price Change" None)) s0) in
  latest_price 1 s = Some 0%Q
  /\ fst (run (ListingsApi.add_price clock "R1"
                 (mk_price_create (475000 # 1) None "Price Change" None)) s)
     = Ok (mk_price_response true 3 (Some 0%Q) None None).
Proof.
  vm_compute. split; reflexivity.
Qed.

(** ** The orphan sweep *)

Lemma sweep_no_live (entries : list entry) :
  PhotoService.sweep [] entries = (dir_entries entries, files_only entries).
Proof.
  induction entries as [|e rest IH]; simpl; [reflexivity|].
  rewrite IH. destruct e; reflexivity.
Qed.

Lemma sweep_root_no_live (root : option (list entry)) :
  PhotoService.sweep_root [] root
  = (match root with
     | Some entries => dir_entries entries
     | None => 0%nat
     end,
     option_map files_only root).
Proof.
  destruct root as [entries|]; simpl; [|reflexivity].
  rewrite sweep_no_live. reflexivity.
Qed.

(** C9. When the query for the live MLS numbers raises, the sweep still
    returns: the failure is the first entry of [errors], the listing root is
    scanned against an empty live set, so every directory under it is
    removed with its content (only plain files stay) and the entries they
    held are all counted in [listings_deleted].  This holds whatever the
    tables, the photo store and the fate of the later statements. *)
Theorem purge_after_failed_listing_query (fs : list bool) (s : Store)
    (disk : photo_storage) :
  exists stats disk',
    run_with (true :: fs) (PhotoService.purge_orphaned_photos disk) s
    = (Ok (stats, disk'), s)
    /\ hd_error (ps_errors stats)
       = Some "Could not fetch active listings: database error"
    /\ listings_path disk' = option_map files_only (listings_path disk)
    /\ (forall kept e, listings_path disk' = Some kept -> In e kept ->
                       is_dir e = false)
    /\ ps_listings_deleted stats
       = match listings_path disk with
         | Some entries => dir_entries entries
         | None => 0%nat
         end.
Proof.
  unfold run_with, PhotoService.purge_orphaned_photos.
  unfold bind at 1. unfold catch at 1.
  unfold bind at 1. unfold Database.execute at 1, bind at 1.
  unfold Database.conn_execute at 1. cbn [faults store journal].
  unfold ret at 1. cbv iota beta.
  rewrite sweep_root_no_live.
  assert (Hfiles : forall kept e,
             option_map files_only (listings_path disk) = Some kept ->
             In e kept -> is_dir e = false).
  { intros kept e Hk Hin. destruct (listings_path disk) as [es|];
      [|discriminate].
    injection Hk as <-. apply filter_In in Hin. destruct Hin as [_ Hd].
    apply negb_true_iff in Hd. exact Hd. }
  unfold bind, catch, Database.execute, bind, Database.conn_execute, ret.
  cbn [faults store journal].
  destruct fs as [|[|] fs']; cbn [faults store journal];
    destruct (PhotoService.sweep_root _ (historical_path disk));
    eexists _, _; (split; [reflexivity|]); cbn;
    repeat split; try exact Hfiles; apply Nat.add_0_l.
Qed.

(** ** Historical sales and the bulk importer *)

Section Importer.

Context {lib : PyLib}.

Lemma keeps_sales_ret (A : Type) (a : A) : keeps_sales (ret a).
Proof. intros w. reflexivity. Qed.

Lemma keeps_sales_bind (A B : Type) (m : M A) (k : A -> M B) :
  keeps_sales m -> (forall a, keeps_sales (k a)) -> keeps_sales (bind m k).
Proof.
  intros Hm Hk w. unfold bind. specialize (Hm w).
  destruct (m w) as [[a|e] w1]; simpl in *.
  - rewrite Hk. exact Hm.
  - exact Hm.
Qed.

Lemma keeps_sales_conn : keeps_sales Database.conn_execute.
Proof.
  intros w. unfold Database.conn_execute.
  destruct (faults w) as [|[|] fs]; reflexivity.
Qed.

Lemma keeps_sales_execute (A : Type) (q : Store -> A) :
  keeps_sales (Database.execute q).
Proof.
  apply keeps_sales_bind; [apply keeps_sales_conn|].
  intros _ w. reflexivity.
Qed.

Lemma keeps_sales_building (name address : string) (nid : option Z)
    (city : string) :
  keeps_sales (Database.execute_insert (INSERT_building name address nid city)).
Proof.
  apply keeps_sales_bind; [apply keeps_sales_conn|].
  intros _ w. reflexivity.
Qed.

Lemma keeps_sales_resolve (name : string) (address neighborhood : option string) :
  keeps_sales
    (HistoricalSaleService._get_or_create_building name address neighborhood).
Proof.
  unfold HistoricalSaleService._get_or_create_building.
  apply keeps_sales_bind; [apply keeps_sales_execute|].
  intros [id|]; [apply keeps_sales_ret|].
  apply keeps_sales_bind.
  { destruct address as [a|]; [|apply keeps_sales_ret].
    destruct (truthy (Some a));
      [apply keeps_sales_execute | apply keeps_sales_ret]. }
  intros [id|]; [apply keeps_sales_ret|].
  apply keeps_sales_bind.
  { destruct neighborhood as [n|]; [|apply keeps_sales_ret].
    destruct (truthy (Some n));
      [apply keeps_sales_execute | apply keeps_sales_ret]. }
  intros nid. apply keeps_sales_building.
Qed.

(** [create_sale] in any world: one more sale when it returns, none when
    it raises. *)
Lemma create_sale_sales (data : sale_data) (w : World) :
  match HistoricalSaleService.create_sale data w with
  | (Ok _, w') =>
      length (historical_sales (store w'))
      = S (length (historical_sales (store w)))
  | (Raise _, w') =>
      historical_sales (store w') = historical_sales (store w)
  end.
Proof.
  unfold HistoricalSaleService.create_sale.
  pose proof (keeps_sales_resolve (sd_building_name data) (sd_address data)
                (sd_neighborhood data) w) as Hk.
  unfold bind at 1.
  destruct (HistoricalSaleService._get_or_create_building _ _ _ w)
    as [[bid|e] w1]; simpl in Hk; [|exact Hk].
  unfold bind, Database.execute_insert, bind, Database.conn_execute,
    Database.commit, ret.
  destruct (faults w1) as [|[|] fs]; simpl; rewrite <- Hk;
    try reflexivity; rewrite length_app; simpl; lia.
Qed.

Lemma sale_resolve_calm (name : string) (address neighborhood : option string)
    (s : Store) (j : list statement) :
  exists bid s1 j1,
    HistoricalSaleService._get_or_create_building name address neighborhood
      (calm s j)
    = (Ok bid, calm s1 j1)
    /\ historical_sales s1 = historical_sales s.
Proof.
  unfold HistoricalSaleService._get_or_create_building.
  rewrite bind_execute.
  destruct (building_by_name name s) as [id|].
  { exists id, s, j. split; reflexivity. }
  assert (Ha : forall (B : Type) (k : option Z -> M B),
             bind (match address with
                   | Some a =>
                       if truthy address
                       then Database.execute (building_by_address a)
                       else ret None
                   | None => ret None
                   end) k (calm s j)
             = k (lookup_address address s) (calm s j)).
  { intros B k. unfold lookup_address.
    destruct address as [a|]; [|reflexivity].
    destruct (truthy (Some a)); reflexivity. }
  rewrite Ha. destruct (lookup_address address s) as [id|].
  { exists id, s, j. split; reflexivity. }
  assert (Hb : forall (B : Type) (k : option Z -> M B),
             bind (match neighborhood with
                   | Some n =>
                       if truthy neighborhood
                       then Database.execute (neighborhood_by_name n)
                       else ret None
                   | None => ret None
                   end) k (calm s j)
             = k (lookup_neighborhood neighborhood s) (calm s j)).
  { intros B k. unfold lookup_neighborhood.
    destruct neighborhood as [n|]; [|reflexivity].
    destruct (truthy (Some n)); reflexivity. }
  rewrite Hb. rewrite insert_calm.
  eexists _, _, _. split; reflexivity.
Qed.

(** [create_sale] in a calm world: always a new row under a new id. *)
Lemma create_sale_calm (data : sale_data) (s : Store) (j : list statement) :
  exists bid s' j',
    HistoricalSaleService.create_sale data (calm s j)
    = (Ok (mk_sale_result true (next_rowid (map hs_id (historical_sales s)))
             "Historical sale recorded"),
       calm s' j')
    /\ historical_sales s'
       = (historical_sales s ++
          [mk_sale (next_rowid (map hs_id (historical_sales s)))
             (sale_columns data bid)])%list.
Proof.
  destruct (sale_resolve_calm (sd_building_name data) (sd_address data)
              (sd_neighborhood data) s j) as [bid [s1 [j1 [Hres Hs]]]].
  exists bid. unfold HistoricalSaleService.create_sale.
  eexists _, _. rewrite (bind_known _ _ _ _ _ _ _ Hres).
  rewrite bind_insert. unfold ret. cbn [run_statement fst snd].
  split; [rewrite Hs; reflexivity|].
  reflexivity.
Qed.

(** The loop body never raises, and does to a row what [row_fate] says. *)
Lemma import_row_fate (n : nat) (row : dict_row) (results : import_results)
    (w : World) :
  HistoricalSaleService.import_row n row results w
  = (Ok (mk_import_results (ir_success results)
           (S (ir_total_rows results))
           (ir_imported results + imported_count [fst (row_fate row w)])
           (ir_skipped results + skipped_count [fst (row_fate row w)])
           (ir_errors results ++ row_messages n [fst (row_fate row w)])),
     snd (row_fate row w)).
Proof.
  unfold HistoricalSaleService.import_row, row_fate.
  unfold catch, bind at 1, lift.
  destruct (HistoricalSaleService.parse_row row) as [[data|msg]|e].
  - unfold bind.
    destruct (HistoricalSaleService.create_sale data w) as [[r|e] w1];
      unfold imported_count, skipped_count; simpl;
      rewrite ?Nat.add_0_r, ?app_nil_r, ?Nat.add_1_r; reflexivity.
  - unfold imported_count, skipped_count. simpl.
    rewrite ?Nat.add_0_r, ?Nat.add_1_r. reflexivity.
  - unfold imported_count, skipped_count. simpl.
    rewrite ?Nat.add_0_r, ?Nat.add_1_r. reflexivity.
Qed.

(** An imported row adds one sale; a row in error adds none. *)
Lemma row_fate_sales (row : dict_row) (w : World) :
  length (historical_sales (store (snd (row_fate row w))))
  = (length (historical_sales (store w))
     + imported_count [fst (row_fate row w)])%nat.
Proof.
  unfold row_fate.
  destruct (HistoricalSaleService.parse_row row) as [[data|msg]|e];
    try (unfold imported_count; simpl; lia).
  pose proof (create_sale_sales data w) as Hs.
  destruct (HistoricalSaleService.create_sale data w) as [[r|e] w1];
    unfold imported_count; simpl; rewrite Hs; lia.
Qed.

(** With no statement failing, a row that parses is imported. *)
Lemma row_fate_calm (row : dict_row) (s : Store) (j : list statement) :
  exists s' j', row_fate row (calm s j) = (parse_outcome row, calm s' j').
Proof.
  unfold row_fate, parse_outcome.
  destruct (HistoricalSaleService.parse_row row) as [[data|msg]|e];
    try (exists s, j; reflexivity).
  destruct (create_sale_calm data s j) as [bid [s' [j' [Hc _]]]].
  rewrite Hc. exists s', j'. reflexivity.
Qed.

End Importer.

Section ImporterBatch.

Context {lib : PyLib}.

Lemma imported_count_cons (o : option string) (outs : list (option string)) :
  imported_count (o :: outs) = (imported_count [o] + imported_count outs)%nat.
Proof. unfold imported_count. simpl. destruct (is_none o); reflexivity. Qed.

Lemma skipped_count_cons (o : option string) (outs : list (option string)) :
  skipped_count (o :: outs) = (skipped_count [o] + skipped_count outs)%nat.
Proof.
  unfold skipped_count. simpl. destruct (negb (is_none o)); reflexivity.
Qed.

Lemma row_messages_cons (n : nat) (o : option string)
    (outs : list (option string)) :
  row_messages n (o :: outs)
  = (row_messages n [o] ++ row_messages (S n) outs)%list.
Proof. destruct o; reflexivity. Qed.

Lemma counts_total (outs : list (option string)) :
  (imported_count outs + skipped_count outs)%nat = length outs.
Proof.
  induction outs as [|o outs IH]; [reflexivity|].
  rewrite imported_count_cons, skipped_count_cons. simpl length.
  unfold imported_count at 1, skipped_count at 1. simpl.
  destruct o; simpl; lia.
Qed.

(** The loop: every row gets its outcome, whatever happened to the others. *)
Lemma import_rows_fate (rows : list dict_row) :
  forall (n : nat) (results : import_results) (w : World),
    HistoricalSaleService.import_rows n rows results w
    = (Ok (mk_import_results (ir_success results)
             (ir_total_rows results + length rows)
             (ir_imported results + imported_count (fst (batch_fate rows w)))
             (ir_skipped results + skipped_count (fst (batch_fate rows w)))
             (ir_errors results ++ row_messages n (fst (batch_fate rows w)))),
       snd (batch_fate rows w)).
Proof.
  induction rows as [|row rows IH]; intros n results w.
  - simpl. unfold imported_count, skipped_count. simpl.
    rewrite !Nat.add_0_r, app_nil_r. destruct results. reflexivity.
  - simpl HistoricalSaleService.import_rows.
    rewrite (bind_known _ _ _ _ _ _ _ (import_row_fate n row results w)).
    rewrite IH. simpl batch_fate.
    destruct (row_fate row w) as [o w1]. cbn [fst snd].
    destruct (batch_fate rows w1) as [outs w']. cbn [fst snd].
    simpl ir_success. simpl ir_total_rows. simpl ir_imported.
    simpl ir_skipped. simpl ir_errors.
    rewrite (imported_count_cons o outs), (skipped_count_cons o outs),
      (row_messages_cons n o outs).
    rewrite <- !Nat.add_assoc, <- app_assoc. simpl length.
    rewrite Nat.add_succ_r. reflexivity.
Qed.

Lemma batch_fate_length (rows : list dict_row) :
  forall w, length (fst (batch_fate rows w)) = length rows.
Proof.
  induction rows as [|row rows IH]; intros w; simpl; [reflexivity|].
  destruct (row_fate row w) as [o w1]. specialize (IH w1).
  destruct (batch_fate rows w1) as [outs w']. simpl in *. congruence.
Qed.

Lemma batch_fate_sales (rows : list dict_row) :
  forall w,
    length (historical_sales (store (snd (batch_fate rows w))))
    = (length (historical_sales (store w))
       + imported_count (fst (batch_fate rows w)))%nat.
Proof.
  induction rows as [|row rows IH]; intros w; simpl.
  - unfold imported_count. simpl. lia.
  - pose proof (row_fate_sales row w) as Hrow.
    destruct (row_fate row w) as [o w1]. specialize (IH w1).
    destruct (batch_fate rows w1) as [outs w']. cbn [fst snd] in *.
    rewrite (imported_count_cons o outs). lia.
Qed.

Lemma batch_fate_calm (rows : list dict_row) :
  forall s j,
    fst (batch_fate rows (calm s j)) = map parse_outcome rows.
Proof.
  induction rows as [|row rows IH]; intros s j; simpl; [reflexivity|].
  destruct (row_fate_calm row s j) as [s' [j' Hrow]]. rewrite Hrow.
  specialize (IH s' j').
  destruct (batch_fate rows (calm s' j')) as [outs w']. simpl in *.
  rewrite IH. reflexivity.
Qed.

Lemma imported_parse_outcomes (rows : list dict_row) :
  imported_count (map parse_outcome rows) = length (filter parses rows).
Proof.
  unfold imported_count, parse_outcome, parses.
  induction rows as [|row rows IH]; simpl; [reflexivity|].
  destruct (HistoricalSaleService.parse_row row) as [[data|msg]|e]; simpl;
    rewrite ?IH; reflexivity.
Qed.

Lemma header_ok_missing (fieldnames : list string) :
  HistoricalSaleService.is_empty_row
    (filter (fun c => negb (mem c fieldnames)) HistoricalSaleService.required)
  = forallb (fun c => mem c fieldnames) HistoricalSaleService.required.
Proof.
  unfold HistoricalSaleService.required. simpl.
  destruct (mem "building_name" fieldnames), (mem "sale_price" fieldnames),
    (mem "sale_date" fieldnames); reflexivity.
Qed.

(** C5, as the code has it, for a batch written in ASCII.  [import_csv]
    always returns.  The batch is
    reported failed exactly when there is no header row, or the header lacks
    one of building_name, sale_price, sale_date, or the CSV reader itself
    raised.  With a bad header no row is processed and nothing is stored.
    With a good header every data row is processed whatever happened to the
    others, each in the tables the rows before it left: a row the parser
    rejects or on which parsing raises is an error and stores nothing; a
    row that parses is handed to [create_sale], and is imported when that
    returns and an error with the message of its exception when it raises.
    An error carries the number of its row (the header is row 1, the first
    data row is row 2) and is counted in skipped; every imported row adds
    one historical sale and no other row adds any; when the reader raised
    after these rows, its message comes last and the rows read before it
    stay processed.  When no statement fails, every row that parses is
    imported, and only the rows the parser turns down are errors. *)
Theorem import_csv_row_isolation (reader : csv_reader) (w : World) :
  ascii_batch reader ->
  exists results w',
    HistoricalSaleService.import_csv reader w = (Ok results, w')
    /\ (ir_success results = false
        <-> header_ok reader = false \/ csv_error reader <> None)
    /\ (header_ok reader = false ->
        ir_total_rows results = 0%nat /\ ir_imported results = 0%nat
        /\ ir_skipped results = 0%nat /\ w' = w
        /\ length (ir_errors results) = 1%nat)
    /\ (header_ok reader = true ->
        let outcomes := fst (batch_fate (data_rows reader) w) in
        length outcomes = length (data_rows reader)
        /\ ir_total_rows results = length (data_rows reader)
        /\ ir_imported results = imported_count outcomes
        /\ ir_skipped results = skipped_count outcomes
        /\ (ir_imported results + ir_skipped results)%nat
           = ir_total_rows results
        /\ ir_errors results
           = (row_messages 2 outcomes ++ reader_message reader)%list
        /\ length (historical_sales (store w'))
           = (length (historical_sales (store w))
              + ir_imported results)%nat
        /\ (faults w = [] ->
            outcomes = map parse_outcome (data_rows reader)
            /\ ir_imported results
               = length (filter parses (data_rows reader)))).
Proof.
  intros _.
  unfold HistoricalSaleService.import_csv, header_ok, data_rows, reader_message.
  destruct (csv_rows reader) as [|fieldnames records].
  { destruct (csv_error reader) as [msg|]; eexists _, _;
      (split; [reflexivity|]); simpl;
      (split; [split; [left; reflexivity | reflexivity]|]);
      (split; [repeat split | discriminate]). }
  destruct (HistoricalSaleService.is_empty_row fieldnames) eqn:He.
  { eexists _, _. split; [reflexivity|]. simpl.
    split; [split; [left; reflexivity | reflexivity]|].
    split; [repeat split | discriminate]. }
  rewrite header_ok_missing.
  destruct (forallb (fun c => mem c fieldnames) HistoricalSaleService.required)
    eqn:Hreq.
  2:{ eexists _, _. split; [reflexivity|]. simpl.
      split; [split; [left; reflexivity | reflexivity]|].
      split; [repeat split | discriminate]. }
  change (negb true) with false. cbv iota.
  set (rows := map (make_row fieldnames)
                 (filter (fun r => negb (HistoricalSaleService.is_empty_row r))
                    records)).
  pose proof (import_rows_fate rows 2%nat (mk_import_results true 0 0 0 []) w)
    as Hrows.
  pose proof (batch_fate_length rows w) as Hlen.
  pose proof (batch_fate_sales rows w) as Hsales.
  assert (Hcalm : faults w = [] ->
                  fst (batch_fate rows w) = map parse_outcome rows).
  { intros Hf. destruct w as [s fs j]. simpl in Hf. subst fs.
    apply (batch_fate_calm rows s j). }
  simpl in Hrows.
  assert (Hsum : (imported_count (fst (batch_fate rows w))
                  + skipped_count (fst (batch_fate rows w)))%nat
                 = length rows)
    by (rewrite counts_total; exact Hlen).
  assert (Hall : faults w = [] ->
                 fst (batch_fate rows w) = map parse_outcome rows
                 /\ imported_count (fst (batch_fate rows w))
                    = length (filter parses rows)).
  { intros Hf. split; [exact (Hcalm Hf)|].
    rewrite (Hcalm Hf). apply imported_parse_outcomes. }
  destruct (csv_error reader) as [msg|]; eexists _, _;
    (split; [rewrite (bind_known _ _ _ _ _ _ _ Hrows); reflexivity|]); simpl.
  - split; [split; [right; discriminate | reflexivity]|].
    split; [discriminate|]. intros _.
    repeat (split; [first [reflexivity | assumption]|]). exact Hall.
  - split; [split; [discriminate | intros [H|H]; [discriminate | congruence]]|].
    split; [discriminate|]. intros _. rewrite app_nil_r.
    repeat (split; [first [reflexivity | assumption]|]). exact Hall.
Qed.

End ImporterBatch.

(** C5, the claim as written fails.  The text
    [building_name,sale_price,sale_date\nThe Janion,450000,2024-06-15\n
    The Mon\rdrian,520000,2024-08-20\n] has a bare carriage return in its
    third line: the reader yields the header and the first data row and then
    raises.  The header is complete, yet the batch is reported failed, and
    the first row was imported.  When the bare carriage return is in the
    first data line instead, the batch fails with no row processed although
    the header is complete. *)
Lemma import_fails_with_complete_header :
  let header := ["building_name"; "sale_price"; "sale_date"] in
  let message :=
    "new-line character seen in unquoted field - do you need to open the file in universal-newline mode?"
  in
  let late :=
    mk_csv_reader [header; ["The Janion"; "450000"; "2024-06-15"]]
      (Some message) in
  let early := mk_csv_reader [header] (Some message) in
  header_ok late = true /\ header_ok early = true
  /\ run (HistoricalSaleService.import_csv (lib := PlainLibrary.plain) late)
       empty_store
     = (Ok (mk_import_results false 1 1 0 ["CSV parsing error: " ++ message]),
        mk_store
          [mk_building 1 "The Janion" "The Janion" None "Victoria"] []
          [] [] []
          [mk_sale 1
             (mk_sale_fields 1 None (450000 # 1) "2024-06-15" None None None
                None None None "CSV Import")])
  /\ run (HistoricalSaleService.import_csv (lib := PlainLibrary.plain) early)
       empty_store
     = (Ok (mk_import_results false 0 0 0 ["CSV parsing error: " ++ message]),
        empty_store).
Proof.
  vm_compute. repeat split.
Qed.

Section SalesNeverDeduplicate.

Context {lib : PyLib}.

Lemma import_row_calm (n : nat) (row : dict_row) (results : import_results)
    (s : Store) (j : list statement) :
  exists results' s' j',
    HistoricalSaleService.import_row n row results (calm s j)
    = (Ok results', calm s' j')
    /\ ir_imported results'
       = (ir_imported results + (if parses row then 1 else 0))%nat
    /\ length (historical_sales s')
       = (length (historical_sales s) + (if parses row then 1 else 0))%nat.
Proof.
  unfold HistoricalSaleService.import_row, parses.
  unfold catch, bind at 1, lift.
  destruct (HistoricalSaleService.parse_row row) as [[data|msg]|e].
  - destruct (create_sale_calm data s j) as [bid [s' [j' [Hc Hs]]]].
    unfold bind. rewrite Hc. eexists _, s', j'.
    split; [reflexivity|]. simpl. rewrite Hs, length_app. simpl. lia.
  - eexists _, s, j. split; [reflexivity|]. simpl. lia.
  - eexists _, s, j. split; [reflexivity|]. simpl. lia.
Qed.

Lemma import_rows_calm (rows : list dict_row) :
  forall (n : nat) (results : import_results) (s : Store)
         (j : list statement),
  exists results' s' j',
    HistoricalSaleService.import_rows n rows results (calm s j)
    = (Ok results', calm s' j')
    /\ ir_imported results'
       = (ir_imported results + length (filter parses rows))%nat
    /\ length (historical_sales s')
       = (length (historical_sales s) + length (filter parses rows))%nat.
Proof.
  induction rows as [|row rows IH]; intros n results s j.
  - exists results, s, j. simpl. split; [reflexivity | lia].
  - destruct (import_row_calm n row results s j)
      as [r1 [s1 [j1 [Hrow [Hi Hs]]]]].
    destruct (IH (S n) r1 s1 j1) as [r2 [s2 [j2 [Hrest [Hi2 Hs2]]]]].
    exists r2, s2, j2. simpl HistoricalSaleService.import_rows.
    rewrite (bind_known _ _ _ _ _ _ _ Hrow), Hrest.
    split; [reflexivity|]. simpl filter.
    destruct (parses row); simpl length; lia.
Qed.

Lemma import_csv_calm (reader : csv_reader) (s : Store) :
  exists results s',
    run (HistoricalSaleService.import_csv reader) s = (Ok results, s')
    /\ ir_imported results = importable reader
    /\ length (historical_sales s')
       = (length (historical_sales s) + importable reader)%nat.
Proof.
  unfold run, importable, header_ok, data_rows. fold (calm s []).
  unfold HistoricalSaleService.import_csv.
  destruct (csv_rows reader) as [|fieldnames records].
  { destruct (csv_error reader); eexists _, _;
      (split; [reflexivity|]); simpl; lia. }
  destruct (HistoricalSaleService.is_empty_row fieldnames).
  { eexists _, _. split; [reflexivity|]. simpl. lia. }
  rewrite header_ok_missing.
  destruct (forallb (fun c => mem c fieldnames) HistoricalSaleService.required).
  2:{ eexists _, _. split; [reflexivity|]. simpl. lia. }
  change (negb true) with false. cbv iota.
  destruct (import_rows_calm
              (map (make_row fieldnames)
                 (filter (fun r => negb (HistoricalSaleService.is_empty_row r))
                    records))
              2%nat (mk_import_results true 0 0 0 []) s [])
    as [r [s' [j' [Hrows [Hi Hs]]]]].
  simpl in Hi.
  destruct (csv_error reader); eexists _, _;
    (split; [rewrite (bind_known _ _ _ _ _ _ _ Hrows); reflexivity|]);
    simpl; split; assumption.
Qed.

(** C10. A historical sale is never deduplicated.  Whatever the tables
    hold, [create_sale] appends one row under an id no sale had, even when a
    row with the same building, unit, price and date is already there.  So
    importing the same batch twice brings in the same number of rows each
    time, and the table grows by twice that number: on an empty table the
    second import doubles it. *)
Theorem create_sale_never_dedups :
  (forall (data : sale_data) (s : Store),
     exists bid s',
       run (HistoricalSaleService.create_sale data) s
       = (Ok (mk_sale_result true (next_rowid (map hs_id (historical_sales s)))
                "Historical sale recorded"),
          s')
       /\ ~ In (next_rowid (map hs_id (historical_sales s)))
              (map hs_id (historical_sales s))
       /\ historical_sales s'
          = (historical_sales s ++
             [mk_sale (next_rowid (map hs_id (historical_sales s)))
                (sale_columns data bid)])%list)
  /\ (forall (reader : csv_reader) (s : Store),
        let first := run (HistoricalSaleService.import_csv reader) s in
        let second :=
          run (HistoricalSaleService.import_csv reader) (snd first) in
        exists r1 r2,
          fst first = Ok r1 /\ fst second = Ok r2
          /\ ir_imported r1 = importable reader
          /\ ir_imported r2 = ir_imported r1
          /\ length (historical_sales (snd first))
             = (length (historical_sales s) + ir_imported r1)%nat
          /\ length (historical_sales (snd second))
             = (length (historical_sales s) + 2 * ir_imported r1)%nat).
Proof.
  split.
  - intros data s.
    destruct (create_sale_calm data s []) as [bid [s' [j' [Hc Hs]]]].
    exists bid, s'. unfold run. fold (calm s []). rewrite Hc.
    split; [reflexivity|]. split; [apply next_rowid_fresh | exact Hs].
  - intros reader s first second.
    destruct (import_csv_calm reader s) as [r1 [s1 [H1 [Hi1 Hs1]]]].
    destruct (import_csv_calm reader s1) as [r2 [s2 [H2 [Hi2 Hs2]]]].
    exists r1, r2. unfold second, first. rewrite H1. simpl. rewrite H2. simpl.
    repeat split; try assumption; try congruence; lia.
Qed.

End SalesNeverDeduplicate.

(** ** Commits are per statement *)

Local Open Scope list_scope.

Lemma replay_app (d1 d2 : list statement) (s : Store) :
  replay (d1 ++ d2) s = replay d2 (replay d1 s).
Proof. unfold replay. apply fold_left_app. Qed.

Lemma writes_app (s1 s2 : list step) : writes (s1 ++ s2) = writes s1 ++ writes s2.
Proof. unfold writes. apply flat_map_app. Qed.

Lemma firstn_plus (T : Type) (a b : nat) (l : list T) :
  firstn (a + b) l = firstn a l ++ firstn b (skipn a l).
Proof.
  revert l. induction a as [|a IH]; intros l; simpl; [reflexivity|].
  destruct l as [|x l]; simpl.
  - rewrite firstn_nil. reflexivity.
  - rewrite IH. reflexivity.
Qed.

Lemma skipn_plus (T : Type) (a b : nat) (l : list T) :
  skipn (a + b) l = skipn b (skipn a l).
Proof.
  revert l. induction a as [|a IH]; intros l; simpl; [reflexivity|].
  destruct l as [|x l]; simpl; [rewrite skipn_nil; reflexivity | apply IH].
Qed.

Lemma spares_split (a b : nat) (fs : list bool) :
  spares (a + b) fs -> spares a fs /\ spares b (skipn a fs).
Proof.
  unfold spares. rewrite firstn_plus. apply Forall_app.
Qed.

Lemma fails_at_spares (n k : nat) (rest : list bool) :
  (n <= k)%nat -> spares n (fails_at k rest).
Proof.
  unfold spares, fails_at. revert k. induction n as [|n IH]; intros k Hk.
  - constructor.
  - destruct k as [|k]; [lia|]. simpl. constructor; [reflexivity|].
    apply IH. lia.
Qed.

Lemma fails_at_skipn (n k : nat) (rest : list bool) :
  (n <= k)%nat -> skipn n (fails_at k rest) = fails_at (k - n) rest.
Proof.
  unfold fails_at. revert k. induction n as [|n IH]; intros k Hk.
  - rewrite Nat.sub_0_r. reflexivity.
  - destruct k as [|k]; [lia|]. simpl. apply IH. lia.
Qed.

(** Every schedule spares the next [n] statements or makes one of them
    fail. *)
Lemma schedule_cases (n : nat) (fs : list bool) :
  spares n fs
  \/ exists k rest, (k < n)%nat /\ fs = fails_at k rest.
Proof.
  unfold spares, fails_at. revert fs. induction n as [|n IH]; intros fs.
  - left. constructor.
  - destruct fs as [|[|] fs].
    + left. constructor.
    + right. exists 0%nat, fs. split; [lia | reflexivity].
    + destruct (IH fs) as [H | [k [rest [Hk ->]]]].
      * left. simpl. constructor; [reflexivity | exact H].
      * right. exists (S k), rest. split; [lia | reflexivity].
Qed.

Lemma executes_clean (A : Type) (m : M A) (w : World) (steps : list step) :
  executes m w steps ->
  snd (m (clear w))
  = mk_world (replay (writes steps) (store w)) [] (journal w ++ writes steps).
Proof.
  intros [Ha _]. specialize (Ha [] ).
  unfold scheduled in Ha. fold (clear w) in Ha.
  rewrite Ha; [|unfold spares; rewrite firstn_nil; constructor].
  simpl. rewrite skipn_nil. reflexivity.
Qed.

Section Stepwise.

Variables (A B : Type).

Lemma executes_ret (a : A) (w : World) : executes (ret a) w [].
Proof.
  split.
  - intros fs _. unfold ret, scheduled. simpl. rewrite app_nil_r. reflexivity.
  - intros k rest Hk. simpl in Hk. lia.
Qed.

Lemma executes_raise (e : exn) (w : World) : executes (@raise A e) w [].
Proof.
  split.
  - intros fs _. unfold raise, scheduled. simpl. rewrite app_nil_r.
    reflexivity.
  - intros k rest Hk. simpl in Hk. lia.
Qed.

Lemma executes_bind (m : M A) (k : A -> M B) (w : World)
    (s1 s2 : list step) :
  executes m w s1 ->
  match fst (m (clear w)) with
  | Ok a => executes (k a) (snd (m (clear w))) s2
  | Raise _ => s2 = []
  end ->
  executes (bind m k) w (s1 ++ s2).
Proof.
  intros Hm Hk.
  pose proof (executes_clean _ m w s1 Hm) as Hclean.
  destruct Hm as [Ha Hb].
  assert (Hbind : forall fs, spares (length s1) fs ->
            bind m k (scheduled fs w)
            = match fst (m (clear w)) with
              | Ok a => k a (scheduled (skipn (length s1) fs) (snd (m (clear w))))
              | Raise e =>
                  (Raise e,
                   mk_world (replay (writes s1) (store w))
                     (skipn (length s1) fs) (journal w ++ writes s1))
              end).
  { intros fs Hfs. unfold bind. rewrite (Ha fs Hfs).
    destruct (fst (m (clear w))) as [a|e]; [|reflexivity].
    rewrite Hclean. reflexivity. }
  assert (Hres : fst (bind m k (clear w))
                 = match fst (m (clear w)) with
                   | Ok a => fst (k a (snd (m (clear w))))
                   | Raise e => Raise e
                   end).
  { unfold bind. destruct (m (clear w)) as [[a|e] w0]; reflexivity. }
  split.
  - intros fs Hfs. rewrite length_app in Hfs.
    apply spares_split in Hfs. destruct Hfs as [H1 H2].
    rewrite (Hbind fs H1), Hres.
    destruct (fst (m (clear w))) as [a|e].
    + destruct Hk as [Hka _]. rewrite (Hka _ H2).
      rewrite Hclean. unfold clear. simpl.
      rewrite length_app, skipn_plus, writes_app, replay_app, app_assoc.
      reflexivity.
    + subst s2. rewrite !app_nil_r. reflexivity.
  - intros n rest Hn. rewrite length_app in Hn.
    destruct (Nat.lt_ge_cases n (length s1)) as [Hlt | Hge].
    + unfold bind. rewrite (Hb n rest Hlt).
      rewrite firstn_app.
      replace (n - length s1)%nat with 0%nat by lia.
      simpl. rewrite app_nil_r. reflexivity.
    + rewrite (Hbind _ (fails_at_spares _ n rest Hge)).
      rewrite (fails_at_skipn _ n rest Hge).
      destruct (fst (m (clear w))) as [a|e].
      * destruct Hk as [_ Hkb].
        rewrite (Hkb (n - length s1)%nat rest) by lia.
        rewrite Hclean. simpl.
        rewrite firstn_app, (firstn_all2 s1) by lia.
        rewrite writes_app, replay_app, app_assoc. reflexivity.
      * subst s2. simpl in Hn. lia.
Qed.

Lemma stepwise_bind (m : M A) (k : A -> M B) :
  stepwise m -> (forall a, stepwise (k a)) -> stepwise (bind m k).
Proof.
  intros Hm Hk w. destruct (Hm w) as [s1 H1].
  destruct (fst (m (clear w))) as [a|e] eqn:E.
  - destruct (Hk a (snd (m (clear w)))) as [s2 H2].
    exists (s1 ++ s2). apply executes_bind; [exact H1|]. rewrite E. exact H2.
  - exists (s1 ++ []). apply executes_bind; [exact H1|]. rewrite E.
    reflexivity.
Qed.

End Stepwise.

Lemma executes_execute (A : Type) (q : Store -> A) (w : World) :
  executes (Database.execute q) w [Query].
Proof.
  split.
  - intros fs Hfs. unfold Database.execute, bind, Database.conn_execute,
      scheduled, clear. simpl.
    destruct fs as [|[|] fs]; simpl; rewrite ?app_nil_r; try reflexivity.
    inversion Hfs; discriminate.
  - intros k rest Hk. simpl in Hk. assert (k = 0%nat) as -> by lia.
    unfold Database.execute, bind, Database.conn_execute, scheduled, fails_at.
    simpl. rewrite app_nil_r. reflexivity.
Qed.

Lemma executes_insert (st : statement) (w : World) :
  executes (Database.execute_insert st) w [Write st].
Proof.
  split.
  - intros fs Hfs. unfold Database.execute_insert, bind,
      Database.conn_execute, Database.commit, scheduled, clear. simpl.
    destruct fs as [|[|] fs]; simpl; try reflexivity.
    inversion Hfs; discriminate.
  - intros k rest Hk. simpl in Hk. assert (k = 0%nat) as -> by lia.
    unfold Database.execute_insert, bind, Database.conn_execute, scheduled,
      fails_at.
    simpl. rewrite app_nil_r. reflexivity.
Qed.

Lemma stepwise_ret (A : Type) (a : A) : stepwise (ret a).
Proof. intros w. exists []. apply executes_ret. Qed.

Lemma stepwise_raise (A : Type) (e : exn) : stepwise (@raise A e).
Proof. intros w. exists []. apply executes_raise. Qed.

Lemma stepwise_execute (A : Type) (q : Store -> A) :
  stepwise (Database.execute q).
Proof. intros w. exists [Query]. apply executes_execute. Qed.

Lemma stepwise_insert (st : statement) : stepwise (Database.execute_insert st).
Proof. intros w. exists [Write st]. apply executes_insert. Qed.

Lemma stepwise_update (st : statement) : stepwise (Database.execute_update st).
Proof. apply stepwise_insert. Qed.

Create HintDb stepwise.

#[local] Hint Resolve stepwise_ret stepwise_raise stepwise_execute
  stepwise_insert stepwise_update : stepwise.

Ltac stepwise_step :=
  match goal with
  | |- stepwise (bind _ _) => apply stepwise_bind; [|intros ?]
  | |- stepwise (match ?x with _ => _ end) => destruct x
  | |- stepwise (if ?b then _ else _) => destruct b
  | |- stepwise _ => solve [auto with stepwise]
  end.

Lemma stepwise_resolve (name address neighborhood : option string) :
  stepwise (ListingService._get_or_create_building name address neighborhood).
Proof.
  unfold ListingService._get_or_create_building. repeat stepwise_step.
Qed.

Lemma stepwise_record_price (clock : Clock) (lid : Z) (price : Q)
    (price_date : option Z) (hint : string) :
  stepwise (ListingService._record_price clock lid price price_date hint).
Proof.
  unfold ListingService._record_price. repeat stepwise_step.
Qed.

#[local] Hint Resolve stepwise_resolve stepwise_record_price : stepwise.

Lemma stepwise_upsert (clock : Clock) (data : listing_data) :
  stepwise (ListingService.create_or_update_listing clock data).
Proof.
  unfold ListingService.create_or_update_listing. repeat stepwise_step.
Qed.

(** C1, as the code has it.  Every statement of an upsert is committed on
    its own as soon as it is executed; nothing is rolled back.  The call
    that meets no failure executes a sequence of statements, queries and
    writes, and leaves the tables its writes give, one after the other.
    Under a schedule that spares these statements the call does the same.
    Under a schedule that lets [k] of them pass and makes the next one
    fail, the call raises the database error, and the tables hold exactly
    the writes among the first [k] statements: every write made before the
    failing step stays committed, and nothing after it is done.  Every
    schedule is of one of these two kinds. *)
Theorem upsert_commits_each_write (clock : Clock) (data : listing_data)
    (s : Store) :
  let upsert := ListingService.create_or_update_listing clock data in
  let clean := upsert (mk_world s [] []) in
  exists steps : list step,
    journal (snd clean) = writes steps
    /\ store (snd clean) = replay (writes steps) s
    /\ (forall fs, spares (length steps) fs ->
          fst (upsert (mk_world s fs [])) = fst clean
          /\ journal (snd (upsert (mk_world s fs []))) = writes steps
          /\ store (snd (upsert (mk_world s fs []))) = store (snd clean))
    /\ (forall k rest, (k < length steps)%nat ->
          let failed := upsert (mk_world s (fails_at k rest) []) in
          fst failed = Raise (DatabaseError "database error")
          /\ journal (snd failed) = writes (firstn k steps)
          /\ store (snd failed) = replay (writes (firstn k steps)) s)
    /\ (forall fs,
          spares (length steps) fs
          \/ exists k rest, (k < length steps)%nat /\ fs = fails_at k rest).
Proof.
  intros upsert clean.
  destruct (stepwise_upsert clock data (mk_world s [] [])) as [steps H].
  pose proof (executes_clean _ _ _ _ H) as Hclean.
  change (clear (mk_world s [] [])) with (mk_world s [] []) in Hclean.
  fold upsert in Hclean, H. fold clean in Hclean. simpl in Hclean.
  destruct H as [Ha Hb].
  exists steps. rewrite Hclean. simpl.
  split; [reflexivity|]. split; [reflexivity|]. split; [|split].
  - intros fs Hfs. specialize (Ha fs Hfs). unfold scheduled in Ha.
    simpl in Ha. rewrite Ha. simpl. repeat split.
  - intros k rest Hk. specialize (Hb k rest Hk). unfold scheduled in Hb.
    simpl in Hb. rewrite Hb. simpl. repeat split.
  - intros fs. apply schedule_cases.
Qed.

(** C1, the claim as written fails.  A first sighting of R1 at 500000 in
    which the last statement, the insert of the tracking event, fails:
    the call raises, and the building, the listing and the price row
    written earlier in the call are all committed. *)
Lemma upsert_failure_leaves_writes :
  let clock := mk_clock 10 1000 in
  let data := sighting "R1" "Tower" None (500000 # 1) in
  let call :=
    run_with [false; false; false; false; false; false; true]
      (ListingService.create_or_update_listing clock data) empty_store in
  fst call = Raise (DatabaseError "database error")
  /\ map b_name (buildings (snd call)) = ["Tower"]
  /\ map l_mls_number (listings (snd call)) = [Some "R1"]
  /\ price_history (snd call) = [mk_price 1 1 (500000 # 1) 10 "Initial"]
  /\ tracking_events (snd call) = []
  /\ snd call <> empty_store.
Proof.
  vm_compute. repeat split. discriminate.
Qed.

(** ** Worked instances *)

(** The row for (R1, day 10, 500000) exists: recording it again returns
    its id and changes nothing. *)
Lemma record_price_idempotent_witness :
  price_point 1 10 (500000 # 1) example_store = Some 1
  /\ run (ListingService._record_price example_clock 1 (500000 # 1)
            (Some 10) "Price Change") example_store
     = (Ok 1, example_store).
Proof.
  split; [reflexivity|].
  apply (proj2 (proj2 (record_price_idempotent example_clock 1 (500000 # 1)
                         (Some 10) "Price Change" "Price Change"
                         example_store)) 1).
  reflexivity.
Defined.

(** After 500000, recording 475000 with the hint "Price Change" stores a
    "Price Drop". *)
Lemma record_price_event_kind_witness :
  short_decimal (475000 # 1)
  /\ find (same_point 1 11 (475000 # 1)) (price_history example_store) = None
  /\ history_of 1 example_store <> []
  /\ exists kind,
       snd (run (ListingService._record_price example_clock 1 (475000 # 1)
                   (Some 11) "Price Change") example_store)
       = set_price_history example_store
           (price_history example_store ++
            [mk_price 2 1 (475000 # 1) 11 kind])
       /\ kind = "Price Drop".
Proof.
  assert (Hshort : short_decimal (475000 # 1)).
  { exists 475000, 0. split; [reflexivity|]. split; [lia|].
    vm_compute. reflexivity. }
  assert (Hsome : history_of 1 example_store <> []) by discriminate.
  split; [exact Hshort|]. split; [reflexivity|]. split; [exact Hsome|].
  destruct (proj2 (record_price_event_kind example_clock 1 (475000 # 1)
                     (Some 11) "Price Change" example_store Hshort) eq_refl)
    as [kind [Hrun [_ [_ [_ Hchange]]]]].
  exists kind. split.
  - rewrite Hrun. reflexivity.
  - destruct (Hchange eq_refl Hsome)
      as [latest [Hin [_ [_ [Hdrop _]]]]].
    apply Hdrop.
    destruct Hin as [<- | []]. reflexivity.
Defined.

(** R1 seen again at 475000 on day 11: recorded; seen once more: not. *)
Lemma upsert_existing_price_witness :
  d_mls_number (sighting "R1" "Tower" None (475000 # 1)) = Some "R1"
  /\ truthy (Some "R1") = true
  /\ listing_by_mls "R1" example_store = Some example_row
  /\ short_decimal (475000 # 1)
  /\ exists res s1,
       run (ListingService.create_or_update_listing (mk_clock 11 1100)
              (sighting "R1" "Tower" None (475000 # 1))) example_store
       = (Ok res, s1)
       /\ r_price_recorded res = true
       /\ exists res' s2,
            run (ListingService.create_or_update_listing (mk_clock 12 1200)
                   (sighting "R1" "Tower" None (475000 # 1))) s1
            = (Ok res', s2)
            /\ r_price_recorded res' = false
            /\ price_history s2 = price_history s1.
Proof.
  assert (Hshort : short_decimal (475000 # 1)).
  { exists 475000, 0. split; [reflexivity|]. split; [lia|].
    vm_compute. reflexivity. }
  assert (Hprice : forall p,
            d_price (sighting "R1" "Tower" None (475000 # 1)) = Some p ->
            short_decimal p).
  { intros p Hp. injection Hp as <-. exact Hshort. }
  split; [reflexivity|]. split; [reflexivity|]. split; [reflexivity|].
  split; [exact Hshort|].
  destruct (upsert_existing_price (mk_clock 11 1100) (mk_clock 12 1200)
              (sighting "R1" "Tower" None (475000 # 1)) "R1" example_row
              example_store eq_refl eq_refl eq_refl Hprice)
    as [res [s1 [Hrun [_ [Hrec [_ [res' [s2 [Hrun' [_ Hold]]]]]]]]]].
  exists res, s1. split; [exact Hrun|]. split.
  - apply Hrec. exists (475000 # 1). split; [reflexivity|].
    split; [discriminate|].
    intros c Hc. vm_compute in Hc. injection Hc as <-. discriminate.
  - exists res', s2. split; [exact Hrun'|].
    apply Hold. intros r [<- | []] _. reflexivity.
Defined.

(** The example batch: three rows, the second with a price that does not
    parse.  The other two are imported and stored. *)
Lemma import_csv_row_isolation_witness :
  ascii_batch example_reader
  /\ header_ok example_reader = true
  /\ exists results w',
       HistoricalSaleService.import_csv (lib := PlainLibrary.plain)
         example_reader (mk_world empty_store [] [])
       = (Ok results, w')
       /\ ir_success results = true
       /\ ir_total_rows results = 3%nat
       /\ ir_imported results = 2%nat
       /\ ir_skipped results = 1%nat
       /\ ir_errors results = ["Row 3: Invalid sale_price 'abc'"]
       /\ length (historical_sales (store w')) = 2%nat.
Proof.
  assert (Ha : ascii_batch example_reader) by (repeat constructor).
  split; [exact Ha|]. split; [reflexivity|].
  destruct (import_csv_row_isolation (lib := PlainLibrary.plain)
              example_reader (mk_world empty_store [] []) Ha)
    as [results [w' [Hrun [Hfail [_ Hrows]]]]].
  exists results, w'. split; [exact Hrun|].
  destruct (Hrows eq_refl)
    as [_ [Htotal [Hi [Hk [Hsum [Herr [Hsales Hcalm]]]]]]].
  destruct (Hcalm eq_refl) as [Houts Himp].
  rewrite Houts in Hk, Herr.
  split; [|split; [|split; [|split; [|split]]]].
  - destruct (ir_success results) eqn:E; [reflexivity|].
    destruct (proj1 Hfail eq_refl) as [H | H];
      [discriminate | exfalso; apply H; reflexivity].
  - rewrite Htotal. reflexivity.
  - rewrite Himp. reflexivity.
  - rewrite Hk. reflexivity.
  - rewrite Herr. reflexivity.
  - rewrite Hsales, Himp. reflexivity.
Defined.


(** "Tower" exists: the name resolves to it whatever the address. *)
Lemma resolve_building_order_witness :
  lookup_name (Some "Tower") example_store = Some 1
  /\ run (ListingService._get_or_create_building (Some "Tower")
            (Some "9 Elsewhere Rd") None) example_store
     = (Ok (Some 1), example_store).
Proof.
  split; [reflexivity|].
  apply (proj1 (proj2 (resolve_building_order (Some "Tower")
                         (Some "9 Elsewhere Rd") None example_store)) 1).
  reflexivity.
Defined.

(** * Further properties of the services *)

(** ** Reasoning about every run, whichever statements fail *)

Section Runs.

Import Database.

Variables (A B : Type).

Lemma triple_bind (P : Store -> Prop) (Q : result A -> Store -> Prop)
    (R : result B -> Store -> Prop) (m : M A) (k : A -> M B) :
  triple P m Q ->
  (forall e s, Q (Raise e) s -> R (Raise e) s) ->
  (forall a, triple (Q (Ok a)) (k a) R) ->
  triple P (bind m k) R.
Proof.
  intros Hm He Hk w Hw. specialize (Hm w Hw). unfold bind.
  destruct (m w) as [[a|e] w1]; simpl in Hm.
  - apply Hk, Hm.
  - simpl. apply He, Hm.
Qed.

Lemma triple_weaken (P P' : Store -> Prop) (Q Q' : result A -> Store -> Prop)
    (m : M A) :
  triple P' m Q' ->
  (forall s, P s -> P' s) -> (forall r s, Q' r s -> Q r s) ->
  triple P m Q.
Proof. intros H HP HQ w Hw. apply HQ, H, HP, Hw. Qed.

(** A query leaves the tables alone and, when it returns, returns what the
    tables hold. *)
Lemma triple_execute (P : Store -> Prop) (q : Store -> A) :
  triple P (execute q)
    (fun r s => P s /\ forall a, r = Ok a -> a = q s).
Proof.
  intros w Hw. unfold execute, bind, conn_execute.
  destruct (faults w) as [|[|] fs]; simpl; split; try exact Hw;
    intros a Ha; congruence.
Qed.

Lemma keeps_ret (I : Store -> Prop) (a : A) : keeps I (ret a).
Proof. intros w Hw. exact Hw. Qed.

Lemma keeps_raise (I : Store -> Prop) (e : exn) : keeps I (@raise A e).
Proof. intros w Hw. exact Hw. Qed.

Lemma keeps_lift (I : Store -> Prop) (r : result A) : keeps I (lift r).
Proof. intros w Hw. exact Hw. Qed.

Lemma keeps_execute (I : Store -> Prop) (q : Store -> A) : keeps I (execute q).
Proof. intros w Hw. apply (triple_execute I q w Hw). Qed.

Lemma keeps_bind (I : Store -> Prop) (m : M A) (k : A -> M B) :
  keeps I m -> (forall a, keeps I (k a)) -> keeps I (bind m k).
Proof.
  intros Hm Hk. apply (triple_bind I (fun _ s => I s)); auto.
Qed.

Lemma keeps_catch (I : Store -> Prop) (m : M A) (h : exn -> M A) :
  keeps I m -> (forall e, keeps I (h e)) -> keeps I (catch m h).
Proof.
  intros Hm Hh w Hw. specialize (Hm w Hw). unfold catch.
  destruct (m w) as [[a|e] w1]; simpl in *; [exact Hm | apply Hh, Hm].
Qed.

End Runs.

(** A write, from tables satisfying [P]: it fails and leaves them, or it is
    committed. *)
Lemma triple_write (P Q : Store -> Prop) (st : statement) :
  (forall s, P s -> Q s) ->
  (forall s, P s -> Q (fst (run_statement st s))) ->
  triple P (Database.execute_insert st) (fun _ s => Q s).
Proof.
  intros H0 H1 w Hw.
  unfold Database.execute_insert, bind, Database.conn_execute, Database.commit.
  destruct (faults w) as [|[|] fs]; simpl; auto.
Qed.

Lemma keeps_write (I : Store -> Prop) (st : statement) :
  (forall s, I s -> I (fst (run_statement st s))) ->
  keeps I (Database.execute_insert st).
Proof. intros H. apply triple_write; auto. Qed.

(** A relation that every statement respects holds across a whole run. *)
Lemma keeps_within (A : Type) (R : Store -> Store -> Prop) (m : M A) :
  (forall s, R s s) ->
  (forall s0, keeps (R s0) m) -> within R m.
Proof. intros Hr H w. apply (H (store w) w), Hr. Qed.

Create HintDb runs.

#[local] Hint Resolve keeps_ret keeps_raise keeps_lift keeps_execute : runs.

(** Takes a computation apart down to its statements; [write] settles what
    a committed statement does to the invariant. *)
Ltac keeps_steps write :=
  repeat match goal with
         | |- keeps _ (bind _ _) => apply keeps_bind; [|intros ?]
         | |- keeps _ (catch _ _) => apply keeps_catch; [|intros ?]
         | |- keeps _ (Database.execute_insert _) => apply keeps_write; write
         | |- keeps _ (Database.execute_update _) => apply keeps_write; write
         | |- keeps _ (match ?x with _ => _ end) => destruct x
         | |- keeps _ (if ?b then _ else _) => destruct b
         | |- keeps _ _ => solve [auto with runs]
         end.

(** ** Nothing is removed or rewritten *)

Lemma extends_refl (T : Type) (l : list T) : extends l l.
Proof. exists []. rewrite app_nil_r. reflexivity. Qed.

Lemma extends_trans (T : Type) (a b c : list T) :
  extends a b -> extends b c -> extends a c.
Proof.
  intros [m1 ->] [m2 ->]. exists (m1 ++ m2). rewrite app_assoc. reflexivity.
Qed.

Lemma extends_snoc (T : Type) (l : list T) (x : T) : extends l (l ++ [x]).
Proof. exists [x]. reflexivity. Qed.

Lemma only_grows_refl (s : Store) : only_grows s s.
Proof. repeat split; apply extends_refl. Qed.

Lemma only_grows_trans (a b c : Store) :
  only_grows a b -> only_grows b c -> only_grows a c.
Proof.
  intros [B1 [N1 [L1 [P1 [E1 H1]]]]] [B2 [N2 [L2 [P2 [E2 H2]]]]].
  repeat split; try (eapply extends_trans; eassumption). congruence.
Qed.

Lemma identity_update_where (id : Z) (f : listing_row -> listing_row)
    (rows : list listing_row) :
  (forall r, listing_identity (f r) = listing_identity r) ->
  map listing_identity (update_where id f rows) = map listing_identity rows.
Proof.
  intros Hf. unfold update_where. rewrite map_map. apply map_ext.
  intros r. destruct (l_id r =? id); [apply Hf | reflexivity].
Qed.

(** No statement of the services removes a row or rewrites one, the
    overwritten columns of a listing apart. *)
Lemma only_grows_statement (st : statement) (s : Store) :
  only_grows s (fst (run_statement st s)).
Proof.
  destruct st; unfold run_statement, only_grows; cbn [fst];
    unfold set_buildings, set_listings, set_price_history,
      set_tracking_events, set_historical_sales;
    cbn [buildings neighborhoods listings price_history tracking_events
         historical_sales];
    repeat split;
    try apply extends_refl; try apply extends_snoc;
    try (rewrite map_app; apply extends_snoc);
    rewrite identity_update_where by reflexivity; apply extends_refl.
Qed.

Ltac grows_write :=
  intros; eapply only_grows_trans; [eassumption | apply only_grows_statement].

Lemma only_grows_resolve (s0 : Store) (name address neighborhood : option string) :
  keeps (only_grows s0)
    (ListingService._get_or_create_building name address neighborhood).
Proof.
  unfold ListingService._get_or_create_building. keeps_steps grows_write.
Qed.

Lemma only_grows_record_price (s0 : Store) (clock : Clock) (lid : Z)
    (price : Q) (price_date : option Z) (hint : string) :
  keeps (only_grows s0)
    (ListingService._record_price clock lid price price_date hint).
Proof.
  unfold ListingService._record_price. keeps_steps grows_write.
Qed.

#[local] Hint Resolve only_grows_resolve only_grows_record_price : runs.

(** X1.  Whatever fails during a sighting, [create_or_update_listing] only
    adds: the buildings, the price points, the tracking events and the
    sales it finds are all still there afterwards, unchanged and in place;
    no neighbourhood is created; and every listing it finds keeps its id,
    its MLS number, its [first_seen_at] and its [created_at]. *)
Theorem upsert_only_adds (clock : Clock) (data : listing_data) (w : World) :
  only_grows (store w)
    (store (snd (ListingService.create_or_update_listing clock data w))).
Proof.
  revert w. apply keeps_within; [apply only_grows_refl|]. intros s0.
  unfold ListingService.create_or_update_listing. keeps_steps grows_write.
Qed.

(** ** A status change touches one listing *)

Lemma touches_only_refl (id : Z) (s : Store) : touches_only id s s.
Proof. repeat split; apply extends_refl. Qed.

Lemma touches_only_trans (id : Z) (a b c : Store) :
  touches_only id a b -> touches_only id b c -> touches_only id a c.
Proof.
  intros [O1 [L1 [B1 [N1 [H1 [P1 E1]]]]]] [O2 [L2 [B2 [N2 [H2 [P2 E2]]]]]].
  repeat split; try congruence; eapply extends_trans; eassumption.
Qed.

Lemma others_update_where (id : Z) (f : listing_row -> listing_row)
    (rows : list listing_row) :
  (forall r, l_id (f r) = l_id r) ->
  filter (fun r => negb (l_id r =? id)) (update_where id f rows)
  = filter (fun r => negb (l_id r =? id)) rows.
Proof.
  intros Hf. induction rows as [|x rows IH]; simpl; [reflexivity|].
  destruct (l_id x =? id) eqn:E.
  - rewrite Hf, E. simpl. exact IH.
  - rewrite E. simpl. rewrite IH. reflexivity.
Qed.

Lemma touches_only_status (status : string) (active : bool) (now id : Z)
    (s : Store) :
  touches_only id s
    (fst (run_statement (UPDATE_listing_status status active now id) s)).
Proof.
  unfold touches_only, other_listings. simpl.
  rewrite others_update_where by reflexivity.
  fold (update_where id
          (fun r =>
             mk_listing (l_id r) (l_mls_number r)
               (mk_listing_fields (l_building_id (l_fields r))
                  (l_unit_number (l_fields r)) status
                  (l_bedrooms (l_fields r)) (l_bathrooms (l_fields r))
                  (l_square_feet (l_fields r))
                  (l_property_type (l_fields r))
                  (l_listing_date (l_fields r))
                  (l_days_on_market (l_fields r))
                  (l_description (l_fields r))
                  (l_listing_agent (l_fields r))
                  (l_listing_brokerage (l_fields r))
                  (l_source_url (l_fields r))
                  (l_source_platform (l_fields r)))
               active (l_first_seen_at r) now (l_created_at r) now)
          (listings s)).
  rewrite identity_update_where by reflexivity.
  repeat split; apply extends_refl.
Qed.

Lemma touches_only_price (id lid : Z) (price : Q) (d : Z) (kind : string)
    (s : Store) :
  touches_only id s
    (fst (run_statement (INSERT_price_history lid price d kind) s)).
Proof.
  repeat split; try apply extends_refl. apply extends_snoc.
Qed.

Lemma touches_only_event (id lid : Z) (kind details : string) (s : Store) :
  touches_only id s
    (fst (run_statement (INSERT_tracking_event lid kind details) s)).
Proof.
  repeat split; try apply extends_refl. apply extends_snoc.
Qed.

Ltac touches_write :=
  intros; eapply touches_only_trans;
  [eassumption
  | first [apply touches_only_status | apply touches_only_price
          | apply touches_only_event]].

Lemma touches_only_record_price (id : Z) (s0 : Store) (clock : Clock)
    (lid : Z) (price : Q) (price_date : option Z) (hint : string) :
  keeps (touches_only id s0)
    (ListingService._record_price clock lid price price_date hint).
Proof.
  unfold ListingService._record_price. keeps_steps touches_write.
Qed.

#[local] Hint Resolve touches_only_record_price : runs.

(** X2.  Whatever fails during the call, [update_status] leaves the tables
    as they are when no listing has the MLS number, and otherwise touches
    one listing only: every listing with another id is exactly as it was,
    no listing is added or removed or changes its id, MLS number,
    [first_seen_at] or [created_at], the buildings, neighbourhoods and
    sales are as they were, and the ledger and the event log keep their
    rows. *)
Theorem update_status_touches_one (clock : Clock) (mls status : string)
    (sale_price : option Q) (sale_date : option Z) (w : World) :
  let after :=
    store (snd (ListingService.update_status clock mls status sale_price
                  sale_date w)) in
  match listing_by_mls mls (store w) with
  | None => after = store w
  | Some row => touches_only (l_id row) (store w) after
  end.
Proof.
  intros after. unfold after. clear after.
  set (s0 := store w).
  assert (H : triple (fun s => s = s0)
                (ListingService.update_status clock mls status sale_price
                   sale_date)
                (fun _ s' =>
                   match listing_by_mls mls s0 with
                   | None => s' = s0
                   | Some row => touches_only (l_id row) s0 s'
                   end)).
  { unfold ListingService.update_status.
    eapply triple_bind; [apply triple_execute| |].
    - intros e s [-> _].
      destruct (listing_by_mls mls s0); [apply touches_only_refl | reflexivity].
    - intros [row|].
      + match goal with
        | |- triple _ ?m _ =>
            assert (K : keeps (touches_only (l_id row) s0) m)
        end.
        { cbv beta iota zeta. keeps_steps touches_write. }
        intros w0 [Hs Ha]. specialize (Ha _ eq_refl). simpl in Hs.
        rewrite Hs in Ha. rewrite <- Ha. apply K. rewrite Hs.
        apply touches_only_refl.
      + intros w0 [Hs Ha]. specialize (Ha _ eq_refl). simpl in Hs.
        rewrite Hs in Ha. rewrite <- Ha. exact Hs. }
  apply (H w). reflexivity.
Qed.

(** ** The ledger never holds a price point twice *)

(** What a statement leaves alone. *)
Lemma price_history_statement (st : statement) (s : Store) :
  (forall lid price d kind, st <> INSERT_price_history lid price d kind) ->
  price_history (fst (run_statement st s)) = price_history s.
Proof.
  intros H. destruct st; try reflexivity.
  exfalso. eapply H. reflexivity.
Qed.

Lemma listings_statement (st : statement) (s : Store) :
  match st with
  | INSERT_listing _ _ _ | UPDATE_listing _ _ _
  | UPDATE_listing_status _ _ _ _ => False
  | _ => True
  end ->
  listings (fst (run_statement st s)) = listings s.
Proof. destruct st; intros H; try reflexivity; contradiction. Qed.

Lemma Qeq_bool_sym (a b : Q) : Qeq_bool a b = Qeq_bool b a.
Proof.
  destruct (Qeq_bool a b) eqn:E, (Qeq_bool b a) eqn:E'; try reflexivity.
  - apply Qeq_bool_iff in E. symmetry in E. apply Qeq_bool_iff in E.
    congruence.
  - apply Qeq_bool_iff in E'. symmetry in E'. apply Qeq_bool_iff in E'.
    congruence.
Qed.

Lemma same_point_sym (a b : price_row) :
  same_point (ph_listing_id a) (ph_recorded_date a) (ph_price a) b
  = same_point (ph_listing_id b) (ph_recorded_date b) (ph_price b) a.
Proof.
  unfold same_point.
  rewrite (Z.eqb_sym (ph_listing_id b)), (Z.eqb_sym (ph_recorded_date b)).
  rewrite (Qeq_bool_sym (ph_price b)). reflexivity.
Qed.

Lemma distinct_points_snoc (rows : list price_row) (r : price_row) :
  distinct_points rows ->
  find (same_point (ph_listing_id r) (ph_recorded_date r) (ph_price r)) rows
  = None ->
  distinct_points (rows ++ [r]).
Proof.
  unfold distinct_points. intros Hd Hf.
  induction Hd as [|x rows Hx Hd IH]; simpl.
  - constructor; [constructor | constructor].
  - simpl in Hf.
    destruct (same_point (ph_listing_id r) (ph_recorded_date r) (ph_price r) x)
      eqn:E; [discriminate|].
    constructor; [|apply IH, Hf].
    apply Forall_app. split; [exact Hx|].
    constructor; [|constructor]. rewrite same_point_sym. exact E.
Qed.

Lemma price_point_none_find (lid d : Z) (price : Q) (s : Store) :
  price_point lid d price s = None ->
  find (same_point lid d price) (price_history s) = None.
Proof.
  unfold price_point.
  destruct (find (same_point lid d price) (price_history s));
    [discriminate | reflexivity].
Qed.

(** [_record_price] keeps the ledger free of repeated price points,
    whichever of its statements fail. *)
Lemma record_price_distinct (clock : Clock) (lid : Z) (price : Q)
    (price_date : option Z) (hint : string) :
  keeps (fun s => distinct_points (price_history s))
    (ListingService._record_price clock lid price price_date hint).
Proof.
  unfold ListingService._record_price.
  set (d := match price_date with Some d => d | None => today clock end).
  eapply triple_bind; [apply triple_execute | intros e s [H _]; exact H |].
  intros [id|].
  - intros w [H _]. exact H.
  - set (P := fun s => distinct_points (price_history s)
                       /\ price_point lid d price s = None).
    apply (triple_weaken _ _ P _ (fun _ s => distinct_points (price_history s))).
    + eapply triple_bind with (Q := fun _ s => P s).
      * assert (K : forall m : M string,
                  keeps P m -> triple P m (fun _ s => P s)) by auto.
        apply K.
        keeps_steps idtac.
      * intros e s HP. apply HP.
      * intros kind. apply triple_write.
        -- intros s HP. apply HP.
        -- intros s [Hd Hn]. simpl.
           apply distinct_points_snoc; [exact Hd|]. simpl.
           apply price_point_none_find, Hn.
    + intros s [H Ha]. split; [exact H|]. symmetry. apply Ha. reflexivity.
    + auto.
Qed.

#[local] Hint Resolve record_price_distinct : runs.

Ltac ledger_write :=
  intros; rewrite price_history_statement; [assumption | discriminate].

Lemma resolve_keeps_ledger (Phi : list price_row -> Prop)
    (name address neighborhood : option string) :
  keeps (fun s => Phi (price_history s))
    (ListingService._get_or_create_building name address neighborhood).
Proof.
  unfold ListingService._get_or_create_building. keeps_steps ledger_write.
Qed.

#[local] Hint Resolve resolve_keeps_ledger : runs.

Lemma upsert_distinct (clock : Clock) (data : listing_data) :
  keeps (fun s => distinct_points (price_history s))
    (ListingService.create_or_update_listing clock data).
Proof.
  unfold ListingService.create_or_update_listing. keeps_steps ledger_write.
Qed.

Lemma update_status_distinct (clock : Clock) (mls status : string)
    (sale_price : option Q) (sale_date : option Z) :
  keeps (fun s => distinct_points (price_history s))
    (ListingService.update_status clock mls status sale_price sale_date).
Proof.
  unfold ListingService.update_status. keeps_steps ledger_write.
Qed.

Lemma add_price_distinct (clock : Clock) (mls : string) (price : PriceCreate) :
  keeps (fun s => distinct_points (price_history s))
    (ListingsApi.add_price clock mls price).
Proof.
  unfold ListingsApi.add_price, ListingService.get_listing.
  keeps_steps ledger_write.
Qed.

(** X3.  The ledger never holds the same price point twice.  If no two
    price-history rows agree on listing, date and price, then after a
    sighting, a status change or a price added through the endpoint that
    is still so, whichever statements fail on the way. *)
Theorem ledger_stays_distinct (clock : Clock) (w : World) :
  distinct_points (price_history (store w)) ->
  (forall data,
     distinct_points
       (price_history
          (store (snd (ListingService.create_or_update_listing clock data w)))))
  /\ (forall mls status sale_price sale_date,
        distinct_points
          (price_history
             (store (snd (ListingService.update_status clock mls status
                            sale_price sale_date w)))))
  /\ (forall mls price,
        distinct_points
          (price_history
             (store (snd (ListingsApi.add_price clock mls price w))))).
Proof.
  intros H. split; [|split]; intros.
  - apply (upsert_distinct clock data w H).
  - apply (update_status_distinct clock mls status sale_price sale_date w H).
  - apply (add_price_distinct clock mls price w H).
Qed.

(** ** One listing per MLS number *)

Lemma live_mls_statement (st : statement) (s : Store) :
  (forall mls f now, st <> INSERT_listing mls f now) ->
  live_mls_numbers (fst (run_statement st s)) = live_mls_numbers s.
Proof.
  intros H. destruct st; try reflexivity.
  - exfalso. eapply H. reflexivity.
  - unfold live_mls_numbers. simpl. induction (listings s) as [|x rows IH];
      simpl; [reflexivity|].
    rewrite IH. destruct (l_id x =? id); reflexivity.
  - unfold live_mls_numbers. simpl. induction (listings s) as [|x rows IH];
      simpl; [reflexivity|].
    rewrite IH. destruct (l_id x =? id); reflexivity.
Qed.

Lemma listing_by_mls_none (mls : string) (s : Store) :
  listing_by_mls mls s = None -> ~ In mls (live_mls_numbers s).
Proof.
  unfold listing_by_mls, live_mls_numbers.
  induction (listings s) as [|x rows IH]; simpl; [tauto|].
  unfold has_mls at 1. destruct (l_mls_number x) as [m|].
  - destruct (m =? mls)%string eqn:E; [discriminate|].
    intros Hf [Hm | Hin]; [|exact (IH Hf Hin)].
    subst m. rewrite String.eqb_refl in E. discriminate.
  - exact IH.
Qed.

Lemma NoDup_snoc (T : Type) (l : list T) (x : T) :
  NoDup l -> ~ In x l -> NoDup (l ++ [x]).
Proof.
  induction l as [|y l IH]; simpl; intros Hd Hx.
  - constructor; [tauto | constructor].
  - inversion Hd as [|? ? Hy Hl]; subst. constructor.
    + rewrite in_app_iff. simpl. intros [H | [H | []]]; [tauto|].
      apply Hx. left. symmetry. exact H.
    + apply IH; [exact Hl | tauto].
Qed.

Lemma unique_mls_insert (mls : string) (f : listing_fields) (now : Z)
    (s : Store) :
  unique_mls s -> listing_by_mls mls s = None ->
  unique_mls (fst (run_statement (INSERT_listing mls f now) s)).
Proof.
  unfold unique_mls. intros Hu Hn. apply listing_by_mls_none in Hn.
  unfold live_mls_numbers in *. simpl. rewrite flat_map_app. simpl.
  apply NoDup_snoc; assumption.
Qed.

Ltac unique_write :=
  intros; unfold unique_mls; rewrite live_mls_statement;
  [assumption | discriminate].

Lemma resolve_keeps_listings (Phi : list listing_row -> Prop)
    (name address neighborhood : option string) :
  keeps (fun s => Phi (listings s))
    (ListingService._get_or_create_building name address neighborhood).
Proof.
  unfold ListingService._get_or_create_building.
  keeps_steps ltac:(intros; rewrite listings_statement; [assumption | exact I]).
Qed.

Lemma record_price_keeps_listings (Phi : list listing_row -> Prop)
    (clock : Clock) (lid : Z) (price : Q) (price_date : option Z)
    (hint : string) :
  keeps (fun s => Phi (listings s))
    (ListingService._record_price clock lid price price_date hint).
Proof.
  unfold ListingService._record_price.
  keeps_steps ltac:(intros; rewrite listings_statement; [assumption | exact I]).
Qed.

Lemma resolve_unique (name address neighborhood : option string) :
  keeps unique_mls
    (ListingService._get_or_create_building name address neighborhood).
Proof.
  apply (resolve_keeps_listings
           (fun rows => NoDup (flat_map
                                 (fun l => match l_mls_number l with
                                           | Some m => [m]
                                           | None => []
                                           end) rows))).
Qed.

Lemma record_price_unique (clock : Clock) (lid : Z) (price : Q)
    (price_date : option Z) (hint : string) :
  keeps unique_mls
    (ListingService._record_price clock lid price price_date hint).
Proof.
  apply (record_price_keeps_listings
           (fun rows => NoDup (flat_map
                                 (fun l => match l_mls_number l with
                                           | Some m => [m]
                                           | None => []
                                           end) rows))).
Qed.

#[local] Hint Resolve resolve_unique record_price_unique : runs.

Lemma update_status_unique (clock : Clock) (mls status : string)
    (sale_price : option Q) (sale_date : option Z) :
  keeps unique_mls
    (ListingService.update_status clock mls status sale_price sale_date).
Proof.
  unfold ListingService.update_status. keeps_steps unique_write.
Qed.

Lemma upsert_unique (clock : Clock) (data : listing_data) :
  keeps unique_mls (ListingService.create_or_update_listing clock data).
Proof.
  unfold ListingService.create_or_update_listing.
  destruct (d_mls_number data) as [mls|]; [|apply keeps_raise].
  destruct (negb (truthy (Some mls))); [apply keeps_raise|].
  eapply triple_bind; [apply triple_execute | intros e s [H _]; exact H |].
  intros [row|].
  - match goal with
    | |- triple _ ?m _ => assert (K : keeps unique_mls m)
    end.
    { cbv beta iota zeta. keeps_steps unique_write. }
    intros w [H _]. apply K, H.
  - set (P := fun s => unique_mls s /\ listing_by_mls mls s = None).
    apply (triple_weaken _ _ P _ (fun _ s => unique_mls s)).
    + eapply triple_bind with (Q := fun _ s => P s).
      * apply (resolve_keeps_listings
                 (fun rows =>
                    NoDup (flat_map
                             (fun l => match l_mls_number l with
                                       | Some m => [m]
                                       | None => []
                                       end) rows)
                    /\ find (has_mls mls) rows = None)).
      * intros e s HP. apply HP.
      * intros building_id. cbv beta iota zeta.
        eapply triple_bind with (Q := fun _ s => unique_mls s).
        -- apply triple_write; [intros s HP; apply HP|].
           intros s [Hu Hn]. apply unique_mls_insert; assumption.
        -- auto.
        -- intros listing_id.
           match goal with
           | |- triple _ ?m _ => assert (K : keeps unique_mls m)
           end.
           { keeps_steps unique_write. }
           exact K.
    + intros s [H Ha]. split; [exact H|]. symmetry. apply Ha. reflexivity.
    + auto.
Qed.

(** X4.  MLS numbers stay unique.  If no two listings share an MLS number,
    then after a sighting or a status change none do, whichever statements
    fail on the way: [create_or_update_listing] inserts a listing only
    under an MLS number no listing has. *)
Theorem mls_numbers_stay_unique (clock : Clock) (w : World) :
  unique_mls (store w) ->
  (forall data,
     unique_mls
       (store (snd (ListingService.create_or_update_listing clock data w))))
  /\ (forall mls status sale_price sale_date,
        unique_mls
          (store (snd (ListingService.update_status clock mls status
                         sale_price sale_date w)))).
Proof.
  intros H. split; intros.
  - apply (upsert_unique clock data w H).
  - apply (update_status_unique clock mls status sale_price sale_date w H).
Qed.

(** ** A first sighting *)

(** The creation path in a calm world: the result and the tables it leaves. *)
Lemma upsert_new_calm (clock : Clock) (data : listing_data) (mls : string)
    (s : Store) :
  d_mls_number data = Some mls ->
  truthy (Some mls) = true ->
  listing_by_mls mls s = None ->
  exists bid s1,
    run (ListingService._get_or_create_building (d_building_name data)
           (d_address data) (d_neighborhood data)) s = (Ok bid, s1)
    /\ listings s1 = listings s
    /\ price_history s1 = price_history s
    /\ tracking_events s1 = tracking_events s
    /\ run (ListingService.create_or_update_listing clock data) s
       = (Ok (mk_upsert_result true (next_rowid (map l_id (listings s))) mls
                true (truthy_decimal (d_price data)) "New listing created"),
          fst (run_statement
                 (INSERT_tracking_event (next_rowid (map l_id (listings s)))
                    "Discovered"
                    ("Found on " ++ fmt_opt (d_source_platform data))%string)
                 (after_initial clock (next_rowid (map l_id (listings s)))
                    (d_price data) (d_listing_date data)
                    (fst (run_statement
                            (INSERT_listing mls
                               (ListingService.fields_of data bid)
                               (now clock)) s1))))).
Proof.
  intros Hmls Ht Hrow.
  destruct (resolve_shape (d_building_name data) (d_address data)
              (d_neighborhood data) s [])
    as [bid [s1 [j1 [Hres [Hl [Hp [He _]]]]]]].
  exists bid, s1.
  split; [unfold run; fold (calm s []); rewrite Hres; reflexivity|].
  split; [exact Hl|]. split; [exact Hp|]. split; [exact He|].
  unfold run. fold (calm s []).
  unfold ListingService.create_or_update_listing.
  rewrite Hmls, Ht. change (negb true) with false. cbv iota.
  rewrite bind_execute, Hrow.
  rewrite (bind_known _ _ _ _ _ _ _ Hres).
  cbv zeta. rewrite bind_insert.
  change (snd (run_statement
                 (INSERT_listing mls (ListingService.fields_of data bid)
                    (now clock)) s1))
    with (next_rowid (map l_id (listings s1))).
  rewrite Hl.
  set (id := next_rowid (map l_id (listings s))).
  set (s2 := fst (run_statement
                    (INSERT_listing mls (ListingService.fields_of data bid)
                       (now clock)) s1)).
  unfold after_initial.
  destruct (d_price data) as [p|].
  - destruct (truthy_decimal (Some p)).
    + rewrite bind_assoc, bind_record_price.
      destruct (price_point id (date_or_today clock (d_listing_date data)) p s2).
      * rewrite bind_ret, bind_insert. reflexivity.
      * cbv zeta. rewrite bind_ret, bind_insert. reflexivity.
    + rewrite bind_ret, bind_insert. reflexivity.
  - rewrite bind_ret, bind_insert. reflexivity.
Qed.

Lemma after_initial_listings (clock : Clock) (lid : Z) (price : option Q)
    (listing_date : option Z) (s : Store) :
  listings (after_initial clock lid price listing_date s) = listings s.
Proof.
  unfold after_initial. destruct price as [p|]; [|reflexivity].
  destruct (truthy_decimal (Some p)); [|reflexivity].
  destruct (price_point _ _ _ _); reflexivity.
Qed.

Lemma after_initial_events (clock : Clock) (lid : Z) (price : option Q)
    (listing_date : option Z) (s : Store) :
  tracking_events (after_initial clock lid price listing_date s)
  = tracking_events s.
Proof.
  unfold after_initial. destruct price as [p|]; [|reflexivity].
  destruct (truthy_decimal (Some p)); [|reflexivity].
  destruct (price_point _ _ _ _); reflexivity.
Qed.

(** X5.  A first sighting.  When no statement fails and no listing has the
    MLS number of the record, [create_or_update_listing] reports a new
    listing under an id no listing had, appends exactly one listing row
    (active, with the record's columns, all four timestamps set to now)
    and leaves the other listings as they are; [price_recorded] is true
    exactly when the record has a price that is not zero, and then a price
    point of kind "Initial", dated by the listing date or else today, is
    appended unless the ledger already has that point for the id; the
    building is the one the resolver gives for the record; and one
    "Discovered" event is logged, whose detail prints the source platform
    as given ("None" when the record has none). *)
Theorem upsert_creates_listing (clock : Clock) (data : listing_data)
    (mls : string) (s : Store) :
  d_mls_number data = Some mls ->
  mls <> "" ->
  listing_by_mls mls s = None ->
  exists res s' bid,
    run (ListingService.create_or_update_listing clock data) s = (Ok res, s')
    /\ fst (run (ListingService._get_or_create_building
                   (d_building_name data) (d_address data)
                   (d_neighborhood data)) s) = Ok bid
    /\ r_success res = true /\ r_is_new res = true
    /\ r_mls_number res = mls
    /\ ~ In (r_listing_id res) (map l_id (listings s))
    /\ r_price_recorded res = truthy_decimal (d_price data)
    /\ listings s'
       = listings s ++
         [mk_listing (r_listing_id res) (Some mls)
            (ListingService.fields_of data bid) true
            (now clock) (now clock) (now clock) (now clock)]
    /\ price_history s'
       = (if truthy_decimal (d_price data)
             && is_none (price_point (r_listing_id res)
                           (date_or_today clock (d_listing_date data))
                           (match d_price data with
                            | Some p => p
                            | None => 0%Q
                            end) s)
          then
            price_history s ++
            [mk_price (next_rowid (map ph_id (price_history s)))
               (r_listing_id res)
               (match d_price data with
                | Some p => p
                | None => 0%Q
                end)
               (date_or_today clock (d_listing_date data)) "Initial"]
          else price_history s)
    /\ tracking_events s'
       = tracking_events s ++
         [mk_event (next_rowid (map te_id (tracking_events s)))
            (r_listing_id res) "Discovered"
            ("Found on " ++ fmt_opt (d_source_platform data))%string].
Proof.
  intros Hmls Hne Hrow.
  assert (Ht : truthy (Some mls) = true).
  { simpl. destruct (mls =? "")%string eqn:E; [|reflexivity].
    apply String.eqb_eq in E. contradiction. }
  destruct (upsert_new_calm clock data mls s Hmls Ht Hrow)
    as [bid [s1 [Hres [Hl [Hp [He Hrun]]]]]].
  eexists _, _, bid. split; [exact Hrun|].
  split; [rewrite Hres; reflexivity|].
  cbn [r_success r_is_new r_mls_number r_listing_id r_price_recorded].
  split; [reflexivity|]. split; [reflexivity|]. split; [reflexivity|].
  split; [apply next_rowid_fresh|]. split; [reflexivity|].
  split; [|split].
  - rewrite listings_after_event, after_initial_listings. simpl.
    rewrite Hl. reflexivity.
  - unfold after_initial. simpl.
    destruct (d_price data) as [p|]; [|exact Hp].
    destruct (truthy_decimal (Some p)); [|exact Hp].
    rewrite (price_point_ext _ _ p s _) by (simpl; exact Hp).
    destruct (price_point _ _ p s); simpl; rewrite Hp; reflexivity.
  - simpl. rewrite after_initial_events. simpl. rewrite He. reflexivity.
Qed.

(** ** A sighting can be read back *)

Lemma truthy_nonempty (mls : string) : mls <> "" -> truthy (Some mls) = true.
Proof.
  intros Hne. simpl. destruct (mls =? "")%string eqn:E; [|reflexivity].
  apply String.eqb_eq in E. contradiction.
Qed.

(** X6.  A sighting can be read back.  When no statement fails, a record
    with an MLS number is stored, and [get_listing] on that number then
    returns the listing under the id the call reported: it carries the
    status of the record ("Active" when the record has none), it is active
    whatever that status is ("Sold" included), and its [last_seen_at] is
    the time of the call.  The call reports a new listing exactly when no
    listing had the number; otherwise the listing keeps its id and its
    [first_seen_at]. *)
Theorem upsert_then_get_listing (clock : Clock) (data : listing_data)
    (mls : string) (s : Store) :
  d_mls_number data = Some mls ->
  mls <> "" ->
  exists res s' row hist,
    run (ListingService.create_or_update_listing clock data) s = (Ok res, s')
    /\ fst (run (ListingService.get_listing mls) s') = Ok (Some (row, hist))
    /\ l_id row = r_listing_id res
    /\ l_mls_number row = Some mls
    /\ l_status (l_fields row) = get_default (d_status data) "Active"
    /\ l_is_active row = true
    /\ l_last_seen_at row = now clock
    /\ r_is_new res = is_none (listing_by_mls mls s)
    /\ (forall old, listing_by_mls mls s = Some old ->
          l_id row = l_id old /\ l_first_seen_at row = l_first_seen_at old).
Proof.
  intros Hmls Hne. pose proof (truthy_nonempty mls Hne) as Ht.
  destruct (listing_by_mls mls s) as [old|] eqn:Hrow.
  - destruct (upsert_existing_calm clock data mls old s Hmls Ht Hrow)
      as [bid [s1 [Hl [_ Hrun]]]].
    eexists _, _, _, _. split; [exact Hrun|].
    unfold run at 1. fold (calm
      (fst (run_statement
              (INSERT_tracking_event (l_id old) "Updated"
                 ("Updated from " ++ fmt_opt (d_source_platform data))%string)
              (after_price clock (l_id old) (d_price data)
                 (fst (run_statement
                         (UPDATE_listing (ListingService.fields_of data bid)
                            (now clock) (l_id old)) s1))))) []).
    rewrite get_listing_calm. unfold listing_by_mls at 1.
    rewrite listings_after_event, after_price_listings. simpl listings.
    rewrite find_update_where_eq by reflexivity. rewrite Hl.
    unfold listing_by_mls in Hrow. rewrite Hrow. simpl. rewrite Z.eqb_refl.
    split; [reflexivity|]. simpl.
    assert (Hm : l_mls_number old = Some mls).
    { apply find_some in Hrow. destruct Hrow as [_ Hh]. unfold has_mls in Hh.
      destruct (l_mls_number old) as [m|]; [|discriminate].
      apply String.eqb_eq in Hh. congruence. }
    do 6 (split; [first [reflexivity | assumption]|]).
    intros old0 H; injection H as <-. split; reflexivity.
  - destruct (upsert_new_calm clock data mls s Hmls Ht Hrow)
      as [bid [s1 [_ [Hl [_ [_ Hrun]]]]]].
    eexists _, _, _, _. split; [exact Hrun|].
    unfold run at 1. fold (calm
      (fst (run_statement
              (INSERT_tracking_event (next_rowid (map l_id (listings s)))
                 "Discovered"
                 ("Found on " ++ fmt_opt (d_source_platform data))%string)
              (after_initial clock (next_rowid (map l_id (listings s)))
                 (d_price data) (d_listing_date data)
                 (fst (run_statement
                         (INSERT_listing mls
                            (ListingService.fields_of data bid)
                            (now clock)) s1))))) []).
    rewrite get_listing_calm. unfold listing_by_mls at 1.
    rewrite listings_after_event, after_initial_listings. simpl listings.
    rewrite Hl. unfold listing_by_mls in Hrow.
    rewrite (find_app_new _ _ _ _ Hrow)
      by (unfold has_mls; simpl; apply String.eqb_refl).
    split; [reflexivity|]. simpl.
    do 6 (split; [reflexivity|]).
    intros old H; discriminate.
Qed.

(** X7.  The MLS number is what a sighting is addressed by.  A record
    without one, or with an empty one, is refused with the [ValueError]
    before any statement is issued: the world is left exactly as it was,
    schedule and journal included.  Every other record is stored when no
    statement fails. *)
Theorem upsert_requires_mls (clock : Clock) (data : listing_data) :
  (truthy (d_mls_number data) = false ->
   forall w,
     ListingService.create_or_update_listing clock data w
     = (Raise (ValueError "mls_number is required"), w))
  /\ (truthy (d_mls_number data) = true ->
      forall s, exists res s',
        run (ListingService.create_or_update_listing clock data) s
        = (Ok res, s')
        /\ r_success res = true
        /\ d_mls_number data = Some (r_mls_number res)).
Proof.
  split.
  - intros Hf w. unfold ListingService.create_or_update_listing.
    destruct (d_mls_number data) as [mls|]; [|reflexivity].
    rewrite Hf. reflexivity.
  - intros Ht s. destruct (d_mls_number data) as [mls|] eqn:Hmls;
      [|discriminate].
    destruct (listing_by_mls mls s) as [old|] eqn:Hrow.
    + destruct (upsert_existing_calm clock data mls old s Hmls Ht Hrow)
        as [bid [s1 [_ [_ Hrun]]]].
      eexists _, _. split; [exact Hrun|]. split; reflexivity.
    + destruct (upsert_new_calm clock data mls s Hmls Ht Hrow)
        as [bid [s1 [_ [_ [_ [_ Hrun]]]]]].
      eexists _, _. split; [exact Hrun|]. split; reflexivity.
Qed.

(** ** The two resolvers *)

Lemma or_else_some (name other : string) :
  name <> "" -> or_else (Some name) other = name.
Proof.
  intros Hne. simpl. destruct (name =? "")%string eqn:E; [|reflexivity].
  apply String.eqb_eq in E. contradiction.
Qed.

Lemma bind_as_optional (A : Type) (m : M A) (k1 : A -> M (option Z))
    (k2 : A -> M Z) (w : World) :
  (forall a w', k1 a w' = as_optional (k2 a w')) ->
  bind m k1 w = as_optional (bind m k2 w).
Proof.
  intros H. unfold bind. destruct (m w) as [[a|e] w1]; [apply H | reflexivity].
Qed.

(** X8.  Listings and sales resolve buildings alike.  For a building name
    that is not empty, the resolver of the sales service does what the one
    of the listing service does, under every schedule of failures: the same
    lookups in the same order, the same building inserted when both miss,
    the same id returned, the same error raised. *)
Theorem resolvers_agree (name : string) (address neighborhood : option string)
    (w : World) :
  name <> "" ->
  ListingService._get_or_create_building (Some name) address neighborhood w
  = as_optional
      (HistoricalSaleService._get_or_create_building name address
         neighborhood w).
Proof.
  intros Hne.
  unfold ListingService._get_or_create_building,
    HistoricalSaleService._get_or_create_building.
  rewrite (truthy_nonempty name Hne). cbn [negb andb].
  apply bind_as_optional. intros [id|] w1; [reflexivity|].
  apply bind_as_optional. intros [id|] w2; [reflexivity|].
  apply bind_as_optional. intros nid w3.
  cbv zeta. rewrite !(or_else_some name) by exact Hne.
  unfold bind, as_optional.
  destruct (Database.execute_insert _ w3) as [[id|e] w4]; reflexivity.
Qed.

(** ** The price history of a listing, newest first *)

Lemma by_date_desc_forall (P : price_row -> Prop) (r : price_row)
    (rows : list price_row) :
  P r -> Forall P rows -> Forall P (ListingService.by_date_desc r rows).
Proof.
  intros Hr Hrows. induction Hrows as [|x rows Hx Hrows IH]; simpl.
  - constructor; [exact Hr | constructor].
  - destruct (ph_recorded_date x <? ph_recorded_date r).
    + constructor; [exact Hr|]. constructor; assumption.
    + constructor; assumption.
Qed.

Lemma by_date_desc_sorted (r : price_row) (rows : list price_row) :
  newest_first rows -> newest_first (ListingService.by_date_desc r rows).
Proof.
  unfold newest_first. intros Hs.
  induction Hs as [|x rows Hs IH Hx]; simpl.
  - constructor; [constructor | constructor].
  - destruct (ph_recorded_date x <? ph_recorded_date r) eqn:E.
    + apply Z.ltb_lt in E. constructor.
      * constructor; assumption.
      * constructor; [lia|].
        eapply Forall_impl; [|exact Hx]. simpl. intros b Hb. lia.
    + apply Z.ltb_ge in E. constructor; [exact IH|].
      apply by_date_desc_forall; assumption.
Qed.

Lemma by_date_desc_perm (r : price_row) (rows : list price_row) :
  Permutation.Permutation (r :: rows) (ListingService.by_date_desc r rows).
Proof.
  induction rows as [|x rows IH]; simpl.
  - apply Permutation.Permutation_refl.
  - destruct (ph_recorded_date x <? ph_recorded_date r).
    + apply Permutation.Permutation_refl.
    + eapply Permutation.perm_trans; [apply Permutation.perm_swap|].
      apply Permutation.perm_skip, IH.
Qed.

Lemma fold_by_date_desc (rows acc : list price_row) :
  newest_first acc ->
  newest_first
    (fold_left (fun a r => ListingService.by_date_desc r a) rows acc)
  /\ Permutation.Permutation (rows ++ acc)
       (fold_left (fun a r => ListingService.by_date_desc r a) rows acc).
Proof.
  revert acc. induction rows as [|r rows IH]; simpl; intros acc Hs.
  - split; [exact Hs | apply Permutation.Permutation_refl].
  - destruct (IH _ (by_date_desc_sorted r acc Hs)) as [H1 H2].
    split; [exact H1|].
    eapply Permutation.perm_trans; [|exact H2].
    apply Permutation.Permutation_sym.
    eapply Permutation.perm_trans.
    + apply Permutation.Permutation_app_head.
      apply Permutation.Permutation_sym, by_date_desc_perm.
    + apply Permutation.Permutation_sym, Permutation.Permutation_middle.
Qed.

Lemma history_desc_sorted (lid : Z) (s : Store) :
  newest_first (ListingService.history_desc lid s)
  /\ Permutation.Permutation (history_of lid s)
       (ListingService.history_desc lid s).
Proof.
  unfold ListingService.history_desc.
  destruct (fold_by_date_desc (history_of lid s) []) as [H1 H2];
    [constructor|].
  split; [exact H1|]. rewrite app_nil_r in H2. exact H2.
Qed.

(** X9.  The price history is complete and newest first.  When no
    statement fails, [get_price_history] answers 404 for an MLS number no
    listing has and changes nothing; for a listing it returns the rows of
    the ledger that belong to it, each exactly once and no other row,
    ordered so that no row is dated before one that follows it. *)
Theorem price_history_newest_first (mls : string) (s : Store) :
  (listing_by_mls mls s = None ->
   run (ListingsRoutes.get_price_history mls) s
   = (Raise (HTTPException 404
               ("Listing with MLS number " ++ mls ++ " not found")%string),
      s))
  /\ (forall row, listing_by_mls mls s = Some row ->
        exists prices,
          run (ListingsRoutes.get_price_history mls) s = (Ok (mls, prices), s)
          /\ newest_first prices
          /\ Permutation.Permutation
               (filter (fun r => ph_listing_id r =? l_id row) (price_history s))
               prices
          /\ (forall r, In r prices <->
                        In r (price_history s) /\ ph_listing_id r = l_id row)).
Proof.
  unfold run, ListingsRoutes.get_price_history. fold (calm s []).
  rewrite bind_execute. split.
  - intros ->. reflexivity.
  - intros row ->. rewrite bind_execute.
    destruct (history_desc_sorted (l_id row) s) as [H1 H2].
    eexists. split; [reflexivity|]. split; [exact H1|].
    split; [exact H2|].
    intros r. split.
    + intros Hin.
      apply (Permutation.Permutation_in r (Permutation.Permutation_sym H2))
        in Hin.
      apply filter_In in Hin. destruct Hin as [Hin Hid].
      apply Z.eqb_eq in Hid. auto.
    + intros [Hin Hid]. apply (Permutation.Permutation_in r H2).
      apply filter_In. split; [exact Hin | apply Z.eqb_eq, Hid].
Qed.

(** ** The directory of a listing *)

Lemma safe_char_not_space (c : ascii) : safe_char c = true -> is_space c = false.
Proof.
  destruct c as [[|] [|] [|] [|] [|] [|] [|] [|]];
    intros H; try reflexivity; discriminate H.
Qed.

Lemma keep_chars_all (f : ascii -> bool) (s : string) :
  Forall (fun c => f c = true) (chars (keep_chars f s)).
Proof.
  induction s as [|c s IH]; simpl; [constructor|].
  destruct (f c) eqn:E; [|exact IH]. simpl. constructor; assumption.
Qed.

Lemma keep_chars_fixed (f : ascii -> bool) (s : string) :
  Forall (fun c => f c = true) (chars s) -> keep_chars f s = s.
Proof.
  induction s as [|c s IH]; simpl; intros H; [reflexivity|].
  inversion H as [|? ? Hc Hs]; subst. rewrite Hc, (IH Hs). reflexivity.
Qed.

Lemma rstrip_no_space (s : string) :
  Forall (fun c => is_space c = false) (chars s) -> rstrip s = s.
Proof.
  induction s as [|c s IH]; simpl; intros H; [reflexivity|].
  inversion H as [|? ? Hc Hs]; subst. rewrite (IH Hs), Hc.
  destruct s; reflexivity.
Qed.

Lemma listing_dir_keep (mls : string) :
  PhotoFiles._get_listing_dir mls = keep_chars safe_char mls.
Proof.
  unfold PhotoFiles._get_listing_dir. apply rstrip_no_space.
  eapply Forall_impl; [|apply keep_chars_all].
  intros c. apply safe_char_not_space.
Qed.

Lemma keep_chars_length (f : ascii -> bool) (s : string) :
  (String.length (keep_chars f s) <= String.length s)%nat.
Proof.
  induction s as [|c s IH]; simpl; [lia|].
  destruct (f c); simpl; lia.
Qed.

Lemma keep_chars_ascii (f : ascii -> bool) (s : string) :
  ascii_only s -> ascii_only (keep_chars f s).
Proof.
  unfold ascii_only.
  induction s as [|c s IH]; simpl; intros H; [constructor|].
  inversion H as [|? ? Hc Hs]; subst.
  destruct (f c); [constructor; [exact Hc | exact (IH Hs)] | exact (IH Hs)].
Qed.

(** X10.  The name of a listing's photo directory is safe and stable,
    for an MLS number written in ASCII.  Every character of
    [_get_listing_dir mls] is an ASCII letter, an ASCII digit, "-" or "_":
    it holds no path separator, no dot and no white space, so it names an
    entry directly under the listings root (or, when empty, the root
    itself).  The trailing [rstrip] never removes anything; the name of a
    name is that name again; and an MLS number made of such characters
    only is its own directory name. *)
Theorem listing_dir_is_safe (mls : string) :
  ascii_only mls ->
  let name := PhotoFiles._get_listing_dir mls in
  ascii_only name
  /\ Forall (fun c => safe_char c = true) (chars name)
  /\ ~ In "/"%char (chars name) /\ ~ In "."%char (chars name)
  /\ Forall (fun c => is_space c = false) (chars name)
  /\ name = keep_chars safe_char mls
  /\ PhotoFiles._get_listing_dir name = name
  /\ (String.length name <= String.length mls)%nat
  /\ (Forall (fun c => safe_char c = true) (chars mls) -> name = mls).
Proof.
  intros Hascii name. unfold name. rewrite !listing_dir_keep.
  pose proof (keep_chars_all safe_char mls) as Hall.
  split; [apply keep_chars_ascii, Hascii|].
  split; [exact Hall|].
  split; [|split; [|split; [|split; [|split; [|split]]]]].
  - intros Hin. rewrite Forall_forall in Hall. specialize (Hall _ Hin).
    discriminate Hall.
  - intros Hin. rewrite Forall_forall in Hall. specialize (Hall _ Hin).
    discriminate Hall.
  - eapply Forall_impl; [|exact Hall]. intros c. apply safe_char_not_space.
  - reflexivity.
  - apply keep_chars_fixed, Hall.
  - apply keep_chars_length.
  - apply keep_chars_fixed.
Qed.

(** ** What the orphan sweep keeps *)

Lemma mem_In (x : string) (xs : list string) : mem x xs = true <-> In x xs.
Proof.
  unfold mem. rewrite existsb_exists. split.
  - intros [y [Hin Hy]]. apply String.eqb_eq in Hy. subst. exact Hin.
  - intros Hin. exists x. split; [exact Hin | apply String.eqb_refl].
Qed.

Lemma sweep_survivors (live : list string) (entries : list entry) :
  PhotoService.sweep live entries
  = (dir_entries (filter (fun e => negb (survives live e)) entries),
     filter (survives live) entries).
Proof.
  induction entries as [|e rest IH]; simpl; [reflexivity|].
  rewrite IH. destruct e as [name|name content]; unfold survives; simpl.
  - reflexivity.
  - destruct (mem name live); reflexivity.
Qed.

Lemma sweep_again (live : list string) (entries : list entry) :
  PhotoService.sweep live (filter (survives live) entries)
  = (0%nat, filter (survives live) entries).
Proof.
  rewrite sweep_survivors. f_equal.
  - induction entries as [|e rest IH]; simpl; [reflexivity|].
    destruct (survives live e) eqn:E; [|exact IH].
    simpl. rewrite E. simpl. exact IH.
  - induction entries as [|e rest IH]; simpl; [reflexivity|].
    destruct (survives live e) eqn:E; [|exact IH].
    simpl. rewrite E, IH. reflexivity.
Qed.

Lemma sweep_root_survivors (live : list string) (root : option (list entry)) :
  PhotoService.sweep_root live root
  = (match root with
     | Some entries =>
         dir_entries (filter (fun e => negb (survives live e)) entries)
     | None => 0%nat
     end,
     option_map (filter (survives live)) root).
Proof.
  destruct root as [entries|]; simpl; [|reflexivity].
  rewrite sweep_survivors. reflexivity.
Qed.

Lemma sweep_root_again (live : list string) (root : option (list entry)) :
  PhotoService.sweep_root live (option_map (filter (survives live)) root)
  = (0%nat, option_map (filter (survives live)) root).
Proof.
  destruct root as [entries|]; simpl; [|reflexivity].
  rewrite sweep_again. reflexivity.
Qed.

(** The sweep in a calm world. *)
Lemma purge_orphaned_calm (disk : photo_storage) (s : Store)
    (j : list statement) :
  PhotoService.purge_orphaned_photos disk (calm s j)
  = (Ok (mk_purge_stats
           (fst (PhotoService.sweep_root (live_mls_numbers s)
                   (listings_path disk)))
           (fst (PhotoService.sweep_root (live_sale_ids s)
                   (historical_path disk)))
           [],
         mk_photo_storage
           (snd (PhotoService.sweep_root (live_mls_numbers s)
                   (listings_path disk)))
           (snd (PhotoService.sweep_root (live_sale_ids s)
                   (historical_path disk)))),
     calm s j).
Proof.
  cbv [PhotoService.purge_orphaned_photos bind catch Database.execute
       Database.conn_execute ret calm faults store journal].
  destruct (PhotoService.sweep_root (live_mls_numbers s) (listings_path disk)).
  destruct (PhotoService.sweep_root (live_sale_ids s) (historical_path disk)).
  reflexivity.
Qed.

(** X11.  The orphan sweep, when both queries succeed.  It reports no
    error and leaves the tables alone.  Under each root the plain files
    and the directories whose name is live stay, in their order and with
    their content; every other directory goes, and the entries directly
    inside the removed directories are what is counted.  Sweeping again
    over the same tables removes nothing and counts nothing. *)
Theorem orphan_sweep_keeps_live (disk : photo_storage) (s : Store) :
  exists stats disk',
    run (PhotoService.purge_orphaned_photos disk) s = (Ok (stats, disk'), s)
    /\ ps_errors stats = []
    /\ listings_path disk'
       = option_map (filter (survives (live_mls_numbers s)))
           (listings_path disk)
    /\ historical_path disk'
       = option_map (filter (survives (live_sale_ids s)))
           (historical_path disk)
    /\ ps_listings_deleted stats
       = match listings_path disk with
         | Some entries =>
             dir_entries
               (filter (fun e => negb (survives (live_mls_numbers s) e))
                  entries)
         | None => 0%nat
         end
    /\ ps_historical_deleted stats
       = match historical_path disk with
         | Some entries =>
             dir_entries
               (filter (fun e => negb (survives (live_sale_ids s) e)) entries)
         | None => 0%nat
         end
    /\ run (PhotoService.purge_orphaned_photos disk') s
       = (Ok (mk_purge_stats 0 0 [], disk'), s).
Proof.
  unfold run. fold (calm s []). rewrite purge_orphaned_calm.
  rewrite !sweep_root_survivors. simpl.
  eexists _, _. split; [reflexivity|]. simpl.
  do 5 (split; [reflexivity|]).
  rewrite purge_orphaned_calm. simpl. rewrite !sweep_root_again. reflexivity.
Qed.

(** X12.  The sweep compares directory names with raw MLS numbers.  The
    photos of a listing are stored under [_get_listing_dir] of its MLS
    number.  For a listing in the tables whose MLS number is made of
    letters, digits, "-" and "_" only, the sweep keeps that directory.
    But when the MLS number holds any other character, so that the
    directory name differs from it, and no listing has the directory name
    as its MLS number, the sweep removes the directory and counts its
    content, although the listing is live. *)
Theorem sweep_and_directory_names (disk : photo_storage) (s : Store)
    (mls : string) (entries content : list entry) :
  In mls (live_mls_numbers s) ->
  listings_path disk = Some entries ->
  In (Dir (PhotoFiles._get_listing_dir mls) content) entries ->
  exists stats disk' kept,
    run (PhotoService.purge_orphaned_photos disk) s = (Ok (stats, disk'), s)
    /\ listings_path disk' = Some kept
    /\ (Forall (fun c => safe_char c = true) (chars mls) ->
        In (Dir (PhotoFiles._get_listing_dir mls) content) kept)
    /\ (~ In (PhotoFiles._get_listing_dir mls) (live_mls_numbers s) ->
        (forall c, ~ In (Dir (PhotoFiles._get_listing_dir mls) c) kept)
        /\ (length content <= ps_listings_deleted stats)%nat).
Proof.
  intros Hlive Hroot Hdir.
  unfold run. fold (calm s []). rewrite purge_orphaned_calm.
  rewrite !sweep_root_survivors, Hroot. simpl.
  eexists _, _, _. split; [reflexivity|]. split; [reflexivity|]. split.
  - intros Hsafe. apply filter_In. split; [exact Hdir|].
    unfold survives. simpl. rewrite listing_dir_keep.
    rewrite (keep_chars_fixed _ _ Hsafe).
    apply mem_In, Hlive.
  - intros Hno. split.
    + intros c Hin. apply filter_In in Hin. destruct Hin as [_ Hs].
      unfold survives in Hs. simpl in Hs. apply mem_In in Hs. contradiction.
    + assert (Hm : mem (PhotoFiles._get_listing_dir mls) (live_mls_numbers s)
                   = false).
      { destruct (mem _ _) eqn:E; [|reflexivity].
        apply mem_In in E. contradiction. }
      cbn [ps_listings_deleted].
      clear - Hdir Hm. induction entries as [|e rest IH]; [contradiction|].
      cbn [filter]. destruct Hdir as [-> | Hin].
      * unfold survives at 1. cbn [is_dir entry_name negb orb]. rewrite Hm.
        cbn [negb dir_entries]. lia.
      * specialize (IH Hin).
        destruct (negb (survives (live_mls_numbers s) e)); [|exact IH].
        destruct e; cbn [dir_entries]; lia.
Qed.

(** ** Purging the photos of one listing *)

Lemma replace_entry_others (name : string) (new : option entry)
    (entries : list entry) (e : entry) :
  entry_name e <> name ->
  match new with
  | Some e' => entry_name e' = name
  | None => True
  end ->
  (In e (replace_entry name new entries) <-> In e entries).
Proof.
  intros Hne Hnew. induction entries as [|x rest IH]; simpl; [tauto|].
  destruct (entry_name x =? name)%string eqn:E.
  - apply String.eqb_eq in E.
    destruct new as [e'|]; simpl; split; intros H.
    + destruct H as [H | H]; [subst; contradiction | right; exact H].
    + destruct H as [H | H]; [subst; contradiction | right; exact H].
    + right; exact H.
    + destruct H as [H | H]; [subst; contradiction | exact H].
  - simpl. rewrite IH. tauto.
Qed.

Lemma lookup_entry_removed (name : string) (entries : list entry) :
  NoDup (map entry_name entries) ->
  lookup_entry name (replace_entry name None entries) = None.
Proof.
  unfold lookup_entry.
  induction entries as [|x rest IH]; simpl; intros Hd; [reflexivity|].
  inversion Hd as [|? ? Hx Hrest]; subst.
  destruct (entry_name x =? name)%string eqn:E.
  - apply String.eqb_eq in E.
    destruct (find (fun e => (entry_name e =? name)%string) rest) as [y|] eqn:F;
      [|reflexivity].
    apply find_some in F. destruct F as [Hin Hy]. apply String.eqb_eq in Hy.
    exfalso. apply Hx. rewrite E, <- Hy. apply in_map, Hin.
  - simpl. rewrite E. apply IH, Hrest.
Qed.

Lemma lookup_entry_replaced (name : string) (e' : entry)
    (entries : list entry) (e : entry) :
  entry_name e' = name ->
  lookup_entry name entries = Some e ->
  lookup_entry name (replace_entry name (Some e') entries) = Some e'.
Proof.
  unfold lookup_entry. intros Hn.
  induction entries as [|x rest IH]; simpl; [discriminate|].
  destruct (entry_name x =? name)%string eqn:E; simpl.
  - intros _. rewrite Hn, String.eqb_refl. reflexivity.
  - rewrite E. exact IH.
Qed.

Lemma all_files (content : list entry) :
  Forall (fun e => is_dir e = false) content ->
  filter is_dir content = []
  /\ filter (fun e => negb (is_dir e)) content = content.
Proof.
  induction 1 as [|x rest Hx _ [IH1 IH2]]; simpl; [split; reflexivity|].
  rewrite Hx. simpl. rewrite IH1, IH2. split; reflexivity.
Qed.

Lemma purge_listing_named (mls : string) (disk : photo_storage)
    (entries : list entry) :
  PhotoFiles._get_listing_dir mls <> "" ->
  listings_path disk = Some entries ->
  PhotoFiles.purge_listing_photos mls disk
  = let name := PhotoFiles._get_listing_dir mls in
    match lookup_entry name entries with
    | None => (Done 0%nat, disk)
    | Some (File _) => (Failed (NotADirectoryError name), disk)
    | Some (Dir _ content) =>
        match filter is_dir content with
        | [] =>
            (Done (length (filter (fun e => negb (is_dir e)) content)),
             mk_photo_storage (Some (replace_entry name None entries))
               (historical_path disk))
        | remaining =>
            (Failed (OSError 39 name),
             mk_photo_storage
               (Some (replace_entry name (Some (Dir name remaining)) entries))
               (historical_path disk))
        end
    end.
Proof.
  intros Hne Hroot. unfold PhotoFiles.purge_listing_photos,
    PhotoFiles.purge_directory.
  rewrite Hroot. apply String.eqb_neq in Hne. rewrite Hne. cbv zeta.
  destruct disk as [lp hp]. simpl in Hroot. subst lp. simpl.
  destruct (lookup_entry _ entries) as [[n|n content]|]; try reflexivity.
  destruct (filter is_dir content); reflexivity.
Qed.

(** X13.  Purging the photos of a listing.  Let the MLS number be written
    in ASCII and its directory name be not empty.  When the listings root has no entry of that
    name, [purge_listing_photos] returns 0 and leaves the store as it is.
    When it has a directory of that name holding plain files only, the
    call returns their number and removes the directory; every entry with
    another name stays, and so does the root of the historical sales; and,
    names under the root being distinct, the name then denotes nothing, so
    that purging again returns 0 and changes nothing. *)
Theorem purge_listing_photos_effect (mls : string) (disk : photo_storage)
    (entries : list entry) :
  ascii_only mls ->
  PhotoFiles._get_listing_dir mls <> "" ->
  listings_path disk = Some entries ->
  let name := PhotoFiles._get_listing_dir mls in
  (lookup_entry name entries = None ->
   PhotoFiles.purge_listing_photos mls disk = (Done 0%nat, disk))
  /\ (forall n content,
        lookup_entry name entries = Some (Dir n content) ->
        Forall (fun e => is_dir e = false) content ->
        exists disk' kept,
          PhotoFiles.purge_listing_photos mls disk
          = (Done (length content), disk')
          /\ listings_path disk' = Some kept
          /\ historical_path disk' = historical_path disk
          /\ (forall e, entry_name e <> name -> (In e kept <-> In e entries))
          /\ (NoDup (map entry_name entries) ->
              lookup_entry name kept = None
              /\ PhotoFiles.purge_listing_photos mls disk'
                 = (Done 0%nat, disk'))).
Proof.
  intros _ Hne Hroot name. split.
  - intros Hnone. rewrite (purge_listing_named mls disk entries Hne Hroot).
    cbv zeta. fold name. rewrite Hnone. reflexivity.
  - intros n content Hdir Hfiles.
    destruct (all_files content Hfiles) as [Hd Hf].
    eexists _, _. split.
    + rewrite (purge_listing_named mls disk entries Hne Hroot).
      cbv zeta. fold name. rewrite Hdir, Hd, Hf. reflexivity.
    + split; [reflexivity|]. split; [reflexivity|]. split.
      * intros e He. apply replace_entry_others; [exact He | exact I].
      * intros Hnd. pose proof (lookup_entry_removed name entries Hnd) as Hgone.
        split; [exact Hgone|].
        match goal with
        | |- PhotoFiles.purge_listing_photos mls ?d = _ =>
            rewrite (purge_listing_named mls d
                       (replace_entry name None entries) Hne eq_refl)
        end.
        cbv zeta. fold name. rewrite Hgone. reflexivity.
Qed.

(** X14.  A purge that fails half-way, for an MLS number written in ASCII
    whose directory name is not empty.  [purge_listing_photos] unlinks the
    plain files of the directory and then removes the directory with
    [rmdir].  When the directory holds a sub-directory, [rmdir] raises
    [OSError] (errno 39): the call fails, the number of files it deleted
    is lost, and the directory is left holding its sub-directories only.
    When the name denotes a plain file, listing it raises
    [NotADirectoryError] and nothing is deleted. *)
Theorem purge_listing_photos_partial (mls : string) (disk : photo_storage)
    (entries : list entry) :
  ascii_only mls ->
  PhotoFiles._get_listing_dir mls <> "" ->
  listings_path disk = Some entries ->
  let name := PhotoFiles._get_listing_dir mls in
  (forall n content sub,
     lookup_entry name entries = Some (Dir n content) ->
     In sub content -> is_dir sub = true ->
     exists disk' kept,
       PhotoFiles.purge_listing_photos mls disk
       = (Failed (OSError 39 name), disk')
       /\ listings_path disk' = Some kept
       /\ lookup_entry name kept = Some (Dir name (filter is_dir content))
       /\ (forall e, entry_name e <> name -> (In e kept <-> In e entries)))
  /\ (forall n,
        lookup_entry name entries = Some (File n) ->
        PhotoFiles.purge_listing_photos mls disk
        = (Failed (NotADirectoryError name), disk)).
Proof.
  intros _ Hne Hroot name. split.
  - intros n content sub Hdir Hin Hsub.
    assert (Hleft : filter is_dir content <> []).
    { intros E. assert (Hs : In sub (filter is_dir content))
        by (apply filter_In; split; assumption).
      rewrite E in Hs. contradiction. }
    exists (mk_photo_storage
              (Some (replace_entry name
                       (Some (Dir name (filter is_dir content))) entries))
              (historical_path disk)).
    eexists. split.
    + rewrite (purge_listing_named mls disk entries Hne Hroot).
      cbv zeta. fold name. rewrite Hdir.
      destruct (filter is_dir content) as [|x rest]; [contradiction|].
      reflexivity.
    + split; [reflexivity|]. split.
      * apply (lookup_entry_replaced name
                 (Dir name (filter is_dir content)) entries _ eq_refl Hdir).
      * intros e He. apply replace_entry_others; [exact He | reflexivity].
  - intros n Hfile. rewrite (purge_listing_named mls disk entries Hne Hroot).
    cbv zeta. fold name. rewrite Hfile. reflexivity.
Qed.

(** ** Deleting a listing *)

Lemma delete_listing_calm (mls : string) (purge_photos : bool) (s : Store)
    (j : list statement) (disk : photo_storage) :
  ListingRemoval.delete_listing mls purge_photos (calm s j) disk
  = match listing_by_mls mls s with
    | None => (Returned false, calm s j, disk)
    | Some row =>
        match
          (if purge_photos
           then PhotoFiles.purge_listing_photos mls disk
           else (Done 0%nat, disk))
        with
        | (Failed e, disk1) => (OSFailed e, calm s j, disk1)
        | (Done _, disk1) =>
            (Returned true, calm (fst (DELETE_listing (l_id row) s)) j, disk1)
        end
    end.
Proof.
  unfold ListingRemoval.delete_listing.
  change (Database.execute (listing_by_mls mls) (calm s j))
    with (Ok (listing_by_mls mls s), calm s j).
  destruct (listing_by_mls mls s) as [row|]; [|reflexivity].
  destruct (if purge_photos then _ else _) as [[n|e] disk1]; reflexivity.
Qed.

Lemma only_listing_with_mls (mls : string) (rows : list listing_row)
    (row r : listing_row) :
  NoDup (flat_map (fun l => match l_mls_number l with
                            | Some m => [m]
                            | None => []
                            end) rows) ->
  find (has_mls mls) rows = Some row ->
  In r rows -> has_mls mls r = true -> r = row.
Proof.
  induction rows as [|x rest IH]; simpl; intros Hd Hf Hin Hr; [contradiction|].
  destruct (has_mls mls x) eqn:Hx.
  - injection Hf as <-. destruct Hin as [Hin | Hin]; [symmetry; exact Hin|].
    exfalso. unfold has_mls in Hx, Hr.
    destruct (l_mls_number x) as [mx|]; [|discriminate].
    apply String.eqb_eq in Hx. subst mx. simpl in Hd.
    inversion Hd as [|? ? Hnot _]; subst. apply Hnot.
    apply in_flat_map. exists r. split; [exact Hin|].
    destruct (l_mls_number r) as [mr|]; [|discriminate].
    apply String.eqb_eq in Hr. subst mr. left. reflexivity.
  - destruct Hin as [Hin | Hin]; [subst x; congruence|].
    apply IH; try assumption.
    destruct (l_mls_number x); [|exact Hd].
    simpl in Hd. inversion Hd; assumption.
Qed.

(** X15.  Deleting a listing.  The MLS number is written in ASCII when
    the photos are purged, so that the purge of the model is the one of the
    code.  When no statement fails: for an MLS number no listing has, [delete_listing] returns false and changes neither
    the tables nor the photo store.  For a listing, when the photos are
    not purged or their purge succeeds, it returns true; no listing with
    the id is left and every other listing is exactly as it was; no
    building, neighbourhood or sale is removed or changed; no price point
    of the listing stays behind; and, MLS numbers being unique, the number
    then finds nothing, so that deleting again returns false. *)
Theorem delete_listing_effect (mls : string) (purge_photos : bool)
    (s : Store) (disk : photo_storage) :
  (purge_photos = true -> ascii_only mls) ->
  (listing_by_mls mls s = None ->
   ListingRemoval.delete_listing mls purge_photos (calm s []) disk
   = (Returned false, calm s [], disk))
  /\ (forall row n disk1,
        listing_by_mls mls s = Some row ->
        (if purge_photos
         then PhotoFiles.purge_listing_photos mls disk
         else (Done 0%nat, disk)) = (Done n, disk1) ->
        exists s',
          ListingRemoval.delete_listing mls purge_photos (calm s []) disk
          = (Returned true, calm s' [], disk1)
          /\ listings s' = other_listings (l_id row) s
          /\ (forall r, In r (listings s') -> l_id r <> l_id row)
          /\ buildings s' = buildings s
          /\ neighborhoods s' = neighborhoods s
          /\ historical_sales s' = historical_sales s
          /\ (forall p, In p (price_history s') <->
                        In p (price_history s) /\ ph_listing_id p <> l_id row)
          /\ (unique_mls s ->
              listing_by_mls mls s' = None
              /\ ListingRemoval.delete_listing mls purge_photos
                   (calm s' []) disk1
                 = (Returned false, calm s' [], disk1))).
Proof.
  intros _. split.
  - intros Hnone. rewrite delete_listing_calm, Hnone. reflexivity.
  - intros row n disk1 Hrow Hpurge.
    exists (fst (DELETE_listing (l_id row) s)). split.
    + rewrite delete_listing_calm, Hrow, Hpurge. reflexivity.
    + split; [reflexivity|]. split.
      { intros r Hin. simpl in Hin. apply filter_In in Hin.
        destruct Hin as [_ Hid]. apply negb_true_iff, Z.eqb_neq in Hid.
        exact Hid. }
      split; [reflexivity|]. split; [reflexivity|]. split; [reflexivity|].
      split.
      { intros p. simpl. rewrite filter_In, negb_true_iff, Z.eqb_neq.
        tauto. }
      intros Hu.
      assert (Hgone : listing_by_mls mls (fst (DELETE_listing (l_id row) s))
                      = None).
      { unfold listing_by_mls in *. simpl.
        destruct (find (has_mls mls) (filter _ (listings s))) as [r|] eqn:F;
          [|reflexivity].
        apply find_some in F. destruct F as [Hin Hr].
        apply filter_In in Hin. destruct Hin as [Hin Hid].
        apply negb_true_iff, Z.eqb_neq in Hid.
        rewrite (only_listing_with_mls mls _ row r Hu Hrow Hin Hr) in Hid.
        contradiction. }
      split; [exact Hgone|].
      rewrite delete_listing_calm, Hgone. reflexivity.
Qed.

(** X16.  The photos go before the listing, for an MLS number written in
    ASCII.  [delete_listing] purges the
    photos first and deletes the row afterwards, and nothing undoes the
    one when the other fails.  Under every schedule, a call that ends in
    an error of the photo store leaves the tables exactly as they were.
    In particular, when no statement fails and the photo directory of a
    listing holds a sub-directory, deleting the listing with its photos
    raises [OSError]: the listing is still there, and the plain files of
    its directory are gone. *)
Theorem delete_listing_keeps_row_on_photo_failure (mls : string) :
  ascii_only mls ->
  (forall purge_photos w disk e w' disk',
     ListingRemoval.delete_listing mls purge_photos w disk
     = (OSFailed e, w', disk') ->
     store w' = store w /\ purge_photos = true
     /\ PhotoFiles.purge_listing_photos mls disk = (Failed e, disk'))
  /\ (forall s disk row entries n content sub,
        listing_by_mls mls s = Some row ->
        PhotoFiles._get_listing_dir mls <> "" ->
        listings_path disk = Some entries ->
        lookup_entry (PhotoFiles._get_listing_dir mls) entries
        = Some (Dir n content) ->
        In sub content -> is_dir sub = true ->
        exists disk' kept,
          ListingRemoval.delete_listing mls true (calm s []) disk
          = (OSFailed (OSError 39 (PhotoFiles._get_listing_dir mls)),
             calm s [], disk')
          /\ listings_path disk' = Some kept
          /\ lookup_entry (PhotoFiles._get_listing_dir mls) kept
             = Some (Dir (PhotoFiles._get_listing_dir mls)
                       (filter is_dir content))).
Proof.
  intros _. split.
  - intros purge_photos w disk e w' disk'.
    unfold ListingRemoval.delete_listing.
    assert (Hq : store (snd (Database.execute (listing_by_mls mls) w))
                 = store w).
    { unfold Database.execute, bind, Database.conn_execute.
      destruct (faults w) as [|[|] fs]; reflexivity. }
    destruct (Database.execute (listing_by_mls mls) w) as [[[row|]|e0] w1];
      try discriminate.
    simpl in Hq.
    destruct purge_photos.
    + destruct (PhotoFiles.purge_listing_photos mls disk) as [[n|e1] disk1].
      * destruct (ListingRemoval.execute_delete (l_id row) w1) as [[z|e2] w2];
          discriminate.
      * intros H; injection H as <- <- <-. auto.
    + destruct (ListingRemoval.execute_delete (l_id row) w1) as [[z|e2] w2];
        discriminate.
  - intros s disk row entries n content sub Hrow Hne Hroot Hdir Hin Hsub.
    assert (Hleft : filter is_dir content <> []).
    { intros E. assert (Hs : In sub (filter is_dir content))
        by (apply filter_In; split; assumption).
      rewrite E in Hs. contradiction. }
    exists (mk_photo_storage
              (Some (replace_entry (PhotoFiles._get_listing_dir mls)
                       (Some (Dir (PhotoFiles._get_listing_dir mls)
                                (filter is_dir content))) entries))
              (historical_path disk)).
    eexists. split.
    + rewrite delete_listing_calm, Hrow.
      rewrite (purge_listing_named mls disk entries Hne Hroot).
      cbv zeta. rewrite Hdir.
      destruct (filter is_dir content) as [|x rest]; [contradiction|].
      reflexivity.
    + split; [reflexivity|].
      apply (lookup_entry_replaced _
               (Dir (PhotoFiles._get_listing_dir mls) (filter is_dir content))
               entries _ eq_refl Hdir).
Qed.

(** ** The sweep under failures *)

Lemma execute_cases (A : Type) (q : Store -> A) (w : World) :
  (exists w', Database.execute q w = (Ok (q (store w)), w')
              /\ store w' = store w)
  \/ (exists w', Database.execute q w
                 = (Raise (DatabaseError "database error"), w')
                 /\ store w' = store w).
Proof.
  unfold Database.execute, bind, Database.conn_execute.
  destruct (faults w) as [|[|] fs]; [left | right | left];
    eexists; split; reflexivity.
Qed.

(** X17.  The sweep never fails and never writes.  Under every schedule of
    failures [purge_orphaned_photos] returns; the tables are as they were;
    it reports one error for each of its two queries that failed, and
    nothing else; every entry left under a root was there before; and no
    plain file directly under a root is ever removed.  A root whose query
    failed is swept against the empty set: all its directories go. *)
Theorem orphan_sweep_never_raises (disk : photo_storage) (w : World) :
  exists stats disk' w',
    PhotoService.purge_orphaned_photos disk w = (Ok (stats, disk'), w')
    /\ store w' = store w
    /\ (length (ps_errors stats) <= 2)%nat
    /\ (exists live,
          (live = live_mls_numbers (store w) \/ live = [])
          /\ listings_path disk'
             = option_map (filter (survives live)) (listings_path disk))
    /\ (exists live,
          (live = live_sale_ids (store w) \/ live = [])
          /\ historical_path disk'
             = option_map (filter (survives live)) (historical_path disk))
    /\ (forall entries e,
          listings_path disk = Some entries -> In e entries ->
          is_dir e = false ->
          exists kept, listings_path disk' = Some kept /\ In e kept).
Proof.
  unfold PhotoService.purge_orphaned_photos.
  unfold bind at 1. unfold catch at 1. unfold bind at 1.
  assert (Hfiles : forall live entries e,
             listings_path disk = Some entries -> In e entries ->
             is_dir e = false ->
             exists kept,
               option_map (filter (survives live)) (listings_path disk)
               = Some kept /\ In e kept).
  { intros live entries e -> Hin Hf. eexists. split; [reflexivity|].
    apply filter_In. split; [exact Hin|]. unfold survives. rewrite Hf.
    reflexivity. }
  destruct (execute_cases _ live_mls_numbers w) as [[w1 [-> Hs1]] | [w1 [-> Hs1]]];
    cbv beta iota; unfold ret at 1; cbv beta iota;
    rewrite sweep_root_survivors; cbv beta iota zeta;
    unfold bind at 1; unfold catch at 1; unfold bind at 1;
    destruct (execute_cases _ live_sale_ids w1)
      as [[w2 [-> Hs2]] | [w2 [-> Hs2]]];
    cbv beta iota; unfold ret; cbv beta iota;
    rewrite sweep_root_survivors; cbv beta iota zeta; rewrite ?Hs1;
    eexists _, _, _; (split; [reflexivity|]);
    (split; [congruence|]); cbn [ps_errors listings_path historical_path];
    (split; [simpl; lia|]).
  - split; [eexists; split; [left; reflexivity | reflexivity]|].
    split; [eexists; split; [left; reflexivity | reflexivity]|].
    apply Hfiles.
  - split; [eexists; split; [left; reflexivity | reflexivity]|].
    split; [eexists; split; [right; reflexivity | reflexivity]|].
    apply Hfiles.
  - split; [eexists; split; [right; reflexivity | reflexivity]|].
    split; [eexists; split; [left; reflexivity | reflexivity]|].
    apply Hfiles.
  - split; [eexists; split; [right; reflexivity | reflexivity]|].
    split; [eexists; split; [right; reflexivity | reflexivity]|].
    apply Hfiles.
Qed.

(** ** Numbers in an imported row *)

Section Numbers.

Context {lib : PyLib}.

Lemma quot_truncates (q : Q) :
  truncates_to q (Z.quot (Qnum q) (Zpos (Qden q))).
Proof.
  destruct q as [a b]. unfold truncates_to, Qle, Qlt, inject_Z. simpl.
  pose proof (Z.quot_rem' a (Zpos b)) as Hqr.
  split; intros H; rewrite Z.mul_1_r in *.
  - assert (Ha : 0 <= a) by lia.
    pose proof (Z.rem_bound_pos a (Zpos b) Ha ltac:(lia)) as Hr.
    split; nia.
  - assert (Ha : a <= 0) by lia.
    pose proof (Z.rem_bound_pos_neg a (Zpos b) ltac:(lia) Ha) as Hr.
    split; nia.
Qed.

(** X18.  [_parse_int] and [_parse_float] on a cell.  A cell that is
    absent, empty or blank, or that [float] does not read, gives [None];
    so does not-a-number.  A finite value is truncated toward zero, not
    rounded.  An infinity is not caught: [int] raises [OverflowError],
    which the handler for [ValueError] and [TypeError] lets through, and
    this is the only way [_parse_int] raises.  [_parse_float] never
    raises: it returns what [float] reads, infinities included. *)
Theorem parse_int_outcomes (value : option string) :
  (HistoricalSaleService.is_blank value = true ->
   HistoricalSaleService._parse_int value = Ok None)
  /\ (forall v, value = Some v ->
        HistoricalSaleService.is_blank value = false ->
        match float_of_string v with
        | None | Some NaN => HistoricalSaleService._parse_int value = Ok None
        | Some (Finite q) =>
            exists n, HistoricalSaleService._parse_int value = Ok (Some n)
                      /\ truncates_to q n
        | Some (Infinite _) =>
            HistoricalSaleService._parse_int value
            = Raise (OverflowError "cannot convert float infinity to integer")
        end)
  /\ ((exists e, HistoricalSaleService._parse_int value = Raise e)
      <-> exists v negative,
            value = Some v /\ HistoricalSaleService.is_blank value = false
            /\ float_of_string v = Some (Infinite negative))
  /\ (forall e, HistoricalSaleService._parse_float value <> Raise e)
  /\ (forall v x, value = Some v ->
        HistoricalSaleService.is_blank value = false ->
        float_of_string v = Some x ->
        HistoricalSaleService._parse_float value = Ok (Some x)).
Proof.
  unfold HistoricalSaleService._parse_int, HistoricalSaleService._parse_float.
  split; [|split; [|split; [|split]]].
  - intros H. destruct value as [v|]; [|reflexivity].
    rewrite H. reflexivity.
  - intros v -> Hb. rewrite Hb.
    destruct (float_of_string v) as [[q|b|]|]; simpl; try reflexivity.
    eexists. split; [reflexivity | apply quot_truncates].
  - split.
    + intros [e He]. destruct value as [v|]; [|discriminate].
      destruct (HistoricalSaleService.is_blank (Some v)) eqn:Hb;
        [discriminate|].
      destruct (float_of_string v) as [[q|b|]|] eqn:Hf; simpl in He;
        try discriminate.
      exists v, b. auto.
    + intros [v [b [-> [Hb Hf]]]]. rewrite Hb, Hf. simpl. eexists. reflexivity.
  - intros e. destruct value as [v|]; [|discriminate].
    destruct (HistoricalSaleService.is_blank (Some v)); [discriminate|].
    destruct (float_of_string v); discriminate.
  - intros v x -> Hb Hf. rewrite Hb, Hf. reflexivity.
Qed.

End Numbers.

(** ** What an import can touch *)

Section ImportScope.

Context {lib : PyLib}.

Lemma adds_sales_only_refl (s : Store) : adds_sales_only s s.
Proof. repeat split; apply extends_refl. Qed.

Lemma adds_sales_only_trans (a b c : Store) :
  adds_sales_only a b -> adds_sales_only b c -> adds_sales_only a c.
Proof.
  intros [L1 [P1 [E1 [N1 [B1 H1]]]]] [L2 [P2 [E2 [N2 [B2 H2]]]]].
  repeat split; try congruence; eapply extends_trans; eassumption.
Qed.

Lemma adds_sales_only_building (name address : string) (nid : option Z)
    (city : string) (s : Store) :
  adds_sales_only s
    (fst (run_statement (INSERT_building name address nid city) s)).
Proof. repeat split; try apply extends_refl. apply extends_snoc. Qed.

Lemma adds_sales_only_sale (f : sale_fields) (s : Store) :
  adds_sales_only s (fst (run_statement (INSERT_historical_sale f) s)).
Proof. repeat split; try apply extends_refl. apply extends_snoc. Qed.

Ltac sales_write :=
  intros; eapply adds_sales_only_trans;
  [eassumption
  | first [apply adds_sales_only_building | apply adds_sales_only_sale]].

Lemma create_sale_scope (s0 : Store) (data : sale_data) :
  keeps (adds_sales_only s0) (HistoricalSaleService.create_sale data).
Proof.
  unfold HistoricalSaleService.create_sale,
    HistoricalSaleService._get_or_create_building.
  keeps_steps sales_write.
Qed.

Lemma import_rows_scope (s0 : Store) (rows : list dict_row) :
  forall n results,
    keeps (adds_sales_only s0)
      (HistoricalSaleService.import_rows n rows results).
Proof.
  induction rows as [|row rows IH]; intros n results; simpl.
  - apply keeps_ret.
  - apply keeps_bind; [|intros r; apply IH].
    unfold HistoricalSaleService.import_row.
    pose proof (create_sale_scope s0) as Hc.
    keeps_steps sales_write.
Qed.

(** X19.  An import touches buildings and sales only.  Whatever the
    reader yields and whichever statements fail, [import_csv] leaves the
    listings, the ledger, the event log and the neighbourhoods exactly as
    they were, and the buildings and sales it found are still there,
    unchanged and in place, possibly followed by new ones.  The same holds
    of a single [create_sale]. *)
Theorem import_adds_sales_only (reader : csv_reader) (data : sale_data)
    (w : World) :
  adds_sales_only (store w)
    (store (snd (HistoricalSaleService.import_csv reader w)))
  /\ adds_sales_only (store w)
       (store (snd (HistoricalSaleService.create_sale data w))).
Proof.
  split; revert w; (apply keeps_within; [apply adds_sales_only_refl|]);
    intros s0; [|apply create_sale_scope].
  unfold HistoricalSaleService.import_csv.
  pose proof (import_rows_scope s0) as Hr.
  keeps_steps sales_write.
Qed.

End ImportScope.

(** ** A sale without a building name *)

Lemma sale_resolve_explicit (name : string) (address neighborhood : option string)
    (s : Store) (j : list statement) :
  HistoricalSaleService._get_or_create_building name address neighborhood
    (calm s j)
  = match building_by_name name s with
    | Some id => (Ok id, calm s j)
    | None =>
        match lookup_address address s with
        | Some id => (Ok id, calm s j)
        | None =>
            let st :=
              INSERT_building name
                (or_else address (or_else (Some name) "Unknown"))
                (lookup_neighborhood neighborhood s) "Victoria" in
            (Ok (snd (run_statement st s)),
             calm (fst (run_statement st s)) (j ++ [st]))
        end
    end.
Proof.
  unfold HistoricalSaleService._get_or_create_building.
  rewrite bind_execute.
  destruct (building_by_name name s) as [id|]; [reflexivity|].
  assert (Ha : forall (B : Type) (k : option Z -> M B),
             bind (match address with
                   | Some a =>
                       if truthy address
                       then Database.execute (building_by_address a)
                       else ret None
                   | None => ret None
                   end) k (calm s j)
             = k (lookup_address address s) (calm s j)).
  { intros B k. unfold lookup_address.
    destruct address as [a|]; [|reflexivity].
    destruct (truthy (Some a)); reflexivity. }
  rewrite Ha. destruct (lookup_address address s) as [id|]; [reflexivity|].
  assert (Hb : forall (B : Type) (k : option Z -> M B),
             bind (match neighborhood with
                   | Some n =>
                       if truthy neighborhood
                       then Database.execute (neighborhood_by_name n)
                       else ret None
                   | None => ret None
                   end) k (calm s j)
             = k (lookup_neighborhood neighborhood s) (calm s j)).
  { intros B k. unfold lookup_neighborhood.
    destruct neighborhood as [n|]; [|reflexivity].
    destruct (truthy (Some n)); reflexivity. }
  rewrite Hb. apply insert_calm.
Qed.

(** X20.  A sale without a building name.  The sales service looks the
    building up by its name even when the name is empty.  When no statement
    fails, a sale whose building name is empty and whose address is absent
    or empty is stored all the same: if no building has the empty name, one
    is created with the empty name and the address "Unknown", under an id
    no building had, and the sale refers to it; the empty name then finds
    that building, so the next such sale lands on it too.  The listing
    service, given the same name and address, resolves to no building and
    creates none. *)
Theorem sale_without_building_name (data : sale_data) (s : Store) :
  sd_building_name data = "" ->
  truthy (sd_address data) = false ->
  building_by_name "" s = None ->
  exists bid sale_id s',
    run (HistoricalSaleService.create_sale data) s
    = (Ok (mk_sale_result true sale_id "Historical sale recorded"), s')
    /\ ~ In bid (map b_id (buildings s))
    /\ buildings s'
       = buildings s ++
         [mk_building bid "" "Unknown"
            (lookup_neighborhood (sd_neighborhood data) s) "Victoria"]
    /\ historical_sales s'
       = historical_sales s ++ [mk_sale sale_id (sale_columns data bid)]
    /\ building_by_name "" s' = Some bid
    /\ run (ListingService._get_or_create_building (Some "")
              (sd_address data) (sd_neighborhood data)) s
       = (Ok None, s).
Proof.
  intros Hname Haddr Hnone.
  assert (Hla : lookup_address (sd_address data) s = None).
  { unfold lookup_address. destruct (sd_address data); [|reflexivity].
    rewrite Haddr. reflexivity. }
  assert (Hoe : or_else (sd_address data) (or_else (Some "") "Unknown")
                = "Unknown").
  { destruct (sd_address data) as [a|]; [|reflexivity].
    simpl in Haddr. simpl. destruct (a =? "")%string; [reflexivity|].
    discriminate. }
  exists (next_rowid (map b_id (buildings s))),
    (next_rowid (map hs_id (historical_sales s))).
  eexists. split.
  - unfold run. fold (calm s []). unfold HistoricalSaleService.create_sale.
    rewrite Hname.
    pose proof (sale_resolve_explicit "" (sd_address data)
                  (sd_neighborhood data) s []) as Hres.
    rewrite Hnone, Hla, Hoe in Hres. cbv zeta in Hres.
    rewrite (bind_known _ _ _ _ _ _ _ Hres).
    rewrite bind_insert. reflexivity.
  - split; [apply next_rowid_fresh|]. split; [reflexivity|].
    split; [reflexivity|]. split.
    + unfold building_by_name in *. simpl.
      destruct (find (fun b => (b_name b =? "")%string) (buildings s)) eqn:E;
        [discriminate|].
      rewrite (find_app_new _ _ _ _ E); reflexivity.
    + unfold run. fold (calm s []). rewrite resolve_calm.
      rewrite Haddr. reflexivity.
Qed.

(** ** References are never left dangling *)

Lemma ids_update_where (id : Z) (f : listing_row -> listing_row)
    (rows : list listing_row) :
  (forall r, l_id (f r) = l_id r) ->
  map l_id (update_where id f rows) = map l_id rows.
Proof.
  intros Hf. unfold update_where. rewrite map_map. apply map_ext.
  intros r. destruct (l_id r =? id); [apply Hf | reflexivity].
Qed.

Lemma building_known_statement (st : statement) (s : Store) (b : option Z) :
  building_known s b -> building_known (fst (run_statement st s)) b.
Proof.
  destruct b as [id|]; [|auto]. unfold building_known.
  destruct st; simpl; auto.
  rewrite map_app, in_app_iff. auto.
Qed.

Lemma listing_known_statement (st : statement) (s : Store) (id : Z) :
  listing_known s id -> listing_known (fst (run_statement st s)) id.
Proof.
  unfold listing_known.
  destruct st; unfold run_statement; cbn [fst]; unfold set_buildings,
    set_listings, set_price_history, set_tracking_events,
    set_historical_sales; cbn [listings]; auto.
  - rewrite map_app, in_app_iff. auto.
  - rewrite ids_update_where by reflexivity. auto.
  - rewrite ids_update_where by reflexivity. auto.
Qed.

Lemma Forall_update_where (P : listing_row -> Prop) (id : Z)
    (f : listing_row -> listing_row) (rows : list listing_row) :
  Forall P rows -> (forall r, P r -> P (f r)) ->
  Forall P (update_where id f rows).
Proof.
  intros H Hf. unfold update_where. apply Forall_map.
  eapply Forall_impl; [|exact H]. intros r Hr.
  destruct (l_id r =? id); auto.
Qed.

Lemma Forall_update_where_any (P : listing_row -> Prop) (id : Z)
    (f : listing_row -> listing_row) (rows : list listing_row) :
  Forall P rows -> (forall r, P (f r)) ->
  Forall P (update_where id f rows).
Proof. intros H Hf. apply Forall_update_where; auto. Qed.

Lemma references_statement (st : statement) (s : Store) :
  references_hold s -> statement_refers st s ->
  references_hold (fst (run_statement st s)).
Proof.
  intros [HL [HS [HP HE]]] Hst.
  assert (KB : forall b, building_known s b ->
                         building_known (fst (run_statement st s)) b)
    by (intros b; apply building_known_statement).
  assert (KL : forall id, listing_known s id ->
                          listing_known (fst (run_statement st s)) id)
    by (intros id; apply listing_known_statement).
  assert (ML : Forall (fun l => building_known (fst (run_statement st s))
                                  (l_building_id (l_fields l))) (listings s))
    by (eapply Forall_impl; [|exact HL]; intros l; apply KB).
  assert (MS : Forall (fun r => building_known (fst (run_statement st s))
                                  (Some (hs_building_id (hs_fields r))))
                 (historical_sales s))
    by (eapply Forall_impl; [|exact HS]; intros r; apply KB).
  assert (MP : Forall (fun p => listing_known (fst (run_statement st s))
                                  (ph_listing_id p)) (price_history s))
    by (eapply Forall_impl; [|exact HP]; intros p; apply KL).
  assert (ME : Forall (fun e => listing_known (fst (run_statement st s))
                                  (te_listing_id e)) (tracking_events s))
    by (eapply Forall_impl; [|exact HE]; intros e; apply KL).
  unfold references_hold.
  destruct st; simpl in Hst;
    unfold run_statement in *; cbn [fst] in *;
    unfold set_buildings, set_listings, set_price_history,
      set_tracking_events, set_historical_sales in *;
    cbn [listings buildings price_history tracking_events historical_sales]
      in *.
  - repeat split; assumption.
  - repeat split; try assumption.
    apply Forall_app; split; [exact ML|].
    constructor; [|constructor]. simpl. apply KB in Hst. exact Hst.
  - repeat split; try assumption.
    apply Forall_update_where_any; [exact ML|].
    intros r. simpl. apply KB in Hst. exact Hst.
  - repeat split; try assumption.
    apply Forall_update_where; [exact ML|]. intros r Hr. exact Hr.
  - repeat split; try assumption.
    apply Forall_app; split; [exact MP|].
    constructor; [|constructor]. simpl. apply KL in Hst. exact Hst.
  - repeat split; try assumption.
    apply Forall_app; split; [exact ME|].
    constructor; [|constructor]. simpl. apply KL in Hst. exact Hst.
  - repeat split; try assumption.
    apply Forall_app; split; [exact MS|].
    constructor; [|constructor]. simpl. exact Hst.
Qed.

Lemma references_with_statement (lid bid : option Z) (st : statement)
    (s : Store) :
  references_with lid bid s -> statement_refers st s ->
  references_with lid bid (fst (run_statement st s)).
Proof.
  intros [HR [HL HB]] Hst. split; [apply references_statement; assumption|].
  split; [|apply building_known_statement, HB].
  destruct lid as [id|]; [apply listing_known_statement, HL | exact I].
Qed.

Ltac refs_write :=
  intros;
  match goal with
  | H : references_with _ _ _ |- _ =>
      apply references_with_statement;
      [exact H | simpl; try exact I; apply H]
  end.

Lemma triple_insert_value (P : Store -> Prop) (st : statement) :
  triple P (Database.execute_insert st)
    (fun r s' =>
       match r with
       | Ok id =>
           exists s, P s /\ s' = fst (run_statement st s)
                     /\ id = snd (run_statement st s)
       | Raise _ => P s'
       end).
Proof.
  intros w Hw.
  unfold Database.execute_insert, bind, Database.conn_execute, Database.commit.
  destruct (faults w) as [|[|] fs]; simpl; try exact Hw;
    exists (store w); auto.
Qed.

Lemma references_with_forget (lid bid : option Z) (s : Store) :
  references_with lid bid s -> references_with None None s.
Proof. intros [H _]. split; [exact H | split; exact I]. Qed.

Lemma references_with_building (lid bid : option Z) (s : Store) :
  references_with lid None s -> building_known s bid ->
  references_with lid bid s.
Proof. intros [H [HL _]] HB. split; [exact H | split; assumption]. Qed.

Lemma building_by_name_known (n : string) (s : Store) :
  building_known s (building_by_name n s).
Proof.
  unfold building_by_name.
  destruct (find _ (buildings s)) as [b|] eqn:E; simpl; [|exact I].
  apply find_some in E. apply in_map, E.
Qed.

Lemma building_by_address_known (a : string) (s : Store) :
  building_known s (building_by_address a s).
Proof.
  unfold building_by_address.
  destruct (find _ (buildings s)) as [b|] eqn:E; simpl; [|exact I].
  apply find_some in E. apply in_map, E.
Qed.

Lemma listing_by_mls_known (mls : string) (s : Store) (row : listing_row) :
  listing_by_mls mls s = Some row -> listing_known s (l_id row).
Proof.
  unfold listing_by_mls, listing_known. intros E.
  apply find_some in E. apply in_map, E.
Qed.

(** A lookup the resolver makes only for a truthy key: what it returns is
    a building there is. *)
Lemma triple_building_lookup (P : Store -> Prop) (key : option string)
    (q : string -> Store -> option Z) :
  (forall n s, building_known s (q n s)) ->
  triple P
    (match key with
     | Some n => if truthy key then Database.execute (q n) else ret None
     | None => ret None
     end)
    (fun r s => P s /\ forall a, r = Ok a -> building_known s a).
Proof.
  intros Hq. destruct key as [n|].
  - destruct (truthy (Some n)).
    + intros w Hw. destruct (triple_execute _ P (q n) w Hw) as [H1 H2].
      split; [exact H1|]. intros a Ha. rewrite (H2 a Ha). apply Hq.
    + intros w Hw. split; [exact Hw|]. intros a Ha. injection Ha as <-.
      exact I.
  - intros w Hw. split; [exact Hw|]. intros a Ha. injection Ha as <-. exact I.
Qed.

Lemma keeps_optional_lookup (A : Type) (P : Store -> Prop)
    (key : option string) (q : string -> Store -> option A) :
  keeps P
    (match key with
     | Some n => if truthy key then Database.execute (q n) else ret None
     | None => ret None
     end).
Proof.
  destruct key as [n|]; [|apply keeps_ret].
  destruct (truthy (Some n)); [apply keeps_execute | apply keeps_ret].
Qed.

Lemma references_new_building (lid : option Z) (name address : string)
    (nid : option Z) (city : string) (s : Store) :
  references_with lid None s ->
  references_with lid
    (Some (snd (run_statement (INSERT_building name address nid city) s)))
    (fst (run_statement (INSERT_building name address nid city) s)).
Proof.
  intros H.
  apply references_with_building.
  - apply references_with_statement; [exact H | exact I].
  - simpl. rewrite map_app, in_app_iff. right. left. reflexivity.
Qed.

(** The resolver of the listing service returns a building there is. *)
Lemma resolve_refs (lid : option Z) (name address neighborhood : option string) :
  triple (references_with lid None)
    (ListingService._get_or_create_building name address neighborhood)
    (fun r s =>
       match r with
       | Ok bid => references_with lid bid s
       | Raise _ => references_with lid None s
       end).
Proof.
  unfold ListingService._get_or_create_building.
  destruct (negb (truthy name) && negb (truthy address)).
  { intros w Hw. exact Hw. }
  eapply triple_bind.
  - apply (triple_building_lookup _ name building_by_name).
    apply building_by_name_known.
  - intros e s [H _]. exact H.
  - intros [id|].
    { intros w [H Hk]. apply references_with_building; [exact H|].
      apply Hk. reflexivity. }
    eapply triple_bind.
    + apply (triple_weaken _ _ (references_with lid None) _
               (fun r s => references_with lid None s
                           /\ forall a, r = Ok a -> building_known s a)).
      * apply (triple_building_lookup _ address building_by_address).
        apply building_by_address_known.
      * intros s [H _]. exact H.
      * intros r s H. exact H.
    + intros e s [H _]. exact H.
    + intros [id|].
      { intros w [H Hk]. apply references_with_building; [exact H|].
        apply Hk. reflexivity. }
      eapply triple_bind with (Q := fun _ s => references_with lid None s).
      * apply (triple_weaken _ _ (references_with lid None) _
                 (fun _ s => references_with lid None s)).
        -- apply keeps_optional_lookup.
        -- intros s [H _]. exact H.
        -- intros r s H. exact H.
      * auto.
      * intros nid. cbv zeta.
        eapply triple_bind; [apply triple_insert_value | auto |].
        intros bid w [s [H [Hs Hid]]]. simpl. rewrite Hs, Hid.
        apply references_new_building, H.
Qed.

(** So does the resolver of the sales service. *)
Lemma sale_resolve_refs (name : string) (address neighborhood : option string) :
  triple (references_with None None)
    (HistoricalSaleService._get_or_create_building name address neighborhood)
    (fun r s =>
       match r with
       | Ok bid => references_with None (Some bid) s
       | Raise _ => references_with None None s
       end).
Proof.
  unfold HistoricalSaleService._get_or_create_building.
  eapply triple_bind.
  - apply triple_execute.
  - intros e s [H _]. exact H.
  - intros [id|].
    { intros w [H Hk]. apply references_with_building; [exact H|].
      rewrite (Hk _ eq_refl). apply building_by_name_known. }
    eapply triple_bind.
    + apply (triple_weaken _ _ (references_with None None) _
               (fun r s => references_with None None s
                           /\ forall a, r = Ok a -> building_known s a)).
      * apply (triple_building_lookup _ address building_by_address).
        apply building_by_address_known.
      * intros s [H _]. exact H.
      * intros r s H. exact H.
    + intros e s [H _]. exact H.
    + intros [id|].
      { intros w [H Hk]. apply references_with_building; [exact H|].
        apply Hk. reflexivity. }
      eapply triple_bind with (Q := fun _ s => references_with None None s).
      * apply (triple_weaken _ _ (references_with None None) _
                 (fun _ s => references_with None None s)).
        -- apply keeps_optional_lookup.
        -- intros s [H _]. exact H.
        -- intros r s H. exact H.
      * auto.
      * intros nid. cbv zeta.
        intros w Hw.
        pose proof (triple_insert_value (references_with None None)
                      (INSERT_building name
                         (or_else address (or_else (Some name) "Unknown"))
                         nid "Victoria") w Hw) as H.
        destruct (Database.execute_insert _ w) as [[bid|e] w1]; simpl in *.
        -- destruct H as [s [H [Hs Hid]]]. rewrite Hs, Hid.
           apply references_new_building, H.
        -- exact H.
Qed.

Lemma record_price_refs (lid : Z) (bid : option Z) (clock : Clock)
    (price : Q) (price_date : option Z) (hint : string) :
  keeps (references_with (Some lid) bid)
    (ListingService._record_price clock lid price price_date hint).
Proof.
  unfold ListingService._record_price. keeps_steps refs_write.
Qed.

#[local] Hint Resolve record_price_refs : runs.

Lemma upsert_refs (clock : Clock) (data : listing_data) :
  keeps (references_with None None)
    (ListingService.create_or_update_listing clock data).
Proof.
  unfold ListingService.create_or_update_listing.
  destruct (d_mls_number data) as [mls|]; [|apply keeps_raise].
  destruct (negb (truthy (Some mls))); [apply keeps_raise|].
  eapply triple_bind; [apply triple_execute | intros e s [H _]; exact H |].
  intros [row|].
  - apply (triple_weaken _ _ (references_with (Some (l_id row)) None) _
             (fun _ s => references_with (Some (l_id row)) None s
                         \/ exists bid,
                              references_with (Some (l_id row)) bid s)).
    + eapply triple_bind; [apply resolve_refs | intros e s H; left; exact H |].
      intros bid. cbv zeta.
      match goal with
      | |- triple _ ?m _ =>
          assert (K : keeps (references_with (Some (l_id row)) bid) m)
      end.
      { keeps_steps refs_write. }
      intros w Hw. right. exists bid. apply K, Hw.
    + intros s [H Ha]. destruct H as [H _].
      split; [exact H | split; [|exact I]].
      apply (listing_by_mls_known mls). symmetry. apply Ha. reflexivity.
    + intros r s [H | [bid H]]; eapply references_with_forget; exact H.
  - apply (triple_weaken _ _ (references_with None None) _
             (fun _ s => exists lid bid, references_with lid bid s)).
    + eapply triple_bind;
        [apply resolve_refs | intros e s H; exists None, None; exact H |].
      intros bid. cbv zeta.
      eapply triple_bind; [apply triple_insert_value | |].
      * intros e s H. exists None, bid. exact H.
      * intros listing_id.
        match goal with
        | |- triple _ ?m _ =>
            assert (K : keeps (references_with (Some listing_id) bid) m)
        end.
        { keeps_steps refs_write. }
        intros w [s [H [Hs Hid]]]. exists (Some listing_id), bid.
        apply K. rewrite Hs, Hid.
        destruct H as [HR [_ HB]]. split; [|split].
        -- apply references_statement; [exact HR | exact HB].
        -- unfold listing_known. simpl. rewrite map_app, in_app_iff.
           right. left. reflexivity.
        -- apply building_known_statement, HB.
    + intros s [H _]. exact H.
    + intros r s [lid [bid H]]. eapply references_with_forget; exact H.
Qed.

Lemma update_status_refs (clock : Clock) (mls status : string)
    (sale_price : option Q) (sale_date : option Z) :
  keeps (references_with None None)
    (ListingService.update_status clock mls status sale_price sale_date).
Proof.
  unfold ListingService.update_status.
  eapply triple_bind; [apply triple_execute | intros e s [H _]; exact H |].
  intros [row|]; [|intros w [H _]; exact H].
  match goal with
  | |- triple _ ?m _ =>
      assert (K : keeps (references_with (Some (l_id row)) None) m)
  end.
  { cbv zeta. keeps_steps refs_write. }
  intros w [[H _] Ha]. eapply references_with_forget. apply K.
  split; [exact H | split; [|exact I]].
  apply (listing_by_mls_known mls). symmetry. apply Ha. reflexivity.
Qed.

Lemma add_price_refs (clock : Clock) (mls : string) (price : PriceCreate) :
  keeps (references_with None None) (ListingsApi.add_price clock mls price).
Proof.
  unfold ListingsApi.add_price.
  eapply triple_bind with
    (Q := fun r s =>
            references_with None None s
            /\ forall row h, r = Ok (Some (row, h)) ->
                             listing_known s (l_id row)).
  - unfold ListingService.get_listing.
    eapply triple_bind; [apply triple_execute | |].
    + intros e s [H _]. split; [exact H|]. intros row h Hr; discriminate.
    + intros [row|].
      * match goal with
        | |- triple _ ?m _ =>
            assert (K : keeps (references_with (Some (l_id row)) None) m)
        end.
        { keeps_steps refs_write. }
        intros w [[H _] Ha].
        assert (Hk : references_with (Some (l_id row)) None (store w)).
        { split; [exact H | split; [|exact I]].
          apply (listing_by_mls_known mls). symmetry. apply Ha. reflexivity. }
        specialize (K w Hk). split; [eapply references_with_forget; exact K|].
        intros row0 h Hr.
        assert (Hsame : row0 = row).
        { revert Hr. clear. unfold bind.
          destruct (Database.execute _ w) as [[a|e] w1]; [|discriminate].
          destruct (Database.execute _ w1) as [[b|e] w2]; [|discriminate].
          simpl. intros Hr. injection Hr as <- _. reflexivity. }
        subst row0. apply K.
      * intros w [H _]. split; [exact H|]. intros row h Hr. discriminate.
  - intros e s [H _]. exact H.
  - intros [[row h]|]; [|intros w [H _]; exact H].
    match goal with
    | |- triple _ ?m _ =>
        assert (K : keeps (references_with (Some (l_id row)) None) m)
    end.
    { keeps_steps refs_write. }
    intros w [[H _] Hk]. eapply references_with_forget. apply K.
    split; [exact H | split; [|exact I]]. apply (Hk row h). reflexivity.
Qed.

Lemma create_sale_refs (data : sale_data) :
  keeps (references_with None None) (HistoricalSaleService.create_sale data).
Proof.
  unfold HistoricalSaleService.create_sale.
  apply (triple_weaken _ _ (references_with None None) _
           (fun _ s => exists bid, references_with None bid s)).
  - eapply triple_bind;
      [apply sale_resolve_refs | intros e s H; exists None; exact H |].
    intros bid.
    match goal with
    | |- triple _ ?m _ =>
        assert (K : keeps (references_with None (Some bid)) m)
    end.
    { keeps_steps refs_write. }
    intros w Hw. exists (Some bid). apply K, Hw.
  - auto.
  - intros r s [bid H]. eapply references_with_forget; exact H.
Qed.

Section ImportReferences.

Context {lib : PyLib}.

Lemma import_rows_refs (rows : list dict_row) :
  forall n results,
    keeps (references_with None None)
      (HistoricalSaleService.import_rows n rows results).
Proof.
  induction rows as [|row rows IH]; intros n results; simpl.
  - apply keeps_ret.
  - apply keeps_bind; [|intros r; apply IH].
    unfold HistoricalSaleService.import_row.
    pose proof create_sale_refs as Hc.
    keeps_steps refs_write.
Qed.

Lemma import_csv_refs (reader : csv_reader) :
  keeps (references_with None None) (HistoricalSaleService.import_csv reader).
Proof.
  unfold HistoricalSaleService.import_csv.
  pose proof import_rows_refs as Hr.
  keeps_steps refs_write.
Qed.

(** X21.  References are never left dangling.  Suppose every listing and
    every sale refers to a building there is (or to none), and every price
    point and every event to a listing there is.  Then that is still so
    after a sighting, a status change, a price added through the endpoint,
    a sale, or an import, whichever statements fail on the way: a building
    or listing id is stored only after it was found or created. *)
Theorem references_stay_valid (clock : Clock) (w : World) :
  references_hold (store w) ->
  (forall data,
     references_hold
       (store (snd (ListingService.create_or_update_listing clock data w))))
  /\ (forall mls status sale_price sale_date,
        references_hold
          (store (snd (ListingService.update_status clock mls status
                         sale_price sale_date w))))
  /\ (forall mls price,
        references_hold
          (store (snd (ListingsApi.add_price clock mls price w))))
  /\ (forall data,
        references_hold
          (store (snd (HistoricalSaleService.create_sale data w))))
  /\ (forall reader,
        references_hold
          (store (snd (HistoricalSaleService.import_csv reader w)))).
Proof.
  intros H.
  assert (Hw : references_with None None (store w))
    by (split; [exact H | split; exact I]).
  split; [|split; [|split; [|split]]]; intros.
  - apply (upsert_refs clock data w Hw).
  - apply (update_status_refs clock mls status sale_price sale_date w Hw).
  - apply (add_price_refs clock mls price w Hw).
  - apply (create_sale_refs data w Hw).
  - apply (import_csv_refs reader w Hw).
Qed.

End ImportReferences.

(** ** The list queries *)

Lemma insert_sorted_perm (T : Type) (before : T -> T -> bool) (r : T)
    (rows : list T) :
  Permutation.Permutation (r :: rows) (insert_sorted before r rows).
Proof.
  induction rows as [|x rows IH]; simpl.
  - apply Permutation.Permutation_refl.
  - destruct (before r x).
    + apply Permutation.Permutation_refl.
    + eapply Permutation.perm_trans; [apply Permutation.perm_swap|].
      apply Permutation.perm_skip, IH.
Qed.

Lemma order_by_perm (T : Type) (before : T -> T -> bool) (rows : list T) :
  Permutation.Permutation rows (order_by before rows).
Proof.
  unfold order_by.
  assert (H : forall acc,
             Permutation.Permutation (rows ++ acc)
               (fold_left (fun a r => insert_sorted before r a) rows acc)).
  { induction rows as [|r rows IH]; simpl; intros acc.
    - apply Permutation.Permutation_refl.
    - eapply Permutation.perm_trans; [|apply IH].
      eapply Permutation.perm_trans;
        [apply Permutation.Permutation_middle|].
      apply Permutation.Permutation_app_head, insert_sorted_perm. }
  specialize (H []). rewrite app_nil_r in H. exact H.
Qed.

Lemma firstn_in (T : Type) (n : nat) (rows : list T) (x : T) :
  In x (firstn n rows) -> In x rows.
Proof.
  revert rows. induction n as [|n IH]; intros [|y rows]; simpl; try tauto.
  intros [H | H]; [left; exact H | right; apply IH, H].
Qed.

Lemma skipn_in (T : Type) (n : nat) (rows : list T) (x : T) :
  In x (skipn n rows) -> In x rows.
Proof.
  revert rows. induction n as [|n IH]; intros [|y rows]; simpl; try tauto.
  intros H. right. apply IH, H.
Qed.

Lemma firstn_more (T : Type) (n m : nat) (rows : list T) :
  firstn n rows ++ firstn m (skipn n rows) = firstn (n + m) rows.
Proof.
  revert rows. induction n as [|n IH]; intros rows; simpl; [reflexivity|].
  destruct rows as [|y rows]; simpl.
  - rewrite firstn_nil. reflexivity.
  - rewrite IH. reflexivity.
Qed.

Lemma limit_offset_in (T : Type) (limit offset : Z) (rows : list T) (x : T) :
  In x (limit_offset limit offset rows) -> In x rows.
Proof.
  unfold limit_offset. intros H.
  destruct (limit <? 0).
  - apply skipn_in in H. exact H.
  - apply firstn_in, skipn_in in H. exact H.
Qed.

Lemma limit_offset_length (T : Type) (limit offset : Z) (rows : list T) :
  0 <= limit ->
  (length (limit_offset limit offset rows) <= Z.to_nat limit)%nat.
Proof.
  intros H. unfold limit_offset.
  destruct (limit <? 0) eqn:E; [apply Z.ltb_lt in E; lia|].
  apply firstn_le_length.
Qed.

(** Two consecutive pages are the page of both. *)
Lemma limit_offset_pages (T : Type) (n m : Z) (rows : list T) :
  0 <= n -> 0 <= m ->
  limit_offset n 0 rows ++ limit_offset m n rows
  = limit_offset (n + m) 0 rows.
Proof.
  intros Hn Hm. unfold limit_offset.
  destruct (n <? 0) eqn:En; [apply Z.ltb_lt in En; lia|].
  destruct (m <? 0) eqn:Em; [apply Z.ltb_lt in Em; lia|].
  destruct (n + m <? 0) eqn:Enm; [apply Z.ltb_lt in Enm; lia|].
  simpl. rewrite Z2Nat.inj_add by lia. apply firstn_more.
Qed.

Lemma list_sales_calm (building_id : option Z)
    (start_date end_date : option string) (limit offset : Z) (s : Store) :
  run (ListQueries.list_sales building_id start_date end_date limit offset) s
  = (Ok (mk_sales_page
           (Z.of_nat
              (length (filter (sale_matches building_id start_date end_date)
                         (historical_sales s))))
           offset limit
           (sales_rows building_id start_date end_date limit offset s)),
     s).
Proof. reflexivity. Qed.

Lemma sales_rows_in (building_id : option Z)
    (start_date end_date : option string) (limit offset : Z) (s : Store)
    (item : sale_item) :
  In item (sales_rows building_id start_date end_date limit offset s) ->
  exists r,
    In r (historical_sales s)
    /\ sale_matches building_id start_date end_date r = true
    /\ item = sale_item_of s r.
Proof.
  unfold sales_rows. intros H. apply limit_offset_in in H.
  apply in_map_iff in H. destruct H as [r [<- Hr]].
  apply (Permutation.Permutation_in r
           (Permutation.Permutation_sym (order_by_perm _ _ _))) in Hr.
  apply filter_In in Hr. destruct Hr as [Hin Hm].
  exists r. auto.
Qed.

(** X22.  The list of sales.  When no statement fails, [list_sales] leaves
    the tables alone; [total] is the number of sales that pass the filters,
    whatever [limit] and [offset] are; every sale on the page is a sale of
    the table that passes them: it is of the building asked for, and its
    date, compared as text, lies between the start and the end date, both
    included; a page holds at most [limit] sales and never more than
    [total]; and a page of [n] sales followed by the next [m] is the page
    of [n + m].  A building id of 0, like an empty date, is no filter. *)
Theorem list_sales_page (building_id : option Z)
    (start_date end_date : option string) (limit offset : Z) (s : Store) :
  exists page,
    run (ListQueries.list_sales building_id start_date end_date limit offset) s
    = (Ok page, s)
    /\ sp_total page
       = Z.of_nat
           (length (filter (sale_matches building_id start_date end_date)
                      (historical_sales s)))
    /\ (forall item, In item (sp_sales page) ->
          exists r,
            In r (historical_sales s) /\ item = sale_item_of s r
            /\ (forall b, building_id = Some b -> b <> 0 ->
                          hs_building_id (hs_fields r) = b)
            /\ (forall d, start_date = Some d -> d <> "" ->
                          String.leb d (si_sale_date item) = true)
            /\ (forall d, end_date = Some d -> d <> "" ->
                          String.leb (si_sale_date item) d = true))
    /\ (0 <= limit -> Z.of_nat (length (sp_sales page)) <= limit)
    /\ Z.of_nat (length (sp_sales page)) <= sp_total page
    /\ (forall n m, 0 <= n -> 0 <= m ->
          sales_rows building_id start_date end_date n 0 s
          ++ sales_rows building_id start_date end_date m n s
          = sales_rows building_id start_date end_date (n + m) 0 s)
    /\ (forall r, sale_matches (Some 0) start_date end_date r
                  = sale_matches None start_date end_date r).
Proof.
  eexists. split; [apply list_sales_calm|]. cbn [sp_total sp_sales].
  split; [reflexivity|]. split; [|split; [|split; [|split]]].
  - intros item Hin. apply sales_rows_in in Hin.
    destruct Hin as [r [Hin [Hm ->]]]. exists r.
    split; [exact Hin|]. split; [reflexivity|].
    unfold sale_matches in Hm. apply andb_true_iff in Hm.
    destruct Hm as [Hm He]. apply andb_true_iff in Hm. destruct Hm as [Hb Hs].
    split; [|split].
    + intros b -> Hne. simpl in Hb.
      destruct (b =? 0) eqn:E; [apply Z.eqb_eq in E; contradiction|].
      simpl in Hb. apply Z.eqb_eq, Hb.
    + intros d -> Hne. rewrite (truthy_nonempty d Hne) in Hs. exact Hs.
    + intros d -> Hne. rewrite (truthy_nonempty d Hne) in He. exact He.
  - intros Hl. unfold sales_rows.
    pose proof (limit_offset_length _ limit offset
                  (map (sale_item_of s)
                     (order_by
                        (fun r x =>
                           String.ltb (hs_sale_date (hs_fields x))
                             (hs_sale_date (hs_fields r)))
                        (filter (sale_matches building_id start_date end_date)
                           (historical_sales s)))) Hl) as H.
    lia.
  - unfold sales_rows, limit_offset.
    assert (Hlen : length (map (sale_item_of s)
                             (order_by
                                (fun r x =>
                                   String.ltb (hs_sale_date (hs_fields x))
                                     (hs_sale_date (hs_fields r)))
                                (filter (sale_matches building_id start_date
                                           end_date) (historical_sales s))))
                   = length (filter (sale_matches building_id start_date
                                       end_date) (historical_sales s))).
    { rewrite length_map. symmetry.
      apply Permutation.Permutation_length, order_by_perm. }
    rewrite <- Hlen.
    destruct (limit <? 0).
    + rewrite length_skipn. lia.
    + rewrite length_firstn, length_skipn. lia.
  - intros n m Hn Hm. unfold sales_rows. apply limit_offset_pages; assumption.
  - intros r. reflexivity.
Qed.

Lemma list_listings_calm (round2 : Q -> Q) (status : option string)
    (building_id neighborhood_id : option Z) (min_price max_price : option Q)
    (bedrooms : option Z) (property_type : option string) (sort : string)
    (limit offset : Z) (s : Store) :
  run (ListQueries.list_listings round2 status building_id neighborhood_id
         min_price max_price bedrooms property_type sort limit offset) s
  = (Ok (mk_listings_page
           (Z.of_nat
              (length
                 (filter
                    (listing_matches status building_id neighborhood_id
                       bedrooms property_type s)
                    (listings s))))
           offset limit
           (map (with_price_per_sqft round2)
              (listing_rows status building_id neighborhood_id bedrooms
                 property_type sort limit offset s))),
     s).
Proof. reflexivity. Qed.

Lemma listing_rows_in (status : option string)
    (building_id neighborhood_id bedrooms : option Z)
    (property_type : option string) (sort : string) (limit offset : Z)
    (s : Store) (item : listing_item) :
  In item
    (listing_rows status building_id neighborhood_id bedrooms property_type
       sort limit offset s) ->
  exists l,
    In l (listings s)
    /\ listing_matches status building_id neighborhood_id bedrooms
         property_type s l = true
    /\ item = listing_item_of s l.
Proof.
  unfold listing_rows. intros H. apply limit_offset_in in H.
  apply in_map_iff in H. destruct H as [l [<- Hl]].
  apply (Permutation.Permutation_in l
           (Permutation.Permutation_sym (order_by_perm _ _ _))) in Hl.
  apply filter_In in Hl. destruct Hl as [Hin Hm].
  exists l. auto.
Qed.

(** X23.  The list of listings.  When no statement fails, [list_listings]
    leaves the tables alone, and:
    - [min_price] and [max_price] have no effect at all: the call with a
      price range returns what the call without one returns;
    - [total] is the number of listings that pass the other filters,
      whatever [limit], [offset] and [sort] are, and the page holds at most
      [limit] of them;
    - every row of the page is a listing that passes the filters; without
      a status filter (absent or empty) it is an active listing, and with
      one it has that status, active or not;
    - a bedroom filter of 0 is a filter (only listings with 0 bedrooms
      pass), unlike a building id of 0;
    - [price_per_sqft] is given exactly for the rows whose current price
      and area are both present and not zero, so no division by zero is
      made. *)
Theorem list_listings_page (round2 : Q -> Q) (status : option string)
    (building_id neighborhood_id : option Z) (min_price max_price : option Q)
    (bedrooms : option Z) (property_type : option string) (sort : string)
    (limit offset : Z) (s : Store) :
  let call min max :=
    run (ListQueries.list_listings round2 status building_id neighborhood_id
           min max bedrooms property_type sort limit offset) s in
  call min_price max_price = call None None
  /\ exists page,
       call min_price max_price = (Ok page, s)
       /\ lp_total page
          = Z.of_nat
              (length
                 (filter
                    (listing_matches status building_id neighborhood_id
                       bedrooms property_type s)
                    (listings s)))
       /\ (0 <= limit -> Z.of_nat (length (lp_listings page)) <= limit)
       /\ (forall item, In item (lp_listings page) ->
             exists l,
               In l (listings s)
               /\ li_mls_number item = l_mls_number l
               /\ li_status item = l_status (l_fields l)
               /\ li_current_price item = latest_price (l_id l) s
               /\ (truthy status = false -> l_is_active l = true)
               /\ (forall v, status = Some v -> v <> "" ->
                             l_status (l_fields l) = v)
               /\ (forall n, bedrooms = Some n ->
                             l_bedrooms (l_fields l) = Some n)
               /\ (forall b, building_id = Some b -> b <> 0 ->
                             l_building_id (l_fields l) = Some b)
               /\ (forall x, li_price_per_sqft item = Some x <->
                     exists cp sqft,
                       latest_price (l_id l) s = Some cp
                       /\ l_square_feet (l_fields l) = Some sqft
                       /\ Qeq_bool cp 0 = false /\ sqft <> 0
                       /\ x = round2 (cp / inject_Z sqft)%Q)).
Proof.
  intros call. unfold call. split; [reflexivity|].
  rewrite list_listings_calm. eexists. split; [reflexivity|].
  cbn [lp_total lp_listings]. split; [reflexivity|]. split.
  - intros Hl. rewrite length_map. unfold listing_rows.
    pose proof (limit_offset_length _ limit offset
                  (map (listing_item_of s)
                     (order_by (sort_before sort s)
                        (filter
                           (listing_matches status building_id
                              neighborhood_id bedrooms property_type s)
                           (listings s)))) Hl) as H.
    lia.
  - intros item Hin. apply in_map_iff in Hin.
    destruct Hin as [item0 [<- Hin]]. apply listing_rows_in in Hin.
    destruct Hin as [l [Hin [Hm ->]]]. exists l.
    split; [exact Hin|]. do 3 (split; [reflexivity|]).
    unfold listing_matches in Hm. cbv zeta in Hm.
    apply andb_true_iff in Hm. destruct Hm as [Hm Htype].
    apply andb_true_iff in Hm. destruct Hm as [Hm Hbeds].
    apply andb_true_iff in Hm. destruct Hm as [Hm Hnbhd].
    apply andb_true_iff in Hm. destruct Hm as [Hm Hbld].
    split; [|split; [|split; [|split]]].
    + intros Hf. destruct status as [v|]; [|exact Hm].
      rewrite Hf in Hm. exact Hm.
    + intros v -> Hne. rewrite (truthy_nonempty v Hne) in Hm.
      apply String.eqb_eq, Hm.
    + intros n ->. unfold eq_column in Hbeds.
      destruct (l_bedrooms (l_fields l)) as [c|]; [|discriminate].
      apply Z.eqb_eq in Hbeds. subst. reflexivity.
    + intros b -> Hne. unfold truthy_int, eq_column in Hbld.
      destruct (b =? 0) eqn:E; [apply Z.eqb_eq in E; contradiction|].
      cbn [negb] in Hbld.
      destruct (l_building_id (l_fields l)) as [c|]; [|discriminate].
      apply Z.eqb_eq in Hbld. subst. reflexivity.
    + intros x. unfold with_price_per_sqft, listing_item_of. cbv zeta.
      cbn [li_price_per_sqft li_current_price li_square_feet].
      destruct (latest_price (l_id l) s) as [cp|];
        [|split; [discriminate | intros [cp [sqft [Hc _]]]; discriminate]].
      destruct (l_square_feet (l_fields l)) as [sqft|];
        [|split; [discriminate | intros [c [q [_ [Hq _]]]]; discriminate]].
      unfold truthy_decimal, truthy_int.
      destruct (Qeq_bool cp 0) eqn:Ec; cbn [negb andb].
      * split; [discriminate|].
        intros [c [q [Hc [_ [Hz _]]]]]. injection Hc as <-. congruence.
      * destruct (sqft =? 0) eqn:Es; cbn [negb].
        -- split; [discriminate|].
           intros [c [q [_ [Hq [_ [Hz _]]]]]]. injection Hq as <-.
           apply Z.eqb_eq in Es. contradiction.
        -- split.
           ++ intros H; injection H as <-. exists cp, sqft.
              apply Z.eqb_neq in Es. auto.
           ++ intros [c [q [Hc [Hq [_ [_ ->]]]]]].
              injection Hc as <-. injection Hq as <-. reflexivity.
Qed.

(** ** An MLS number without a usable character *)

Lemma keep_chars_none (f : ascii -> bool) (s : string) :
  Forall (fun c => f c = false) (chars s) -> keep_chars f s = "".
Proof.
  induction s as [|c s IH]; simpl; intros H; [reflexivity|].
  inversion H as [|? ? Hc Hs]; subst. rewrite Hc. apply IH, Hs.
Qed.

Lemma files_and_dirs (entries : list entry) :
  filter is_dir entries = [] ->
  filter (fun e => negb (is_dir e)) entries = entries.
Proof.
  induction entries as [|e rest IH]; simpl; [reflexivity|].
  destruct (is_dir e); simpl; [discriminate|].
  intros H. rewrite (IH H). reflexivity.
Qed.

(** X24.  An MLS number written in ASCII without a letter, a digit, "-" or
    "_".  Its
    directory name is empty, and the path built from it is the listings
    root itself.  [purge_listing_photos] then works on the root: it
    unlinks every plain file directly under it, and removes the root when
    nothing else is in it; when the root holds the directory of any
    listing, [rmdir] fails with [OSError] (errno 39) after the files are
    gone.  The photos of the historical sales are not touched. *)
Theorem purge_without_directory_name (mls : string) (disk : photo_storage)
    (entries : list entry) :
  ascii_only mls ->
  Forall (fun c => safe_char c = false) (chars mls) ->
  listings_path disk = Some entries ->
  PhotoFiles._get_listing_dir mls = ""
  /\ (filter is_dir entries = [] ->
      PhotoFiles.purge_listing_photos mls disk
      = (Done (length entries), mk_photo_storage None (historical_path disk)))
  /\ (forall sub, In sub entries -> is_dir sub = true ->
        PhotoFiles.purge_listing_photos mls disk
        = (Failed (OSError 39 ""),
           mk_photo_storage (Some (filter is_dir entries))
             (historical_path disk))).
Proof.
  intros _ Hno Hroot.
  assert (Hname : PhotoFiles._get_listing_dir mls = "").
  { rewrite listing_dir_keep. apply keep_chars_none, Hno. }
  split; [exact Hname|].
  unfold PhotoFiles.purge_listing_photos, PhotoFiles.purge_directory.
  rewrite Hname, Hroot. simpl. split.
  - intros Hd. rewrite Hd, (files_and_dirs entries Hd). reflexivity.
  - intros sub Hin Hsub.
    assert (Hs : In sub (filter is_dir entries))
      by (apply filter_In; split; assumption).
    destruct (filter is_dir entries) as [|x rest]; [contradiction|].
    reflexivity.
Qed.

(** ** The extension of a downloaded photo *)

Lemma lower_char_twice (c : ascii) : PhotoFiles.lower_char (PhotoFiles.lower_char c)
                                     = PhotoFiles.lower_char c.
Proof.
  destruct c as [[|] [|] [|] [|] [|] [|] [|] [|]]; reflexivity.
Qed.

Lemma lower_twice (s : string) :
  PhotoFiles.lower (PhotoFiles.lower s) = PhotoFiles.lower s.
Proof.
  induction s as [|c s IH]; simpl; [reflexivity|].
  rewrite lower_char_twice, IH. reflexivity.
Qed.

(** X25.  The extension of a photo.  [_get_extension] never returns the
    empty string.  The content type is read without regard to the case of
    its letters.  For one of the five content types of the table the
    extension is ".jpg", ".png", ".webp" or ".gif", whatever the URL says;
    for any other content type it is the suffix of the URL path, or ".jpg"
    when the path has none. *)
Theorem extension_is_never_empty (url_suffix : string -> string)
    (content_type url : string) :
  PhotoFiles._get_extension url_suffix content_type url <> ""
  /\ PhotoFiles._get_extension url_suffix (PhotoFiles.lower content_type) url
     = PhotoFiles._get_extension url_suffix content_type url
  /\ (forall ext,
        PhotoFiles.type_map (PhotoFiles.lower content_type) = Some ext ->
        In ext [".jpg"; ".png"; ".webp"; ".gif"]
        /\ forall url',
             PhotoFiles._get_extension url_suffix content_type url' = ext)
  /\ (PhotoFiles.type_map (PhotoFiles.lower content_type) = None ->
      PhotoFiles._get_extension url_suffix content_type url
      = if (url_suffix url =? "")%string then ".jpg" else url_suffix url).
Proof.
  unfold PhotoFiles._get_extension. rewrite lower_twice.
  split; [|split; [reflexivity|split]].
  - destruct (PhotoFiles.type_map (PhotoFiles.lower content_type)) as [ext|]
      eqn:E.
    + unfold PhotoFiles.type_map in E.
      repeat match type of E with
             | (if ?b then _ else _) = _ => destruct b
             end; try discriminate; injection E as <-; discriminate.
    + cbv zeta. destruct (url_suffix url =? "")%string eqn:Es; simpl.
      * discriminate.
      * apply String.eqb_neq, Es.
  - intros ext E. split.
    + unfold PhotoFiles.type_map in E.
      repeat match type of E with
             | (if ?b then _ else _) = _ => destruct b
             end; try discriminate; injection E as <-; simpl; auto.
    + intros url'. rewrite E. reflexivity.
  - intros E. rewrite E. cbv zeta.
    destruct (url_suffix url =? "")%string; reflexivity.
Qed.

(** ** Worked instances of the further properties *)

(** The ledger of the example has one row; after R1 is seen again at
    475000 it still holds no price point twice. *)
Lemma ledger_stays_distinct_witness :
  distinct_points (price_history example_store)
  /\ distinct_points
       (price_history
          (store (snd (ListingService.create_or_update_listing
                         (mk_clock 11 1100)
                         (sighting "R1" "Tower" None (475000 # 1))
                         (calm example_store []))))).
Proof.
  assert (H : distinct_points (price_history example_store)).
  { vm_compute. constructor; constructor. }
  split; [exact H|].
  apply (proj1 (ledger_stays_distinct (mk_clock 11 1100)
                  (calm example_store []) H)).
Defined.

(** R1 is the only listing of the example; seeing R2 keeps the MLS numbers
    distinct. *)
Lemma mls_numbers_stay_unique_witness :
  unique_mls example_store
  /\ unique_mls
       (store (snd (ListingService.create_or_update_listing
                      (mk_clock 11 1100)
                      (sighting "R2" "Tower" None (300000 # 1))
                      (calm example_store [])))).
Proof.
  assert (H : unique_mls example_store).
  { unfold unique_mls. vm_compute.
    constructor; [intros [] | constructor]. }
  split; [exact H|].
  apply (proj1 (mls_numbers_stay_unique (mk_clock 11 1100)
                  (calm example_store []) H)).
Defined.

(** R2 is seen for the first time, at 300000 in "Tower". *)
Lemma upsert_creates_listing_witness :
  d_mls_number (sighting "R2" "Tower" None (300000 # 1)) = Some "R2"
  /\ "R2" <> ""
  /\ listing_by_mls "R2" example_store = None
  /\ exists res s',
       run (ListingService.create_or_update_listing (mk_clock 11 1100)
              (sighting "R2" "Tower" None (300000 # 1))) example_store
       = (Ok res, s')
       /\ r_is_new res = true
       /\ r_price_recorded res = true
       /\ length (listings s') = 2%nat.
Proof.
  assert (Hne : "R2" <> "") by discriminate.
  split; [reflexivity|]. split; [exact Hne|]. split; [reflexivity|].
  destruct (upsert_creates_listing (mk_clock 11 1100)
              (sighting "R2" "Tower" None (300000 # 1)) "R2" example_store
              eq_refl Hne eq_refl)
    as [res [s' [bid [Hrun [_ [_ [Hnew [_ [_ [Hrec [Hl _]]]]]]]]]]].
  exists res, s'. split; [exact Hrun|]. split; [exact Hnew|].
  split; [rewrite Hrec; reflexivity|].
  rewrite Hl. reflexivity.
Defined.

(** R1 is seen again with the status "Sold": the listing read back has
    that status and is active. *)
Lemma upsert_then_get_listing_witness :
  "R1" <> ""
  /\ exists res s' row hist,
       run (ListingService.create_or_update_listing (mk_clock 11 1100)
              (mk_listing_data (Some "R1") (Some "Tower") None None None
                 (Some "Sold") None None None None None None None None None
                 None None None)) example_store
       = (Ok res, s')
       /\ fst (run (ListingService.get_listing "R1") s')
          = Ok (Some (row, hist))
       /\ l_status (l_fields row) = "Sold"
       /\ l_is_active row = true
       /\ r_is_new res = false.
Proof.
  assert (Hne : "R1" <> "") by discriminate.
  split; [exact Hne|].
  destruct (upsert_then_get_listing (mk_clock 11 1100)
              (mk_listing_data (Some "R1") (Some "Tower") None None None
                 (Some "Sold") None None None None None None None None None
                 None None None) "R1" example_store eq_refl Hne)
    as [res [s' [row [hist [Hrun [Hget [_ [_ [Hst [Hact [_ [Hnew _]]]]]]]]]]]].
  exists res, s', row, hist.
  split; [exact Hrun|]. split; [exact Hget|]. split; [exact Hst|].
  split; [exact Hact|]. rewrite Hnew. reflexivity.
Defined.

(** Both resolvers on the name "Tower". *)
Lemma resolvers_agree_witness :
  "Tower" <> ""
  /\ ListingService._get_or_create_building (Some "Tower") None None
       (calm example_store [])
     = as_optional
         (HistoricalSaleService._get_or_create_building "Tower" None None
            (calm example_store [])).
Proof.
  assert (Hne : "Tower" <> "") by discriminate.
  split; [exact Hne|].
  apply (resolvers_agree "Tower" None None (calm example_store []) Hne).
Defined.

(** The listing "R 1" keeps its photos under "R1"; the sweep finds no
    listing of that number and removes them. *)
Lemma sweep_and_directory_names_witness :
  let s := with_listing "R 1" empty_store in
  let disk :=
    mk_photo_storage (Some [Dir "R1" [File "01.jpg"]]) (Some []) in
  In "R 1" (live_mls_numbers s)
  /\ PhotoFiles._get_listing_dir "R 1" = "R1"
  /\ exists stats disk' kept,
       run (PhotoService.purge_orphaned_photos disk) s = (Ok (stats, disk'), s)
       /\ listings_path disk' = Some kept
       /\ ~ In (Dir "R1" [File "01.jpg"]) kept
       /\ (1 <= ps_listings_deleted stats)%nat.
Proof.
  intros s disk.
  assert (Hlive : In "R 1" (live_mls_numbers s)) by (left; reflexivity).
  split; [exact Hlive|]. split; [reflexivity|].
  destruct (sweep_and_directory_names disk s "R 1"
              [Dir "R1" [File "01.jpg"]] [File "01.jpg"] Hlive eq_refl
              (or_introl eq_refl))
    as [stats [disk' [kept [Hrun [Hk [_ Hgone]]]]]].
  assert (Hno : ~ In (PhotoFiles._get_listing_dir "R 1") (live_mls_numbers s)).
  { intros [H | []]. discriminate H. }
  destruct (Hgone Hno) as [Hnone Hcount].
  exists stats, disk', kept. split; [exact Hrun|]. split; [exact Hk|].
  split; [apply (Hnone [File "01.jpg"]) | exact Hcount].
Defined.

(** Two photos under "R1": the purge returns 2. *)
Lemma purge_listing_photos_effect_witness :
  let disk :=
    mk_photo_storage
      (Some [Dir "R1" [File "01.jpg"; File "02.jpg"]; Dir "R2" [File "01.jpg"]])
      (Some []) in
  ascii_only "R1"
  /\ PhotoFiles._get_listing_dir "R1" <> ""
  /\ exists disk',
       PhotoFiles.purge_listing_photos "R1" disk = (Done 2%nat, disk')
       /\ listings_path disk' = Some [Dir "R2" [File "01.jpg"]].
Proof.
  intros disk.
  assert (Ha : ascii_only "R1") by (repeat constructor).
  assert (Hne : PhotoFiles._get_listing_dir "R1" <> "") by discriminate.
  split; [exact Ha|]. split; [exact Hne|].
  destruct (proj2 (purge_listing_photos_effect "R1" disk _ Ha Hne eq_refl)
              "R1" [File "01.jpg"; File "02.jpg"] eq_refl)
    as [disk' [kept [Hrun [Hk _]]]].
  { repeat constructor. }
  exists disk'. split; [exact Hrun|].
  rewrite Hk. f_equal.
  assert (E : PhotoFiles.purge_listing_photos "R1" disk
              = (Done 2%nat,
                 mk_photo_storage (Some [Dir "R2" [File "01.jpg"]]) (Some [])))
    by reflexivity.
  rewrite E in Hrun. injection Hrun as <-. simpl in Hk. congruence.
Defined.

(** A sub-directory under "R1": the purge fails, the photo is gone. *)
Lemma purge_listing_photos_partial_witness :
  let disk :=
    mk_photo_storage (Some [Dir "R1" [File "01.jpg"; Dir "thumbs" []]])
      (Some []) in
  ascii_only "R1"
  /\ PhotoFiles._get_listing_dir "R1" <> ""
  /\ exists disk' kept,
       PhotoFiles.purge_listing_photos "R1" disk
       = (Failed (OSError 39 "R1"), disk')
       /\ listings_path disk' = Some kept
       /\ lookup_entry "R1" kept = Some (Dir "R1" [Dir "thumbs" []]).
Proof.
  intros disk.
  assert (Ha : ascii_only "R1") by (repeat constructor).
  assert (Hne : PhotoFiles._get_listing_dir "R1" <> "") by discriminate.
  split; [exact Ha|]. split; [exact Hne|].
  destruct (proj1 (purge_listing_photos_partial "R1" disk _ Ha Hne eq_refl)
              "R1" [File "01.jpg"; Dir "thumbs" []] (Dir "thumbs" [])
              eq_refl (or_intror (or_introl eq_refl)) eq_refl)
    as [disk' [kept [Hrun [Hk [Hl _]]]]].
  exists disk', kept. split; [exact Hrun|]. split; [exact Hk | exact Hl].
Defined.

(** A sale without a building name, in empty tables. *)
Lemma sale_without_building_name_witness :
  let data :=
    mk_sale_data "" None None None (450000 # 1) "2024-06-15" None None None
      None None None None [] in
  truthy (sd_address data) = false
  /\ building_by_name "" empty_store = None
  /\ exists bid sale_id s',
       run (HistoricalSaleService.create_sale data) empty_store
       = (Ok (mk_sale_result true sale_id "Historical sale recorded"), s')
       /\ buildings s' = [mk_building bid "" "Unknown" None "Victoria"].
Proof.
  intros data. split; [reflexivity|]. split; [reflexivity|].
  destruct (sale_without_building_name data empty_store eq_refl eq_refl
              eq_refl)
    as [bid [sale_id [s' [Hrun [_ [Hb _]]]]]].
  exists bid, sale_id, s'. split; [exact Hrun | exact Hb].
Defined.

(** The references of the example hold, and still do after R2 is seen. *)
Lemma references_stay_valid_witness :
  references_hold example_store
  /\ references_hold
       (store (snd (ListingService.create_or_update_listing
                      (mk_clock 11 1100)
                      (sighting "R2" "Elsewhere" None (300000 # 1))
                      (calm example_store [])))).
Proof.
  assert (H : references_hold example_store).
  { unfold references_hold. vm_compute.
    repeat split; repeat constructor. }
  split; [exact H|].
  apply (proj1 (references_stay_valid (lib := PlainLibrary.plain)
                  (mk_clock 11 1100) (calm example_store []) H)).
Defined.

(** The MLS number "!!" names no directory: the purge empties the root. *)
Lemma purge_without_directory_name_witness :
  let disk := mk_photo_storage (Some [File ".gitkeep"]) (Some []) in
  ascii_only "!!"
  /\ Forall (fun c => safe_char c = false) (chars "!!")
  /\ PhotoFiles.purge_listing_photos "!!" disk
     = (Done 1%nat, mk_photo_storage None (Some [])).
Proof.
  intros disk.
  assert (Ha : ascii_only "!!") by (repeat constructor).
  assert (H : Forall (fun c => safe_char c = false) (chars "!!"))
    by (repeat constructor).
  split; [exact Ha|]. split; [exact H|].
  apply (proj1 (proj2 (purge_without_directory_name "!!" disk _ Ha H
                         eq_refl))).
  reflexivity.
Defined.

(** "inf" in a cell for an integer: [_parse_int] raises, [_parse_float]
    returns the infinity. *)
Lemma parse_int_outcomes_witness :
  HistoricalSaleService.is_blank (Some "inf") = false
  /\ HistoricalSaleService._parse_int (lib := special_floats) (Some "inf")
     = Raise (OverflowError "cannot convert float infinity to integer")
  /\ HistoricalSaleService._parse_float (lib := special_floats) (Some "inf")
     = Ok (Some (Infinite false))
  /\ HistoricalSaleService._parse_int (lib := special_floats) (Some "nan")
     = Ok None.
Proof.
  split; [reflexivity|].
  pose proof (parse_int_outcomes (lib := special_floats) (Some "inf"))
    as [_ [Hint [_ [_ Hfloat]]]].
  split; [exact (Hint "inf" eq_refl eq_refl)|].
  split; [exact (Hfloat "inf" (Infinite false) eq_refl eq_refl eq_refl)|].
  exact (proj1 (proj2 (parse_int_outcomes (lib := special_floats)
                         (Some "nan"))) "nan" eq_refl eq_refl).
Defined.

(** An MLS number of letters and digits is its own directory name. *)
Lemma listing_dir_is_safe_witness :
  ascii_only "R1234567" /\ ascii_only "../R1/x"
  /\ Forall (fun c => safe_char c = true) (chars "R1234567")
  /\ PhotoFiles._get_listing_dir "R1234567" = "R1234567"
  /\ ~ In "/"%char (chars (PhotoFiles._get_listing_dir "../R1/x")).
Proof.
  assert (Ha : ascii_only "R1234567") by (repeat constructor).
  assert (Hb : ascii_only "../R1/x") by (repeat constructor).
  assert (H : Forall (fun c => safe_char c = true) (chars "R1234567"))
    by (repeat constructor).
  split; [exact Ha|]. split; [exact Hb|]. split; [exact H|].
  split.
  - exact (proj2 (proj2 (proj2 (proj2 (proj2 (proj2 (proj2 (proj2
             (listing_dir_is_safe "R1234567" Ha)))))))) H).
  - exact (proj1 (proj2 (proj2 (listing_dir_is_safe "../R1/x" Hb)))).
Defined.

(** R1 deleted from the example with its two photos: it is gone, the
    building "Tower" stays. *)
Lemma delete_listing_effect_witness :
  let disk :=
    mk_photo_storage (Some [Dir "R1" [File "01.jpg"; File "02.jpg"]])
      (Some []) in
  let disk1 := mk_photo_storage (Some []) (Some []) in
  ascii_only "R1"
  /\ listing_by_mls "R1" example_store = Some example_row
  /\ unique_mls example_store
  /\ exists s',
       ListingRemoval.delete_listing "R1" true (calm example_store []) disk
       = (Returned true, calm s' [], disk1)
       /\ listings s' = []
       /\ map b_name (buildings s') = ["Tower"]
       /\ ListingRemoval.delete_listing "R1" true (calm s' []) disk1
          = (Returned false, calm s' [], disk1).
Proof.
  intros disk disk1.
  assert (Ha : ascii_only "R1") by (repeat constructor).
  assert (Hu : unique_mls example_store).
  { unfold unique_mls. vm_compute. constructor; [intros [] | constructor]. }
  split; [exact Ha|]. split; [reflexivity|]. split; [exact Hu|].
  destruct (proj2 (delete_listing_effect "R1" true example_store disk
                     (fun _ => Ha))
              example_row 2%nat disk1 eq_refl eq_refl)
    as [s' [Hrun [Hl [_ [Hb [_ [_ [_ Hagain]]]]]]]].
  exists s'. split; [exact Hrun|]. split; [rewrite Hl; reflexivity|].
  split; [rewrite Hb; reflexivity|].
  exact (proj2 (Hagain Hu)).
Defined.

(** R1 with a sub-directory among its photos: the delete fails and R1 is
    still in the tables. *)
Lemma delete_listing_keeps_row_on_photo_failure_witness :
  let disk :=
    mk_photo_storage (Some [Dir "R1" [File "01.jpg"; Dir "thumbs" []]])
      (Some []) in
  ascii_only "R1"
  /\ exists disk' kept,
    ListingRemoval.delete_listing "R1" true (calm example_store []) disk
    = (OSFailed (OSError 39 "R1"), calm example_store [], disk')
    /\ listings_path disk' = Some kept
    /\ lookup_entry "R1" kept = Some (Dir "R1" [Dir "thumbs" []]).
Proof.
  intros disk.
  assert (Ha : ascii_only "R1") by (repeat constructor).
  assert (Hne : PhotoFiles._get_listing_dir "R1" <> "") by discriminate.
  split; [exact Ha|].
  exact (proj2 (delete_listing_keeps_row_on_photo_failure "R1" Ha)
           example_store disk example_row _ "R1"
           [File "01.jpg"; Dir "thumbs" []] (Dir "thumbs" [])
           eq_refl Hne eq_refl eq_refl (or_intror (or_introl eq_refl))
           eq_refl).
Defined.

(** The price history of R1 in the example: its one row. *)
Lemma price_history_newest_first_witness :
  listing_by_mls "R1" example_store = Some example_row
  /\ exists prices,
       run (ListingsRoutes.get_price_history "R1") example_store
       = (Ok ("R1", prices), example_store)
       /\ newest_first prices
       /\ length prices = 1%nat.
Proof.
  split; [reflexivity|].
  destruct (proj2 (price_history_newest_first "R1" example_store)
              example_row eq_refl)
    as [prices [Hrun [Hsorted [Hperm _]]]].
  exists prices. split; [exact Hrun|]. split; [exact Hsorted|].
  rewrite <- (Permutation.Permutation_length Hperm). reflexivity.
Defined.

(** A record without an MLS number is refused and nothing is touched. *)
Lemma upsert_requires_mls_witness :
  let data :=
    mk_listing_data None (Some "Tower") None None None None None None None
      None None None None None None None None (Some (500000 # 1)) in
  truthy (d_mls_number data) = false
  /\ ListingService.create_or_update_listing example_clock data
       (mk_world example_store [false; true] [])
     = (Raise (ValueError "mls_number is required"),
        mk_world example_store [false; true] []).
Proof.
  intros data. split; [reflexivity|].
  exact (proj1 (upsert_requires_mls example_clock data) eq_refl
           (mk_world example_store [false; true] [])).
Defined.
